(** * talkcleaner: the background workers of [ktalk.py]

    A shallow embedding of the three workers of [ktalk.py]
    ([SearchWorker], [CompressionWorker], [DeletionWorker]), of the file
    enumeration of [MainWindow.check_folder_and_list_files] and of the part
    of [MainWindow] that starts workers and consumes their terminal signals.

    Conventions.
    - A Python [str] is a [string]; a [bytes] object is a [list Byte.byte].
    - A Qt signal emission appends an event to the worker's list of emitted
      signals; the list is in emission order.
    - [self._cancelled] is written by the interface thread only, and only to
      [True].  A worker thread that polls it therefore reads [False] a
      number of times and [True] ever after: [cancel_after = Some k] says
      that the first [k] polls read [False], [None] that nobody cancels.
    - The file system (with the reads, creations, writes and closes that
      it refuses), the clock and the order in which the futures of the
      thread pool are yielded are inputs of the model. *)

From Stdlib Require Import QArith Ascii String.
From stdpp Require Import base option list gmap strings sorting.

Open Scope string_scope.
Open Scope list_scope.
Open Scope nat_scope.

(** ** Python strings *)

Module PyStr.

(** [hay.startswith(needle)] *)
Fixpoint startswith (hay needle : string) {struct needle} : bool :=
  match needle with
  | EmptyString => true
  | String a needle' =>
      match hay with
      | EmptyString => false
      | String b hay' => Ascii.eqb a b && startswith hay' needle'
      end
  end.

(** [needle in hay] on Python strings. *)
Fixpoint contains (needle hay : string) : bool :=
  startswith hay needle ||
  match hay with
  | EmptyString => false
  | String _ rest => contains needle rest
  end.

(** The specification of [in]: [needle] occurs somewhere inside [hay]. *)
Definition substring_of (needle hay : string) : Prop :=
  exists pre post, hay = pre +:+ needle +:+ post.

(** [str.lower] restricted to ASCII letters; bytes above 127 are kept. *)
Definition lower_ascii (c : ascii) : ascii :=
  let n := nat_of_ascii c in
  if (65 <=? n)%nat && (n <=? 90)%nat then ascii_of_nat (n + 32) else c.

Fixpoint ascii_lower (s : string) : string :=
  match s with
  | EmptyString => EmptyString
  | String c rest => String (lower_ascii c) (ascii_lower rest)
  end.

(** [str.rstrip] for ASCII white space. *)
Definition is_space (c : ascii) : bool :=
  let n := nat_of_ascii c in
  (n =? 32) || ((9 <=? n) && (n <=? 13)).

Fixpoint ascii_rstrip (s : string) : string :=
  match s with
  | EmptyString => EmptyString
  | String c rest =>
      match ascii_rstrip rest with
      | EmptyString => if is_space c then EmptyString else String c EmptyString
      | rest' => String c rest'
      end
  end.

Fixpoint ascii_lstrip (s : string) : string :=
  match s with
  | EmptyString => EmptyString
  | String c rest => if is_space c then ascii_lstrip rest else s
  end.

(** [str.strip] for ASCII white space. *)
Definition ascii_strip (s : string) : string := ascii_lstrip (ascii_rstrip s).

(** [nonempty l] is the truth value Python gives to the list [l]. *)
Definition nonempty {A} (l : list A) : bool :=
  match l with [] => false | _ :: _ => true end.

End PyStr.

(** ** Exceptions and the worker monad *)

(** The exceptions that the workers raise or catch.  [str_exn] is Python's
    [str(e)]. *)
Inductive exn :=
| Exception (msg : string)
| OSError (msg : string)
| ZeroDivisionError.

Definition str_exn (e : exn) : string :=
  match e with
  | Exception msg => msg
  | OSError msg => msg
  | ZeroDivisionError => "division by zero"
  end.

Inductive result (A : Type) :=
| Ok (a : A)
| Raise (e : exn).
Arguments Ok {A} a.
Arguments Raise {A} e.

(** What a worker thread can touch: the cancellation flag, the signals it
    has emitted so far, and worker-specific surroundings [X]. *)
Record World (E X : Type) := mkWorld {
  cancel_after : option nat;
  signals : list E;
  env : X
}.
Arguments mkWorld {E X}.
Arguments cancel_after {E X}.
Arguments signals {E X}.
Arguments env {E X}.

Definition M (E X A : Type) : Type := World E X -> result A * World E X.

Section Runner.
Context {E X : Type}.

Definition ret {A} (a : A) : M E X A := fun w => (Ok a, w).

Definition bind {A B} (c : M E X A) (k : A -> M E X B) : M E X B :=
  fun w =>
    match c w with
    | (Ok a, w') => k a w'
    | (Raise e, w') => (Raise e, w')
    end.

Definition raise {A} (e : exn) : M E X A := fun w => (Raise e, w).

(** [try: c  except Exception as e: h e] *)
Definition try_except {A} (c : M E X A) (h : exn -> M E X A) : M E X A :=
  fun w =>
    match c w with
    | (Ok a, w') => (Ok a, w')
    | (Raise e, w') => h e w'
    end.

(** One read of [self._cancelled]. *)
Definition poll_cancelled : M E X bool :=
  fun w =>
    match cancel_after w with
    | None => (Ok false, w)
    | Some 0 => (Ok true, w)
    | Some (S k) => (Ok false, mkWorld (Some k) (signals w) (env w))
    end.

(** [signal.emit(...)] *)
Definition emit (e : E) : M E X unit :=
  fun w => (Ok tt, mkWorld (cancel_after w) (signals w ++ [e]) (env w)).

Definition get_env : M E X X := fun w => (Ok (env w), w).

End Runner.

(** The cancellation flag reads false for at least [n] more polls. *)
Definition uncancelled_for (n : nat) (cancel : option nat) : Prop :=
  match cancel with
  | None => True
  | Some k => n <= k
  end.

(** The flag after [n] polls that read false. *)
Definition after_polls (n : nat) (cancel : option nat) : option nat :=
  (fun k => k - n) <$> cancel.

Declare Scope worker_scope.
Delimit Scope worker_scope with worker.
Notation "x <- c1 ;; c2" := (bind c1 (fun x => c2))
  (at level 100, c1 at next level, right associativity) : worker_scope.
Notation "c1 ;; c2" := (bind c1 (fun _ => c2))
  (at level 100, right associativity) : worker_scope.

(** ** Task events *)

(** Every worker emits progress signals carrying [(current, total)] and
    terminal signals.  [progress_of] reads the pair off a progress signal
    and is [None] on a terminal one. *)
Class TaskEvent (E : Type) := progress_of : E -> option (nat * nat).

Definition is_terminal `{TaskEvent E} (e : E) : Prop := progress_of e = None.

(** [current] never decreases along a list of [(current, total)] pairs. *)
Fixpoint nondecreasing (l : list nat) : Prop :=
  match l with
  | [] => True
  | a :: rest => match rest with [] => True | b :: _ => (a <= b)%nat end /\ nondecreasing rest
  end.

(** The [(current, total)] pairs of the progress signals of items
    [i], ..., [i + k - 1]. *)
Definition ticks (total i k : nat) : list (nat * nat) :=
  (fun j => (j + 1, total)) <$> seq i k.

(** The terminal signals of a trace, in emission order. *)
Definition terminal_events `{TaskEvent E} (tr : list E) : list E :=
  List.filter (fun e => match progress_of e with None => true | Some _ => false end) tr.

(** The contract of a task run on its emitted signals: progress signals
    [ps], non-decreasing in [current] and bounded by [total], followed by
    exactly one terminal signal [t]. *)
Definition task_contract `{TaskEvent E} (tr : list E) : Prop :=
  exists (ps : list (nat * nat)) (pe : list E) (t : E),
    tr = pe ++ [t] /\
    progress_of <$> pe = Some <$> ps /\
    is_terminal t /\
    nondecreasing (fst <$> ps) /\
    Forall (fun p => (fst p <= snd p)%nat) ps.

(** ** File enumeration: [MainWindow.check_folder_and_list_files] *)

Module Enumerator.

(** The separator that [os.path.join] inserts on the platform of the
    program (the folder is looked up under [USERPROFILE]). *)
Definition sep : string := String (ascii_of_nat 92) EmptyString.

(** [os.path.join(a, b)] for a relative [b] and an [a] that does not end
    in a separator, which is what [os.walk] and [os.path.relpath] give. *)
Definition path_join (a b : string) : string := a +:+ sep +:+ b.

Definition is_sep (c : ascii) : bool :=
  Ascii.eqb c (ascii_of_nat 92) || Ascii.eqb c (ascii_of_nat 47).

(** [os.path.basename(p)]: what follows the last separator. *)
Fixpoint basename (p : string) : string :=
  match p with
  | EmptyString => EmptyString
  | String c rest =>
      if PyStr.contains sep rest || PyStr.contains "/" rest then basename rest
      else if is_sep c then rest else p
  end.

(** One entry of [self.file_items]: the tree item (its column-0 text and
    its check and hidden state), the full path and the base file name. *)
Record file_item := mkItem {
  item_text : string;
  item_checked : bool;
  item_hidden : bool;
  full_path : string;
  base_name : string
}.

(** One step of [os.walk(folder_path)]: the directory [root], given by its
    path relative to [folder_path] (["."] for the folder itself), and the
    names of the files in it. *)
Definition walk_step : Type := string * list string.

Definition list_dir (folder_path : string) (step : walk_step) : list file_item :=
  let '(relative_path, files) := step in
  let root := if String.eqb relative_path "." then folder_path
              else path_join folder_path relative_path in
  (fun file =>
     let display_text := if String.eqb relative_path "." then file
                         else path_join relative_path file in
     mkItem display_text false false (path_join root file) (basename file))
  <$> files.

Definition check_folder_and_list_files
    (folder_path : string) (walk : list walk_step) : list file_item :=
  concat (list_dir folder_path <$> walk).

End Enumerator.

(** ** [SearchWorker] *)

Module SearchWorker.

(** What [open(full_path, 'r', encoding='utf-8')] followed by iteration
    over the file does: [open] fails, or the iteration yields [lines] (each
    with its line end) and then either reaches the end of the file
    ([eof = true]) or raises, as a [UnicodeDecodeError] does when a later
    chunk of the file is not text. *)
Inductive text_read :=
| OpenFails (e : exn)
| Yields (lines : list string) (eof : bool).

Definition search_result : Type := bool * list (nat * string).

Inductive event :=
| progress (current total : nat)
| finished (results : list search_result).

#[global] Instance event_task : TaskEvent event := fun e =>
  match e with
  | progress c t => Some (c, t)
  | finished _ => None
  end.

(** How a [for] loop over the lines of a file ends. *)
Inductive loop_exit :=
| Exhausted
| Break
| Raised.

Section WithStr.
(** [str.lower] and [str.rstrip] of the Python runtime. *)
Variable lower : string -> string.
Variable rstrip : string -> string.

Record t := mk {
  files : list (string * string);
  search_term : string
}.

(** [__init__] *)
Definition init (files : list (string * string)) (search_term : string) : t :=
  mk files (lower search_term).

Abbreviation W := (M event (string -> text_read)).

(** The loop over the lines of one file.  [line_matches] is one list
    object, appended to in place: what was appended before the loop is left
    by [break] or by an exception is still in it afterwards. *)
Fixpoint scan_lines (self : t) (num : nat) (lines : list string) (eof : bool)
    (line_matches : list (nat * string)) : W (list (nat * string) * loop_exit) :=
  match lines with
  | [] => ret (line_matches, if eof then Exhausted else Raised)
  | line :: rest =>
      (c <- poll_cancelled ;;
       if c then ret (line_matches, Break)
       else
         scan_lines self (S num) rest eof
           (if PyStr.contains (search_term self) (lower line)
            then line_matches ++ [(num, rstrip line)]
            else line_matches))%worker
  end.

(** The body of the loop of [run] for one file, up to [results.append]. *)
Definition search_file (self : t) (full_path file_name : string) : W search_result :=
  (let match_ := PyStr.contains (search_term self) (lower file_name) in
   fs <- get_env ;;
   match fs full_path with
   | OpenFails _ => ret (match_, [])
   | Yields lines eof =>
       r <- scan_lines self 1 lines eof [] ;;
       match snd r with
       | Raised => ret (match_, fst r)
       | _ => ret (if PyStr.nonempty (fst r) then true else match_, fst r)
       end
   end)%worker.

Fixpoint run_loop (self : t) (total i : nat) (todo : list (string * string))
    (results : list search_result) : W (list search_result) :=
  match todo with
  | [] => ret results
  | (full_path, file_name) :: rest =>
      (c <- poll_cancelled ;;
       if c then ret results
       else
         r <- search_file self full_path file_name ;;
         emit (progress (i + 1) total) ;;
         run_loop self total (S i) rest (results ++ [r]))%worker
  end.

Definition run (self : t) : W unit :=
  (results <- run_loop self (length (files self)) 0 (files self) [] ;;
   emit (finished results))%worker.

(** [MainWindow.start_search] builds the worker's input from
    [self.file_items]. *)
Definition files_for_search (file_items : list Enumerator.file_item)
    : list (string * string) :=
  (fun it => (Enumerator.full_path it, Enumerator.base_name it)) <$> file_items.

(** [MainWindow.search_finished] reads the result of item [i] as
    [results[i] if i < len(results) else (False, [])] and shows the item
    exactly when its flag is set. *)
Definition result_at (results : list search_result) (i : nat) : search_result :=
  default (false, []) (results !! i).

Definition reported_matched (results : list search_result) (i : nat) : bool :=
  fst (result_at results i).

(** The results carried by the [finished] signal of a trace. *)
Definition finished_results (tr : list event) : option (list search_result) :=
  match last tr with
  | Some (finished rs) => Some rs
  | _ => None
  end.

(** A world in which nothing has been emitted yet. *)
Definition start (cancel : option nat) (fs : string -> text_read)
    : World event (string -> text_read) :=
  mkWorld cancel [] fs.

(** *** What an uncancelled scan computes *)

(** The term occurs in [s], case-insensitively. *)
Definition term_in (term s : string) : Prop :=
  PyStr.substring_of (lower term) (lower s).

Fixpoint matching_lines (self : t) (num : nat) (lines : list string)
    : list (nat * string) :=
  match lines with
  | [] => []
  | line :: rest =>
      (if PyStr.contains (search_term self) (lower line)
       then [(num, rstrip line)] else [])
      ++ matching_lines self (S num) rest
  end.

Definition file_result (self : t) (fs : string -> text_read)
    (f : string * string) : search_result :=
  let match_ := PyStr.contains (search_term self) (lower (snd f)) in
  match fs (fst f) with
  | OpenFails _ => (match_, [])
  | Yields lines true =>
      (if PyStr.nonempty (matching_lines self 1 lines) then true else match_,
       matching_lines self 1 lines)
  | Yields lines false => (match_, matching_lines self 1 lines)
  end.

(** The content read of a file fails: on [open] or while iterating. *)
Definition read_fails (r : text_read) : Prop :=
  match r with
  | OpenFails _ => True
  | Yields _ eof => eof = false
  end.

(** The lines of the content of a file, as far as they can be read. *)
Definition file_lines (fs : string -> text_read) (full_path : string) : list string :=
  match fs full_path with
  | OpenFails _ => []
  | Yields lines _ => lines
  end.

(** The term occurs in at least one of [lines]. *)
Definition term_in_lines (term : string) (lines : list string) : Prop :=
  exists line, line ∈ lines /\ term_in term line.

(** The signals of the run of a fresh worker on [files] and [term]. *)
Definition trace_of (files : list (string * string)) (term : string)
    (cancel : option nat) (fs : string -> text_read) : list event :=
  signals (snd (run (init files term) (start cancel fs))).

(** Item [i] is shown after the search exactly when the term occurs in the
    text of the item (its display name) or in a line of its content. *)
Definition matched_iff_display_name (file_items : list Enumerator.file_item)
    (term : string) (fs : string -> text_read) (i : nat) : Prop :=
  forall it rs,
    file_items !! i = Some it ->
    finished_results (trace_of (files_for_search file_items) term None fs) = Some rs ->
    (reported_matched rs i = true <->
     term_in term (Enumerator.item_text it) \/
     term_in_lines term (file_lines fs (Enumerator.full_path it))).

(** The progress signals of files [i], ..., [i + k - 1]. *)
Definition progress_ticks (total i k : nat) : list event :=
  (fun j => progress (j + 1) total) <$> seq i k.

(** The result of a file whose content read fails has no line matches, and
    its matched flag is the outcome of the name check. *)
Definition failed_read_has_no_line_matches (files : list (string * string))
    (term : string) (fs : string -> text_read) (i : nat) : Prop :=
  forall f rs,
    files !! i = Some f ->
    read_fails (fs (fst f)) ->
    finished_results (trace_of files term None fs) = Some rs ->
    snd (result_at rs i) = [] /\
    fst (result_at rs i) = PyStr.contains (lower term) (lower (snd f)).

End WithStr.
End SearchWorker.


(** ** [DeletionWorker] *)

Module DeletionWorker.

Inductive event :=
| progress (deleted total : nat) (percent elapsed remaining : Q)
| finished
| error (msg : string).

#[global] Instance event_task : TaskEvent event := fun e =>
  match e with
  | progress d t _ _ _ => Some (d, t)
  | finished => None
  | error _ => None
  end.

(** The surroundings of a delete run: the files on disk, the removals that
    the system refuses (with the message of the [OSError]), the clock
    ([clock n] is what the [n]-th call of [time.time()] returns), and the
    paths that [os.remove] has been called with so far.  Times, and the
    percentage and the estimate computed from them, are exact rationals
    here; the program computes them in floating point, with its
    rounding. *)
Record os := mkOs {
  disk : gmap string (list Byte.byte);
  deny_remove : string -> option string;
  clock : nat -> Q;
  time_calls : nat;
  removals : list string
}.

Abbreviation W := (M event os).

(** [str(e)] for the error of a path that does not exist.  The wording is
    that of the platform, and the runtime quotes the path with [repr]; the
    text given here stands for it. *)
Definition enoent (path : string) : string :=
  "[Errno 2] No such file or directory: '" +:+ path +:+ "'".

(** What [os.remove(path)] does to the disk: it raises when there is no
    such file or when the system refuses, and unlinks the file otherwise. *)
Definition unlink (deny : string -> option string)
    (d : gmap string (list Byte.byte)) (path : string)
    : exn + gmap string (list Byte.byte) :=
  match d !! path with
  | None => inl (OSError (enoent path))
  | Some _ =>
      match deny path with
      | Some msg => inl (OSError msg)
      | None => inr (delete path d)
      end
  end.

Definition os_remove (path : string) : W unit :=
  fun w =>
    let o := env w in
    let log := removals o ++ [path] in
    match unlink (deny_remove o) (disk o) path with
    | inl e =>
        (Raise e,
         mkWorld (cancel_after w) (signals w)
           (mkOs (disk o) (deny_remove o) (clock o) (time_calls o) log))
    | inr d' =>
        (Ok tt,
         mkWorld (cancel_after w) (signals w)
           (mkOs d' (deny_remove o) (clock o) (time_calls o) log))
    end.

(** [time.time()] *)
Definition time_time : W Q :=
  fun w =>
    let o := env w in
    (Ok (clock o (time_calls o)),
     mkWorld (cancel_after w) (signals w)
       (mkOs (disk o) (deny_remove o) (clock o) (S (time_calls o)) (removals o))).

(** Python's [x / d]: [ZeroDivisionError] when [d] is zero. *)
Definition truediv (x : Q) (d : Z) : W Q :=
  if (d =? 0)%Z then raise ZeroDivisionError else ret (x / inject_Z d)%Q.

Record t := mk { files_to_delete : list string }.

Definition error_message (file_path : string) (e : exn) : string :=
  "파일 삭제 오류: " +:+ file_path +:+ " - " +:+ str_exn e.

(** The [for] loop of [run].  It answers [true] when the body has executed
    [return], and [false] when the loop has ended, by exhaustion or by
    [break]. *)
Fixpoint run_loop (total : nat) (start_time : Q) (i : nat) (todo : list string)
    : W bool :=
  match todo with
  | [] => ret false
  | file_path :: rest =>
      (c <- poll_cancelled ;;
       if c then ret false
       else
         failed <- try_except (os_remove file_path ;; ret false)
                     (fun e => emit (error (error_message file_path e)) ;; ret true) ;;
         if failed then ret true
         else
           let deleted := Z.of_nat (i + 1) in
           now <- time_time ;;
           let elapsed := (now - start_time)%Q in
           ratio <- truediv (inject_Z deleted) (Z.of_nat total) ;;
           let percent := (ratio * 100)%Q in
           avg <- (if (deleted =? 0)%Z then ret 0%Q else truediv elapsed deleted) ;;
           let remaining := (avg * inject_Z (Z.of_nat total - deleted))%Q in
           emit (progress (i + 1) total percent elapsed remaining) ;;
           run_loop total start_time (S i) rest)%worker
  end.

Definition run (self : t) : W unit :=
  (let total := length (files_to_delete self) in
   start_time <- time_time ;;
   returned <- run_loop total start_time 0 (files_to_delete self) ;;
   if returned then ret tt else emit finished)%worker.

(** A world in which nothing has been emitted, timed or removed yet. *)
Definition start (cancel : option nat) (d : gmap string (list Byte.byte))
    (deny : string -> option string) (clk : nat -> Q) : World event os :=
  mkWorld cancel [] (mkOs d deny clk 0 []).

(** *** What the loop computes *)

(** Removing [paths] one after the other succeeds and leaves [Some] disk. *)
Fixpoint remove_all (deny : string -> option string)
    (d : gmap string (list Byte.byte)) (paths : list string)
    : option (gmap string (list Byte.byte)) :=
  match paths with
  | [] => Some d
  | path :: rest =>
      match unlink deny d path with
      | inl _ => None
      | inr d' => remove_all deny d' rest
      end
  end.

(** The progress signal that follows the removal of file [i], emitted when
    the clock reads [now]. *)
Definition progress_at (total : nat) (start_time now : Q) (i : nat) : event :=
  let deleted := Z.of_nat (i + 1) in
  let elapsed := (now - start_time)%Q in
  progress (i + 1) total
    ((inject_Z deleted / inject_Z (Z.of_nat total)) * 100)%Q
    elapsed
    ((elapsed / inject_Z deleted) * inject_Z (Z.of_nat total - deleted))%Q.

(** The progress signals of files [i], ..., [i + n - 1], the first of them
    timed by call [tc] of the clock. *)
Definition progress_run (total : nat) (start_time : Q) (clk : nat -> Q)
    (tc i n : nat) : list event :=
  (fun j => progress_at total start_time (clk (tc + j)) (i + j)) <$> seq 0 n.

(** The run raises [ZeroDivisionError]. *)
Definition divides_by_zero (r : result unit * World event os) : Prop :=
  fst r = Raise ZeroDivisionError.

End DeletionWorker.

(** ** [CompressionWorker] *)

Module CompressionWorker.

Inductive event :=
| progress (count total : nat)
| finished (zip_path : string)
| error (msg : string).

#[global] Instance event_task : TaskEvent event := fun e =>
  match e with
  | progress c t => Some (c, t)
  | finished _ => None
  | error _ => None
  end.

(** An entry of an archive: its name and its bytes. *)
Definition entry : Type := string * list Byte.byte.

(** What is stored at a path: plain bytes, or a ZIP archive, given by its
    entries in the order in which they were written. *)
Inductive fdata :=
| Bytes (data : list Byte.byte)
| Archive (entries : list entry).

(** What the system decides once the archive is open: the calls of
    [writestr] that raise ([write_fault k] is the message of the error
    raised by the call made when [k] entries are in the archive), whether
    [close] raises, and what a call that raised leaves at the
    destination. *)
Record faults := mkFaults {
  write_fault : nat -> option string;
  close_fault : option string;
  left_after_fault : fdata
}.

(** The surroundings of an archive run: the disk; the reads and the
    creations that the system refuses (with the message of the [OSError]);
    the faults of the open archive; for each submitted read, whether the
    pool thread that ran [read_file] found [self._cancelled] set; the picks
    that decide in which order [as_completed] yields the futures; and the
    paths opened for writing so far. *)
Record os := mkOs {
  disk : gmap string fdata;
  deny_read : string -> option string;
  deny_write : string -> option string;
  zip_faults : faults;
  read_cancelled : nat -> bool;
  picks : list nat;
  opened_for_writing : list string
}.

(** The surroundings [o] with [d] on disk. *)
Definition with_disk (o : os) (d : gmap string fdata) : os :=
  mkOs d (deny_read o) (deny_write o) (zip_faults o) (read_cancelled o)
    (picks o) (opened_for_writing o).

Abbreviation W := (M event os).

Definition cancel_message : string := "압축 작업이 취소되었습니다.".

(** [str(e)] for the error of a path that does not exist.  The wording is
    that of the platform, and the runtime quotes the path with [repr]; the
    text given here stands for it. *)
Definition enoent (path : string) : string :=
  "[Errno 2] No such file or directory: '" +:+ path +:+ "'".

Definition read_error_message (full_path : string) (e : exn) : string :=
  "파일 읽기 실패: " +:+ full_path +:+ " - " +:+ str_exn e.

(** The name under which [writestr] stores an entry ([ZipInfo.__init__]):
    the name given ends at its first null byte, and every separator of the
    platform in it becomes ["/"]. *)
Fixpoint until_nul (s : string) : string :=
  match s with
  | EmptyString => EmptyString
  | String c rest =>
      if Ascii.eqb c Ascii.zero then EmptyString else String c (until_nul rest)
  end.

Fixpoint slashes (s : string) : string :=
  match s with
  | EmptyString => EmptyString
  | String c rest =>
      String (if Ascii.eqb c (ascii_of_nat 92) then ascii_of_nat 47 else c)
        (slashes rest)
  end.

Definition zip_name (arcname : string) : string := slashes (until_nul arcname).

Record t := mk {
  files_to_compress : list (string * string);
  zip_path : string
}.

Section WithZip.
(** The bytes of the ZIP container that holds the given entries. *)
Variable zip_bytes : list entry -> list Byte.byte.

Definition bytes_of (fd : fdata) : list Byte.byte :=
  match fd with
  | Bytes data => data
  | Archive entries => zip_bytes entries
  end.

(** [open(full_path, "rb")] followed by [f.read()]. *)
Definition open_rb (o : os) (full_path : string) : exn + list Byte.byte :=
  match disk o !! full_path with
  | None => inl (OSError (enoent full_path))
  | Some fd =>
      match deny_read o full_path with
      | Some msg => inl (OSError msg)
      | None => inr (bytes_of fd)
      end
  end.

(** [read_file], as run by a pool thread for the [i]-th submitted pair. *)
Definition read_file (o : os) (i : nat) (full_path arcname : string)
    : result entry :=
  if read_cancelled o i then Raise (Exception cancel_message)
  else
    match open_rb o full_path with
    | inr data => Ok (arcname, data)
    | inl e => Raise (Exception (read_error_message full_path e))
    end.

(** The futures of [executor.submit(self.read_file, full_path, arcname)],
    in submission order, each with its outcome. *)
Definition futures (self : t) (o : os) : list (result entry) :=
  imap (fun i f => read_file o i (fst f) (snd f)) (files_to_compress self).

(** [as_completed]: the futures are yielded one by one, those that have
    finished already in the order of the set that holds them and the
    others as they complete; each pick chooses which of the futures not
    yielded yet is next. *)
Fixpoint complete {A} (n : nat) (choice : list nat) (pending : list A) : list A :=
  match n with
  | 0 => []
  | S n' =>
      let k := hd 0 choice mod length pending in
      match pending !! k with
      | Some x => x :: complete n' (tl choice) (delete k pending)
      | None => []
      end
  end.

Definition as_completed {A} (choice : list nat) (pending : list A) : list A :=
  complete (length pending) choice pending.

(** [future.result()] *)
Definition future_result (future : result entry) : W entry :=
  match future with
  | Ok r => ret r
  | Raise e => raise e
  end.

(** The loop over [as_completed(futures)]. *)
Fixpoint collect (total count : nat) (completed : list (result entry))
    (results : list entry) : W (list entry) :=
  match completed with
  | [] => ret results
  | future :: rest =>
      (c <- poll_cancelled ;;
       if c then raise (Exception cancel_message)
       else
         result <- future_result future ;;
         emit (progress (count + 1) total) ;;
         collect total (S count) rest (results ++ [result]))%worker
  end.

(** [zipfile.ZipFile(zip_path, 'w', zipfile.ZIP_DEFLATED)]: the file is
    created, or truncated, as an archive without entries. *)
Definition zip_open (zip_path : string) : W unit :=
  fun w =>
    let o := env w in
    match deny_write o zip_path with
    | Some msg => (Raise (OSError msg), w)
    | None =>
        (Ok tt,
         mkWorld (cancel_after w) (signals w)
           (mkOs (<[zip_path := Archive []]> (disk o)) (deny_read o)
              (deny_write o) (zip_faults o) (read_cancelled o) (picks o)
              (opened_for_writing o ++ [zip_path])))
    end.

(** [zipf.writestr(arcname, data)] on the archive open at [zip_path]: the
    call raises when the faults of the archive say so, and appends the
    entry, under its stored name, otherwise. *)
Definition zip_writestr (zip_path arcname : string) (data : list Byte.byte)
    : W unit :=
  fun w =>
    let o := env w in
    let entries := match disk o !! zip_path with
                   | Some (Archive entries) => entries
                   | _ => []
                   end in
    match write_fault (zip_faults o) (length entries) with
    | Some msg =>
        (Raise (OSError msg),
         mkWorld (cancel_after w) (signals w)
           (with_disk o
              (<[zip_path := left_after_fault (zip_faults o)]> (disk o))))
    | None =>
        (Ok tt,
         mkWorld (cancel_after w) (signals w)
           (with_disk o
              (<[zip_path := Archive (entries ++ [(zip_name arcname, data)])]>
                 (disk o))))
    end.

(** [zipf.close()], which [ZipFile.__exit__] calls. *)
Definition zip_close (zip_path : string) : W unit :=
  fun w =>
    let o := env w in
    match close_fault (zip_faults o) with
    | Some msg =>
        (Raise (OSError msg),
         mkWorld (cancel_after w) (signals w)
           (with_disk o
              (<[zip_path := left_after_fault (zip_faults o)]> (disk o))))
    | None => (Ok tt, w)
    end.

(** [with zipfile.ZipFile(zip_path, 'w', ...) as zipf: body].  The archive
    is closed when the body is left, by its end or by an exception; an
    exception of [close] replaces the one that left the body. *)
Definition with_zipfile {A} (zip_path : string) (body : W A) : W A :=
  (zip_open zip_path ;;
   fun w =>
     let '(r, w1) := body w in
     match zip_close zip_path w1 with
     | (Ok _, w2) => (r, w2)
     | (Raise e, w2) => (Raise e, w2)
     end)%worker.

(** The loop over [results] inside [with zipfile.ZipFile(...) as zipf]. *)
Fixpoint write_entries (zip_path : string) (results : list entry) : W unit :=
  match results with
  | [] => ret tt
  | (arcname, data) :: rest =>
      (c <- poll_cancelled ;;
       if c then raise (Exception cancel_message)
       else
         zip_writestr zip_path arcname data ;;
         write_entries zip_path rest)%worker
  end.

Definition run (self : t) : W unit :=
  (let total := length (files_to_compress self) in
   try_except
     (o <- get_env ;;
      results <- collect total 0 (as_completed (picks o) (futures self o)) [] ;;
      c <- poll_cancelled ;;
      if c then raise (Exception cancel_message)
      else
        with_zipfile (zip_path self) (write_entries (zip_path self) results) ;;
        emit (finished (zip_path self)))
     (fun e => emit (error (str_exn e))))%worker.

(** A world in which nothing has been emitted or opened yet. *)
Definition start (cancel : option nat) (d : gmap string fdata)
    (rdeny wdeny : string -> option string) (flt : faults) (rc : nat -> bool)
    (choice : list nat) : World event os :=
  mkWorld cancel [] (mkOs d rdeny wdeny flt rc choice []).

(** *** Vocabulary of the statements *)

(** The values of the futures that have one. *)
Definition values (l : list (result entry)) : list entry :=
  omap (fun r => match r with Ok a => Some a | Raise _ => None end) l.

(** A future that holds a value. *)
Definition has_value (f : result entry) : Prop := exists a, f = Ok a.

(** The entry under which [writestr] stores a pair that was read. *)
Definition stored (r : entry) : entry := (zip_name (fst r), snd r).

(** [en] is the entry that the pair [f] of the input asks for: its name is
    the stored form of the name that [f] gives, and its bytes are those
    that the disk [d] holds at the source path of [f]. *)
Definition entry_of (d : gmap string fdata) (f : string * string)
    (en : entry) : Prop :=
  fst en = zip_name (snd f) /\
  exists fd, d !! fst f = Some fd /\ snd en = bytes_of fd.

(** No call of [writestr] raises while the first [n] entries are
    written. *)
Definition writes_go_through (flt : faults) (n : nat) : Prop :=
  forall k, k < n -> write_fault flt k = None.

(** The read of [f] fails. *)
Definition read_fails (o : os) (f : string * string) : Prop :=
  exists e, open_rb o (fst f) = inl e.

(** The progress signals of reads [i], ..., [i + k - 1]. *)
Definition progress_ticks (total i k : nat) : list event :=
  (fun j => progress (j + 1) total) <$> seq i k.

End WithZip.
End CompressionWorker.

(** ** [MainWindow]: starting workers and consuming their terminal signals *)

Module MainWindow.
Import Enumerator.

(** A worker object moved to its own thread, with what it was built from. *)
Inductive worker :=
| SearchW (files : list (string * string)) (search_term : string)
| CompressionW (files_to_compress : list (string * string)) (zip_path : string)
| DeletionW (files_to_delete : list string).

Inductive kind := Search | Compression | Deletion.

Definition kind_of (wk : worker) : kind :=
  match wk with
  | SearchW _ _ => Search
  | CompressionW _ _ => Compression
  | DeletionW _ => Deletion
  end.

Definition kind_eqb (a b : kind) : bool :=
  match a, b with
  | Search, Search | Compression, Compression | Deletion, Deletion => true
  | _, _ => false
  end.

(** The window, as far as tasks are concerned.  [running] lists the workers
    whose thread has been started and whose terminal signal has not yet been
    consumed by its slot; [cancel_requested] those on which [cancel()] has
    been called. *)
Record gui := mkGui {
  file_items : list file_item;
  search_button_enabled : bool;
  btn_compress_enabled : bool;
  btn_clear_all_enabled : bool;
  btn_clear_selected_enabled : bool;
  cancel_button_visible : bool;
  active_worker : option worker;
  running : list worker;
  cancel_requested : list worker
}.

(** The window that [__init__] builds around the listed files. *)
Definition init (items : list file_item) : gui :=
  mkGui items true true true true false None [] [].

(** What the user and the event loop can do.  The answers that the user
    gives in the dialogs of a slot are part of the action. *)
Inductive action :=
| search_button_clicked (text : string)
| search_input_return_pressed (text : string)
| btn_compress_clicked (reply_yes : bool) (chosen_zip_path : string)
| btn_clear_all_clicked (reply_yes : bool)
| btn_clear_selected_clicked (reply_yes : bool)
| cancel_button_clicked
| search_worker_finished (results : list SearchWorker.search_result)
| comp_worker_finished
| comp_worker_error
| del_worker_finished (relisted : list file_item)
| del_worker_error.

Definition set_hidden (h : bool) (it : file_item) : file_item :=
  mkItem (item_text it) (item_checked it) h (full_path it) (base_name it).

(** Starting a task: the common tail of [start_search], [compress_files]
    and [start_deletion], after each has disabled its own buttons. *)
Definition start_worker (g : gui) (wk : worker)
    (search_en compress_en clear_all_en clear_sel_en : bool) : gui :=
  mkGui (file_items g) search_en compress_en clear_all_en clear_sel_en
    true (Some wk) (running g ++ [wk]) (cancel_requested g).

Definition reset_search (g : gui) : gui :=
  mkGui (set_hidden false <$> file_items g)
    (search_button_enabled g) (btn_compress_enabled g)
    (btn_clear_all_enabled g) (btn_clear_selected_enabled g)
    (cancel_button_visible g) (active_worker g) (running g) (cancel_requested g).

Definition start_search (g : gui) (text : string) : gui :=
  let search_term := PyStr.ascii_strip text in
  if String.eqb search_term "" then reset_search g
  else
    start_worker g (SearchW (SearchWorker.files_for_search (file_items g)) search_term)
      false (btn_compress_enabled g) (btn_clear_all_enabled g)
      (btn_clear_selected_enabled g).

Definition compress_files (g : gui) (reply_yes : bool) (chosen : string) : gui :=
  let entry_of it := (full_path it, item_text it) in
  let checked_files :=
    entry_of <$> filter (fun it => item_checked it && negb (item_hidden it) = true)
                   (file_items g) in
  let files_to_compress :=
    if PyStr.nonempty checked_files then Some checked_files
    else if reply_yes
         then Some (entry_of <$> filter (fun it => negb (item_hidden it) = true)
                                   (file_items g))
         else None in
  match files_to_compress with
  | None => g
  | Some files =>
      if negb (PyStr.nonempty files) then g
      else if String.eqb chosen "" then g
      else
        start_worker g (CompressionW files chosen)
          (search_button_enabled g) false (btn_clear_all_enabled g)
          (btn_clear_selected_enabled g)
  end.

Definition start_deletion (g : gui) (files_to_delete : list string) : gui :=
  start_worker g (DeletionW files_to_delete)
    (search_button_enabled g) (btn_compress_enabled g) false false.

Definition start_delete_all (g : gui) (reply_yes : bool) : gui :=
  let files_to_delete :=
    full_path <$> filter (fun it => negb (item_hidden it) = true) (file_items g) in
  if negb (PyStr.nonempty files_to_delete) then g
  else if negb reply_yes then g
  else start_deletion g files_to_delete.

Definition start_delete_selected (g : gui) (reply_yes : bool) : gui :=
  let files_to_delete :=
    full_path <$> filter (fun it => item_checked it = true) (file_items g) in
  if negb (PyStr.nonempty files_to_delete) then g
  else if negb reply_yes then g
  else start_deletion g files_to_delete.

(** The first running worker of kind [k] has delivered its terminal
    signal: its thread is quit and joined. *)
Fixpoint retire (k : kind) (l : list worker) : list worker :=
  match l with
  | [] => []
  | wk :: rest => if kind_eqb (kind_of wk) k then rest else wk :: retire k rest
  end.

(** The common tail of the slots of the terminal signals. *)
Definition task_done (g : gui) (k : kind) (items : list file_item)
    (search_en compress_en clear_all_en clear_sel_en : bool) : gui :=
  mkGui items search_en compress_en clear_all_en clear_sel_en
    false None (retire k (running g)) (cancel_requested g).

Definition search_finished (g : gui)
    (results : list SearchWorker.search_result) : gui :=
  task_done g Search
    (imap (fun i it =>
             set_hidden (negb (SearchWorker.reported_matched results i)) it)
          (file_items g))
    true (btn_compress_enabled g) (btn_clear_all_enabled g)
    (btn_clear_selected_enabled g).

Definition compression_done (g : gui) : gui :=
  task_done g Compression (file_items g)
    (search_button_enabled g) true (btn_clear_all_enabled g)
    (btn_clear_selected_enabled g).

Definition deletion_finished (g : gui) (relisted : list file_item) : gui :=
  task_done g Deletion relisted
    (search_button_enabled g) (btn_compress_enabled g) true true.

Definition deletion_error (g : gui) : gui :=
  task_done g Deletion (file_items g)
    (search_button_enabled g) (btn_compress_enabled g) true true.

Definition cancel_operation (g : gui) : gui :=
  match active_worker g with
  | None => g
  | Some wk =>
      mkGui (file_items g) (search_button_enabled g) (btn_compress_enabled g)
        (btn_clear_all_enabled g) (btn_clear_selected_enabled g)
        false (active_worker g) (running g) (cancel_requested g ++ [wk])
  end.

Definition is_running (k : kind) (g : gui) : bool :=
  existsb (fun wk => kind_eqb (kind_of wk) k) (running g).

(** One turn of the event loop.  A disabled button emits no [clicked], a
    hidden one cannot be clicked, and a terminal signal arrives only from
    a running worker. *)
Definition step (g : gui) (a : action) : gui :=
  match a with
  | search_button_clicked text =>
      if search_button_enabled g then start_search g text else g
  | search_input_return_pressed text => start_search g text
  | btn_compress_clicked reply_yes chosen =>
      if btn_compress_enabled g then compress_files g reply_yes chosen else g
  | btn_clear_all_clicked reply_yes =>
      if btn_clear_all_enabled g then start_delete_all g reply_yes else g
  | btn_clear_selected_clicked reply_yes =>
      if btn_clear_selected_enabled g then start_delete_selected g reply_yes else g
  | cancel_button_clicked =>
      if cancel_button_visible g then cancel_operation g else g
  | search_worker_finished results =>
      if is_running Search g then search_finished g results else g
  | comp_worker_finished | comp_worker_error =>
      if is_running Compression g then compression_done g else g
  | del_worker_finished relisted =>
      if is_running Deletion g then deletion_finished g relisted else g
  | del_worker_error =>
      if is_running Deletion g then deletion_error g else g
  end.

Definition steps (g : gui) (l : list action) : gui := foldl step g l.

(** The invariant of the data model: at most one worker is active. *)
Definition at_most_one_active (g : gui) : Prop := length (running g) <= 1.

End MainWindow.

(** ** Further vocabulary: listing and searching *)

Module Listing.
Import Enumerator.

(** A name without a separator, as [os.walk] gives for a file. *)
Definition separator_free (name : string) : Prop :=
  PyStr.contains sep name = false /\ PyStr.contains "/" name = false.

(** Every file name of a walk is free of separators. *)
Definition plain_names (walk : list walk_step) : Prop :=
  Forall (fun step => Forall separator_free (snd step)) walk.

End Listing.

Module SearchSpec.
Import SearchWorker.

Section WithStr.
Variable lower : string -> string.
Variable rstrip : string -> string.

(** [(num, text)] reports line [num] of [lines], counted from one: the
    line holds the term and [text] is the line without its trailing white
    space. *)
Definition reports_line (self : t) (lines : list string)
    (m : nat * string) : Prop :=
  exists line,
    1 <= fst m /\
    lines !! (fst m - 1) = Some line /\
    PyStr.contains (search_term self) (lower line) = true /\
    snd m = rstrip line.

(** What the code guarantees of the result [r] of the file [f], however
    the scan of the file ends: the flag is set only on a name match or on
    a line match; every line match reports a line of the file; the line
    numbers increase. *)
Definition sound_result (self : t) (fs : string -> text_read)
    (f : string * string) (r : search_result) : Prop :=
  (fst r = true ->
   PyStr.contains (search_term self) (lower (snd f)) = true \/ snd r <> []) /\
  Forall (reports_line self (file_lines fs (fst f))) (snd r) /\
  StronglySorted lt (fst <$> snd r).



(** The results of a run, read off its [finished] signal; [[]] when there
    is none. *)
Definition results_of (files : list (string * string)) (term : string)
    (cancel : option nat) (fs : string -> text_read) : list search_result :=
  default [] (finished_results (trace_of lower rstrip files term cancel fs)).

End WithStr.
End SearchSpec.

(** ** Further vocabulary: the window *)

Module Tasks.
Import MainWindow.

(** The number of running workers of kind [k]. *)
Definition count_kind (k : kind) (l : list worker) : nat :=
  length (List.filter (fun wk => kind_eqb (kind_of wk) k) l).

(** A worker that was given something to do. *)
Definition has_input (wk : worker) : Prop :=
  match wk with
  | SearchW _ search_term => search_term <> ""
  | CompressionW files_to_compress zip_path =>
      files_to_compress <> [] /\ zip_path <> ""
  | DeletionW files_to_delete => files_to_delete <> []
  end.

(** The action is the Return key in the search input. *)
Definition is_return (a : action) : bool :=
  match a with
  | search_input_return_pressed _ => true
  | _ => false
  end.

(** The buttons of the archive and delete tasks tell whether a worker of
    their kind runs. *)
Definition buttons_track_workers (g : gui) : Prop :=
  count_kind Compression (running g) = (if btn_compress_enabled g then 0 else 1) /\
  count_kind Deletion (running g) = (if btn_clear_all_enabled g then 0 else 1) /\
  btn_clear_selected_enabled g = btn_clear_all_enabled g.

(** The search button tells whether a search worker runs. *)
Definition search_button_tracks_worker (g : gui) : Prop :=
  count_kind Search (running g) = (if search_button_enabled g then 0 else 1).

(** Every running worker has input. *)
Definition workers_have_input (g : gui) : Prop :=
  forall wk, wk ∈ running g -> has_input wk.

(** The worker that the cancel button reaches is the one started last. *)
Definition active_is_last_started (g : gui) : Prop :=
  forall wk, active_worker g = Some wk -> last (running g) = Some wk.

End Tasks.

(** ** [format_size] *)

Module Format.

Section WithRendering.
(** [f"{x:.2f}"]: the rendering of a number with two decimals. *)
Variable fmt2 : Q -> string.

(** The loop of [format_size] over the units that are left.  The size is
    an exact number here; divisions by 1024 are exact in the program too. *)
Fixpoint format_size_from (units : list string) (size : Q) : string :=
  match units with
  | [] => fmt2 size +:+ " PB"
  | unit :: rest =>
      match (size ?= 1024)%Q with
      | Lt => fmt2 size +:+ " " +:+ unit
      | _ => format_size_from rest (size / 1024)%Q
      end
  end.

Definition format_size (size : Q) : string :=
  format_size_from ["B"; "KB"; "MB"; "GB"; "TB"] size.

End WithRendering.

(** The unit names, by the number of divisions made. *)
Definition unit_name (k : nat) : string :=
  nth k ["B"; "KB"; "MB"; "GB"; "TB"] "PB".

(** [1024 ^ k] *)
Definition kibi (k : nat) : Q := inject_Z (1024 ^ Z.of_nat k).

End Format.
(** ** Concrete inputs *)

Module Examples.

Definition bytes_of_string (s : string) : list Byte.byte :=
  Ascii.byte_of_ascii <$> String.list_ascii_of_string s.

(** The received-files folder holds one file, in the subfolder [sub]. *)
Definition nested_items : list Enumerator.file_item :=
  Enumerator.check_folder_and_list_files "C:\recv" [("sub", ["a.txt"])].

(** The received-files folder holds [a.txt] and [b.jpg]. *)
Definition flat_items : list Enumerator.file_item :=
  Enumerator.check_folder_and_list_files "C:\recv" [(".", ["a.txt"; "b.jpg"])].

(** Every file is empty. *)
Definition empty_files (path : string) : SearchWorker.text_read :=
  SearchWorker.Yields [] true.

(** [a.txt] holds one line; the other files are not text. *)
Definition hello_files (path : string) : SearchWorker.text_read :=
  if String.eqb path "C:\recv\a.txt"
  then SearchWorker.Yields ["hello world"] true
  else SearchWorker.OpenFails (OSError "denied").

(** A file whose first line decodes and whose rest does not. *)
Definition half_text_files (path : string) : SearchWorker.text_read :=
  SearchWorker.Yields ["hello world"] false.

Definition three_files : gmap string (list Byte.byte) :=
  <["f1" := bytes_of_string "one"]>
    (<["f2" := bytes_of_string "two"]>
       (<["f3" := bytes_of_string "three"]> ∅)).

(** The system refuses to remove [f2]. *)
Definition f2_locked (path : string) : option string :=
  if String.eqb path "f2" then Some "[WinError 5] Access is denied: 'f2'" else None.

Definition allowed (path : string) : option string := None.

Definition seconds (n : nat) : Q := inject_Z (Z.of_nat n).

Definition two_sources : gmap string CompressionWorker.fdata :=
  <["C:\recv\a.txt" := CompressionWorker.Bytes (bytes_of_string "alpha")]>
    (<["C:\recv\b.jpg" := CompressionWorker.Bytes (bytes_of_string "beta")]> ∅).

Definition two_pairs : list (string * string) :=
  [("C:\recv\a.txt", "a.txt"); ("C:\recv\b.jpg", "b.jpg")].

Definition never (i : nat) : bool := false.

(** An archive whose writes and whose close go through. *)
Definition no_faults : CompressionWorker.faults :=
  CompressionWorker.mkFaults (fun _ => None) None (CompressionWorker.Bytes []).

(** The write of the second entry raises. *)
Definition second_write_fails : CompressionWorker.faults :=
  CompressionWorker.mkFaults
    (fun k => if Nat.eqb k 1 then Some "[Errno 28] No space left on device" else None)
    None (CompressionWorker.Bytes []).

(** A file in the subfolder [sub] and a file of the folder itself, each
    under the name that the list shows. *)
Definition nested_sources : gmap string CompressionWorker.fdata :=
  <["C:\recv\sub\a.txt" := CompressionWorker.Bytes (bytes_of_string "alpha")]>
    (<["C:\recv\b.jpg" := CompressionWorker.Bytes (bytes_of_string "beta")]> ∅).

Definition nested_pairs : list (string * string) :=
  [("C:\recv\sub\a.txt", "sub\a.txt"); ("C:\recv\b.jpg", "b.jpg")].

(** A container format that is never read back in these runs. *)
Definition no_zip_bytes (es : list CompressionWorker.entry) : list Byte.byte := [].

End Examples.
(** * Proofs *)

(** ** Strings *)

Lemma PyStr_startswith_spec (hay needle : string) :
  PyStr.startswith hay needle = true <-> exists post, hay = needle +:+ post.
Proof.
  revert hay; induction needle as [|c a IH]; intros b; simpl.
  - split; [intros _; exists b; reflexivity | reflexivity].
  - destruct b as [|d b].
    + split; [discriminate | intros [post H]; discriminate].
    + rewrite andb_true_iff, Ascii.eqb_eq, IH. split.
      * intros [-> [post ->]]. by exists post.
      * intros [post H]. injection H as -> ->. split; [done | by exists post].
Qed.

Lemma PyStr_contains_spec (needle hay : string) :
  PyStr.contains needle hay = true <-> PyStr.substring_of needle hay.
Proof.
  unfold PyStr.substring_of. induction hay as [|c hay IH]; cbn [PyStr.contains].
  - rewrite orb_false_r, PyStr_startswith_spec. split.
    + intros [post H]. exists "", post. exact H.
    + intros [[|d pre] [post H]]; simpl in H; [by exists post | discriminate].
  - rewrite orb_true_iff, PyStr_startswith_spec, IH. split.
    + intros [[post H] | (pre & post & H)].
      * exists "", post. exact H.
      * exists (String c pre), post. simpl. by rewrite H.
    + intros ([|d pre] & post & H); simpl in H.
      * left. by exists post.
      * right. exists pre, post. by injection H as _ ->.
Qed.

Lemma string_app_assoc (a b c : string) : (a +:+ b) +:+ c = a +:+ b +:+ c.
Proof.
  induction a as [|x a IH]; [done|].
  change (String x ((a +:+ b) +:+ c) = String x (a +:+ b +:+ c)). by rewrite IH.
Qed.

Lemma string_app_nil_r (a : string) : a +:+ "" = a.
Proof.
  induction a as [|x a IH]; [done|].
  change (String x (a +:+ "") = String x a). by rewrite IH.
Qed.

(** The middle one of three concatenated strings occurs in the whole. *)
Lemma substring_of_middle (a m b : string) : PyStr.substring_of m (a +:+ m +:+ b).
Proof. by exists a, b. Qed.

Lemma substring_of_end (a m : string) : PyStr.substring_of m (a +:+ m).
Proof. exists a, "". by rewrite string_app_nil_r. Qed.

Lemma substring_of_app_l (a m b : string) :
  PyStr.substring_of m b -> PyStr.substring_of m (a +:+ b).
Proof.
  intros (pre & post & ->). exists (a +:+ pre), post. by rewrite string_app_assoc.
Qed.

(** ** The runner *)

Section RunnerFacts.
Context {E X : Type}.
Implicit Types w : World E X.

Lemma poll_never w :
  cancel_after w = None -> poll_cancelled w = (Ok false, w).
Proof. intros H. unfold poll_cancelled. by rewrite H. Qed.

Lemma poll_now w :
  cancel_after w = Some 0 -> poll_cancelled w = (Ok true, w).
Proof. intros H. unfold poll_cancelled. by rewrite H. Qed.

(** A poll never raises, emits nothing and leaves the surroundings alone. *)
Lemma poll_total w :
  exists c w', poll_cancelled w = (Ok c, w') /\
    signals w' = signals w /\ env w' = env w.
Proof.
  unfold poll_cancelled. destruct (cancel_after w) as [[|k]|]; eauto.
Qed.

Lemma after_polls_0 (c : option nat) : after_polls 0 c = c.
Proof. destruct c; simpl; [by rewrite Nat.sub_0_r | done]. Qed.

Lemma after_polls_add n m (c : option nat) :
  after_polls m (after_polls n c) = after_polls (n + m) c.
Proof. destruct c; simpl; [f_equal; lia | done]. Qed.

Lemma uncancelled_for_after n m (c : option nat) :
  uncancelled_for (n + m) c -> uncancelled_for m (after_polls n c).
Proof. destruct c; simpl; [lia | done]. Qed.

Lemma uncancelled_for_le n m (c : option nat) :
  n <= m -> uncancelled_for m c -> uncancelled_for n c.
Proof. destruct c; simpl; [lia | done]. Qed.

Lemma poll_uncancelled w :
  uncancelled_for 1 (cancel_after w) ->
  poll_cancelled w =
    (Ok false, mkWorld (after_polls 1 (cancel_after w)) (signals w) (env w)).
Proof.
  unfold poll_cancelled. destruct w as [[[|k]|] sg o]; simpl; [lia| |done].
  by rewrite Nat.sub_0_r.
Qed.

Lemma uncancelled_for_0 (c : option nat) : uncancelled_for 0 c.
Proof. destruct c; simpl; [lia | done]. Qed.

Lemma uncancelled_for_add n m (c : option nat) :
  uncancelled_for n c -> uncancelled_for m (after_polls n c) ->
  uncancelled_for (n + m) c.
Proof. destruct c; simpl; [lia | done]. Qed.

(** A poll reads the flag set, or uses up one of the polls that read false. *)
Lemma poll_cases w :
  (cancel_after w = Some 0 /\ poll_cancelled w = (Ok true, w)) \/
  (uncancelled_for 1 (cancel_after w) /\
   poll_cancelled w =
     (Ok false, mkWorld (after_polls 1 (cancel_after w)) (signals w) (env w))).
Proof.
  destruct (cancel_after w) as [[|k]|] eqn:Hc.
  - left. split; [done | by apply poll_now].
  - right. split; [simpl; lia|]. rewrite <- Hc. apply poll_uncancelled.
    rewrite Hc. simpl. lia.
  - right. split; [done|]. rewrite <- Hc. apply poll_uncancelled. by rewrite Hc.
Qed.

Lemma bind_Ok {A B} (c : M E X A) (k : A -> M E X B) w a w' :
  c w = (Ok a, w') -> bind c k w = k a w'.
Proof. intros H. unfold bind. by rewrite H. Qed.

Lemma bind_Raise {A B} (c : M E X A) (k : A -> M E X B) w e w' :
  c w = (Raise e, w') -> bind c k w = (Raise e, w').
Proof. intros H. unfold bind. by rewrite H. Qed.

End RunnerFacts.

(** ** The contract on ticks *)

Lemma ticks_S total i k : ticks total i (S k) = (i + 1, total) :: ticks total (S i) k.
Proof. reflexivity. Qed.

Lemma ticks_nondecreasing total i k : nondecreasing (fst <$> ticks total i k).
Proof.
  revert i; induction k as [|k IH]; intros i; [done|].
  rewrite ticks_S. split; [|apply IH].
  destruct k; simpl; lia.
Qed.

Lemma ticks_bounded total i k :
  i + k <= total -> Forall (fun p => fst p <= snd p) (ticks total i k).
Proof.
  revert i; induction k as [|k IH]; intros i Hle; [constructor|].
  rewrite ticks_S. constructor; [simpl; lia | apply IH; lia].
Qed.

Lemma contract_of_ticks `{TaskEvent E} (pe : list E) (t : E) total k :
  progress_of <$> pe = Some <$> ticks total 0 k ->
  k <= total ->
  is_terminal t ->
  task_contract (pe ++ [t]).
Proof.
  intros Hpe Hk Ht. exists (ticks total 0 k), pe, t.
  split_and!; auto using ticks_nondecreasing. by apply ticks_bounded.
Qed.

(** ** [SearchWorker] *)

Section SearchFacts.
Import SearchWorker.
Variable lower : string -> string.
Variable rstrip : string -> string.
Implicit Types w : World event (string -> text_read).
Implicit Types self : SearchWorker.t.

Lemma progress_ticks_of total i k :
  progress_of <$> progress_ticks total i k = Some <$> ticks total i k.
Proof. unfold progress_ticks, ticks. by rewrite <- !list_fmap_compose. Qed.

(** *** Any run: the loops never raise, and emit ticks only *)

Lemma scan_lines_total self num lines eof lm w :
  exists r w', scan_lines lower rstrip self num lines eof lm w = (Ok r, w') /\
    signals w' = signals w /\ env w' = env w.
Proof.
  revert num lm w; induction lines as [|line rest IH]; intros num lm w.
  - simpl. unfold ret. eauto.
  - simpl. unfold bind.
    destruct (poll_total w) as (c & w1 & -> & Hs & He).
    destruct c.
    + unfold ret. eauto.
    + destruct (IH (S num)
        (if PyStr.contains (search_term self) (lower line)
         then lm ++ [(num, rstrip line)] else lm) w1) as (r & w2 & -> & Hs2 & He2).
      exists r, w2. split_and!; congruence.
Qed.

Lemma search_file_total self full_path file_name w :
  exists r w', search_file lower rstrip self full_path file_name w = (Ok r, w') /\
    signals w' = signals w /\ env w' = env w.
Proof.
  unfold search_file, bind, get_env.
  destruct (env w full_path) as [e|lines eof].
  - unfold ret. eauto.
  - destruct (scan_lines_total self 1 lines eof [] w) as (r & w1 & -> & Hs & He).
    destruct (snd r); unfold ret; eauto.
Qed.

Lemma run_loop_total self total i todo results w :
  exists rs k w', run_loop lower rstrip self total i todo results w = (Ok rs, w') /\
    signals w' = signals w ++ progress_ticks total i k /\
    k <= length todo /\ length rs = length results + k /\ env w' = env w.
Proof.
  revert i results w; induction todo as [|[full_path file_name] rest IH];
    intros i results w.
  - exists results, 0, w. simpl. rewrite app_nil_r. split_and!; auto.
  - simpl. unfold bind at 1.
    destruct (poll_total w) as (c & w1 & -> & Hs1 & He1).
    destruct c.
    + exists results, 0, w1. unfold ret, progress_ticks. simpl.
      rewrite app_nil_r. split_and!; auto; lia.
    + unfold bind at 1.
      destruct (search_file_total self full_path file_name w1)
        as (r & w2 & -> & Hs2 & He2).
      unfold bind at 1, emit at 1.
      destruct (IH (S i) (results ++ [r])
        (mkWorld (cancel_after w2) (signals w2 ++ [progress (i + 1) total]) (env w2)))
        as (rs & k & w3 & -> & Hs3 & Hk & Hl & He3).
      exists rs, (S k), w3. simpl in *.
      split_and!; [done| |lia| |congruence].
      * rewrite Hs3, Hs2, Hs1, <- app_assoc. done.
      * rewrite Hl, length_app. simpl. lia.
Qed.

(** Every search run emits ticks and then [finished], whatever the
    cancellation flag and the files do; the results are those of the files
    that got their tick. *)
Lemma search_run_shape self w0 :
  signals w0 = [] ->
  exists rs k w', run lower rstrip self w0 = (Ok tt, w') /\
    signals w' = progress_ticks (length (files self)) 0 k ++ [finished rs] /\
    k <= length (files self) /\ length rs = k.
Proof.
  intros Hnil. unfold run, bind.
  destruct (run_loop_total self (length (files self)) 0 (files self) [] w0)
    as (rs & k & w1 & -> & Hs & Hk & Hl & _).
  exists rs, k. eexists. split; [reflexivity|]. simpl.
  rewrite Hs, Hnil. done.
Qed.

Lemma search_run_contract self w0 :
  signals w0 = [] ->
  task_contract (signals (snd (run lower rstrip self w0))).
Proof.
  intros Hnil.
  destruct (search_run_shape self w0 Hnil) as (rs & k & w' & Hr & Hs & Hk & _).
  rewrite Hr. simpl. rewrite Hs.
  eapply contract_of_ticks; [apply progress_ticks_of|done|done].
Qed.

(** *** Uncancelled runs *)

Lemma scan_lines_never self num lines eof lm w :
  cancel_after w = None ->
  scan_lines lower rstrip self num lines eof lm w =
    (Ok (lm ++ matching_lines lower rstrip self num lines,
         if eof then Exhausted else Raised), w).
Proof.
  intros Hc. revert num lm; induction lines as [|line rest IH]; intros num lm.
  - simpl. by rewrite app_nil_r.
  - simpl. unfold bind. rewrite (poll_never w Hc), IH.
    by destruct (PyStr.contains _ _); rewrite <- ?app_assoc.
Qed.

Lemma search_file_never self f w :
  cancel_after w = None ->
  search_file lower rstrip self (fst f) (snd f) w =
    (Ok (file_result lower rstrip self (env w) f), w).
Proof.
  intros Hc. unfold search_file, file_result, bind, get_env.
  destruct (env w (fst f)) as [e|lines eof]; [done|].
  rewrite scan_lines_never by done. simpl. by destruct eof.
Qed.

Lemma run_loop_never self total i todo results w :
  cancel_after w = None ->
  run_loop lower rstrip self total i todo results w =
    (Ok (results ++ (file_result lower rstrip self (env w) <$> todo)),
     mkWorld None (signals w ++ progress_ticks total i (length todo)) (env w)).
Proof.
  revert i results w; induction todo as [|[full_path file_name] rest IH];
    intros i results w Hc.
  - simpl. rewrite !app_nil_r. unfold ret. destruct w; simpl in *; by subst.
  - simpl. unfold bind at 1. rewrite (poll_never w Hc).
    unfold bind at 1.
    pose proof (search_file_never self (full_path, file_name) w Hc) as Hf.
    simpl in Hf. rewrite Hf.
    unfold bind at 1, emit at 1. rewrite IH by done. simpl.
    by rewrite <- !app_assoc.
Qed.

Lemma search_run_never self fs :
  run lower rstrip self (start None fs) =
    (Ok tt,
     mkWorld None
       (progress_ticks (length (files self)) 0 (length (files self))
        ++ [finished (file_result lower rstrip self fs <$> files self)]) fs).
Proof.
  unfold run, bind. by rewrite run_loop_never.
Qed.

(** *** Runs cancelled between two files *)





Lemma matching_lines_nonempty self num lines :
  PyStr.nonempty (matching_lines lower rstrip self num lines) = true <->
  exists line, line ∈ lines /\ PyStr.contains (search_term self) (lower line) = true.
Proof.
  revert num; induction lines as [|line rest IH]; intros num; simpl.
  - split; [done | intros (l & Hl & _); by apply elem_of_nil in Hl].
  - destruct (PyStr.contains (search_term self) (lower line)) eqn:Hc; simpl.
    + split; [intros _ | done]. exists line. split; [left | done].
    + rewrite IH. split.
      * intros (l & Hl & Hm). exists l. split; [by right | done].
      * intros (l & Hl & Hm). apply elem_of_cons in Hl as [-> | Hl]; [congruence|].
        by exists l.
Qed.

Lemma file_result_complete self fs f lines :
  fs (fst f) = Yields lines true ->
  fst (file_result lower rstrip self fs f) = true <->
  PyStr.contains (search_term self) (lower (snd f)) = true \/
  exists line, line ∈ lines /\ PyStr.contains (search_term self) (lower line) = true.
Proof.
  intros Hfs. unfold file_result. rewrite Hfs. simpl.
  rewrite <- matching_lines_nonempty with (num := 1).
  destruct (PyStr.nonempty _); simpl; intuition congruence.
Qed.

Lemma file_result_failed self fs f :
  read_fails (fs (fst f)) ->
  fst (file_result lower rstrip self fs f) =
    PyStr.contains (search_term self) (lower (snd f)) /\
  (forall e, fs (fst f) = OpenFails e -> snd (file_result lower rstrip self fs f) = []).
Proof.
  unfold file_result, read_fails.
  destruct (fs (fst f)) as [e|lines eof]; [done|].
  intros ->. done.
Qed.

Lemma finished_results_snoc (pe : list event) rs :
  finished_results (pe ++ [finished rs]) = Some rs.
Proof. unfold finished_results. by rewrite last_snoc. Qed.

(** C5, amended.  In a run that is not cancelled, an item whose content is
    read to its end is reported as matched exactly when the term occurs,
    case-insensitively, in the base name of the file (not in the relative
    path that the item displays) or in at least one line of its content. *)
Theorem C5_matched_iff_base_name_or_line
    (file_items : list Enumerator.file_item) (term : string)
    (fs : string -> text_read) (i : nat) (it : Enumerator.file_item)
    (lines : list string) :
  file_items !! i = Some it ->
  fs (Enumerator.full_path it) = Yields lines true ->
  exists rs,
    finished_results
      (trace_of lower rstrip (files_for_search file_items) term None fs) = Some rs /\
    (reported_matched rs i = true <->
     term_in lower term (Enumerator.base_name it) \/
     term_in_lines lower term lines).
Proof.
  intros Hi Hfs. unfold trace_of. rewrite search_run_never. simpl.
  eexists. split; [apply finished_results_snoc|].
  unfold reported_matched, result_at, files_for_search.
  rewrite !list_lookup_fmap, Hi. simpl.
  rewrite (file_result_complete _ _ _ lines) by done. simpl.
  unfold term_in_lines, term_in. rewrite PyStr_contains_spec.
  split; (intros [H | (l & Hl & Hm)]; [by left | right; exists l]);
    (split; [done|]); by apply PyStr_contains_spec.
Qed.

(** C6, amended.  In a run that is not cancelled, a file whose content read
    fails gets a result whose matched flag is the outcome of the name check
    alone; the run does not raise, every file of the input gets its result
    and its tick, and the [finished] signal carries them all.  When the read
    fails on opening the file, its result has no line matches. *)
Theorem C6_read_failure_swallowed
    (files : list (string * string)) (term : string)
    (fs : string -> text_read) (i : nat) (f : string * string) :
  files !! i = Some f ->
  read_fails (fs (fst f)) ->
  exists rs,
    run lower rstrip (init lower files term) (start None fs) =
      (Ok tt,
       mkWorld None
         (progress_ticks (length files) 0 (length files) ++ [finished rs]) fs) /\
    length rs = length files /\
    fst (result_at rs i) = PyStr.contains (lower term) (lower (snd f)) /\
    (forall e, fs (fst f) = OpenFails e -> snd (result_at rs i) = []) /\
    (forall j g, files !! j = Some g ->
       rs !! j = Some (file_result lower rstrip (init lower files term) fs g)).
Proof.
  intros Hi Hfail. eexists. split; [apply search_run_never|]. simpl.
  split; [by rewrite length_fmap|].
  unfold result_at. rewrite list_lookup_fmap, Hi. simpl.
  destruct (file_result_failed (init lower files term) fs f Hfail) as [Hm Hl].
  split_and!; [done|done|].
  intros j g Hj. by rewrite list_lookup_fmap, Hj.
Qed.

End SearchFacts.

(** *** Any run: every result is sound *)

Section SearchSoundness.
Import SearchWorker SearchSpec.
Variable lower : string -> string.
Variable rstrip : string -> string.
Implicit Types w : World event (string -> text_read).
Implicit Types self : SearchWorker.t.

Lemma scan_lines_reports self all pre lines eof num lm w r w' :
  all = pre ++ lines ->
  num = S (length pre) ->
  Forall (reports_line lower rstrip self all) lm ->
  Forall (fun m => fst m < num) lm ->
  StronglySorted lt (fst <$> lm) ->
  scan_lines lower rstrip self num lines eof lm w = (Ok r, w') ->
  Forall (reports_line lower rstrip self all) (fst r) /\
  StronglySorted lt (fst <$> fst r).
Proof.
  revert pre num lm w; induction lines as [|line rest IH];
    intros pre num lm w Hall Hnum Hrep Hlt Hsort Hrun.
  - simpl in Hrun. injection Hrun as <- _. done.
  - cbn [scan_lines] in Hrun.
    destruct (poll_total w) as (c & w1 & Hp & _ & _).
    rewrite (bind_Ok _ _ _ _ _ Hp) in Hrun. destruct c.
    { injection Hrun as <- _. done. }
    eapply (IH (pre ++ [line]) (S num)); [| | | | |exact Hrun].
    + by rewrite <- app_assoc.
    + rewrite length_app. simpl. lia.
    + destruct (PyStr.contains (search_term self) (lower line)) eqn:Hc; [|done].
      apply Forall_app. split; [done|]. constructor; [|constructor].
      exists line. simpl. subst num all. split_and!; [lia| |done|done].
      replace (S (length pre) - 1) with (length pre) by lia.
      by rewrite list_lookup_middle.
    + destruct (PyStr.contains _ _).
      * apply Forall_app. split.
        -- eapply Forall_impl; [exact Hlt|]. simpl. lia.
        -- constructor; [simpl; lia | constructor].
      * eapply Forall_impl; [exact Hlt|]. simpl. lia.
    + destruct (PyStr.contains _ _); [|done].
      rewrite fmap_app. apply StronglySorted_app_2; [|done|].
      * intros x y Hx Hy. apply list_elem_of_singleton in Hy as ->. simpl.
        apply list_elem_of_fmap in Hx as (m & -> & Hm).
        rewrite Forall_forall in Hlt. by apply Hlt.
      * simpl. repeat constructor.
Qed.

Lemma search_file_sound self full_path file_name w r w' :
  search_file lower rstrip self full_path file_name w = (Ok r, w') ->
  sound_result lower rstrip self (env w) (full_path, file_name) r.
Proof.
  unfold search_file, sound_result, file_lines. simpl.
  rewrite (bind_Ok _ _ _ _ _ (eq_refl : get_env w = (Ok (env w), w))).
  destruct (env w full_path) as [e|lines eof].
  - intros [= <- _]. simpl. split_and!; [by left|constructor|constructor].
  - destruct (scan_lines_total lower rstrip self 1 lines eof [] w)
      as (s & w1 & Hs & _ & _).
    rewrite (bind_Ok _ _ _ _ _ Hs).
    assert (Forall (reports_line lower rstrip self lines) (fst s) /\
            StronglySorted lt (fst <$> fst s)) as [Hrep Hsort].
    { apply (scan_lines_reports self lines [] lines eof 1 [] w s w1);
        first [done | constructor]. }
    intros Hr. unfold ret in Hr.
    destruct (snd s); injection Hr as <- _; simpl;
      (split_and!; [|done|done]); intros Hm.
    + destruct (fst s); [by left | by right].
    + destruct (fst s); [by left | by right].
    + by left.
Qed.

Lemma run_loop_sound self total i todo results w rs w' :
  run_loop lower rstrip self total i todo results w = (Ok rs, w') ->
  exists new,
    rs = results ++ new /\
    length new <= length todo /\
    forall j r, new !! j = Some r ->
      exists f, todo !! j = Some f /\ sound_result lower rstrip self (env w) f r.
Proof.
  revert i results w; induction todo as [|[full_path file_name] rest IH];
    intros i results w Hrun.
  - injection Hrun as <- _. exists []. rewrite app_nil_r.
    split_and!; [done|done|]. intros j r Hj. by rewrite lookup_nil in Hj.
  - cbn [run_loop] in Hrun.
    destruct (poll_total w) as (c & w1 & Hp & _ & He1).
    rewrite (bind_Ok _ _ _ _ _ Hp) in Hrun. destruct c.
    { injection Hrun as <- _. exists []. rewrite app_nil_r.
      split_and!; [done|simpl; lia|]. intros j r Hj. by rewrite lookup_nil in Hj. }
    destruct (search_file_total lower rstrip self full_path file_name w1)
      as (r0 & w2 & Hf & _ & He2).
    rewrite (bind_Ok _ _ _ _ _ Hf) in Hrun.
    erewrite bind_Ok in Hrun; [|reflexivity].
    apply IH in Hrun as (new & -> & Hlen & Hnew).
    exists (r0 :: new). rewrite <- app_assoc. split_and!; [done|simpl; lia|].
    intros [|j] r Hj; simpl in Hj.
    + injection Hj as <-. exists (full_path, file_name). split; [done|].
      rewrite <- He1. by eapply search_file_sound.
    + destruct (Hnew j r Hj) as (f & Hf' & Hs). exists f. split; [done|].
      simpl in Hs. by rewrite He2, He1 in Hs.
Qed.

(** The results of any run: one sound result for each file of a prefix of
    the input. *)
Lemma search_results_sound files term cancel fs :
  exists rs,
    finished_results (trace_of lower rstrip files term cancel fs) = Some rs /\
    length rs <= length files /\
    forall i r, rs !! i = Some r ->
      exists f, files !! i = Some f /\
        sound_result lower rstrip (init lower files term) fs f r.
Proof.
  unfold trace_of, run.
  destruct (run_loop_total lower rstrip (init lower files term) (length files) 0
              files [] (start cancel fs)) as (rs & k & w1 & Hr & _).
  change (SearchWorker.files (init lower files term)) with files.
  rewrite (bind_Ok _ _ _ _ _ Hr). unfold emit. simpl.
  exists rs. split; [apply finished_results_snoc|].
  apply run_loop_sound in Hr as (new & -> & Hlen & Hnew). simpl in *.
  split; [done | exact Hnew].
Qed.

End SearchSoundness.

(** ** [DeletionWorker] *)

Section DeletionFacts.
Import DeletionWorker.
Implicit Types w : World event os.

Lemma progress_run_S total st clk tc i n :
  progress_run total st clk tc i (S n) =
    progress_at total st (clk tc) i :: progress_run total st clk (S tc) (S i) n.
Proof.
  unfold progress_run. simpl. rewrite !Nat.add_0_r. f_equal.
  rewrite <- seq_shift, <- list_fmap_compose.
  apply list_fmap_ext. intros _ j _. simpl.
  by rewrite !Nat.add_succ_r.
Qed.

Lemma progress_run_ticks total st clk tc i n :
  progress_of <$> progress_run total st clk tc i n = Some <$> ticks total i n.
Proof.
  revert tc i; induction n as [|n IH]; intros tc i; [done|].
  rewrite progress_run_S, ticks_S. simpl. by rewrite IH.
Qed.

Lemma truediv_nonzero (x : Q) (d : Z) w :
  d <> 0%Z -> truediv x d w = (Ok (x / inject_Z d)%Q, w).
Proof.
  intros Hd. unfold truediv. by destruct (Z.eqb_spec d 0).
Qed.

(** One iteration whose removal succeeds. *)
Lemma run_loop_step total st i file_path rest w d' :
  total <> 0 ->
  unlink (deny_remove (env w)) (disk (env w)) file_path = inr d' ->
  uncancelled_for 1 (cancel_after w) ->
  run_loop total st i (file_path :: rest) w =
    run_loop total st (S i) rest
      (mkWorld (after_polls 1 (cancel_after w))
         (signals w ++
          [progress_at total st (clock (env w) (time_calls (env w))) i])
         (mkOs d' (deny_remove (env w)) (clock (env w))
            (S (time_calls (env w))) (removals (env w) ++ [file_path]))).
Proof.
  intros Htot Hrm Hc. destruct w as [c sg [d dn clk tc log]]. simpl in *.
  assert (Hpoll : exists c',
    poll_cancelled (mkWorld c sg (mkOs d dn clk tc log)) =
      (Ok false, mkWorld c' sg (mkOs d dn clk tc log)) /\
    after_polls 1 c = c').
  { destruct c as [[|k]|]; simpl in Hc; [lia| |].
    - eexists; split; [reflexivity|]. simpl. by rewrite Nat.sub_0_r.
    - eexists; split; reflexivity. }
  destruct Hpoll as (c' & Hpoll & ->).
  cbn [run_loop]. rewrite (bind_Ok _ _ _ _ _ Hpoll). cbn iota.
  erewrite bind_Ok.
  2:{ unfold try_except. erewrite bind_Ok; [reflexivity|].
      unfold os_remove. simpl. by rewrite Hrm. }
  cbn iota. erewrite bind_Ok; [|reflexivity].
  erewrite bind_Ok; [|by apply truediv_nonzero; lia].
  destruct (Z.eqb_spec (Z.of_nat (i + 1)) 0) as [Hz|_]; [lia|].
  erewrite bind_Ok; [|by apply truediv_nonzero; lia].
  erewrite bind_Ok; [|reflexivity].
  reflexivity.
Qed.

(** The iterations over a prefix [pre] whose removals all succeed. *)
Lemma run_loop_prefix pre rest total st i w d' :
  total <> 0 ->
  remove_all (deny_remove (env w)) (disk (env w)) pre = Some d' ->
  uncancelled_for (length pre) (cancel_after w) ->
  run_loop total st i (pre ++ rest) w =
    run_loop total st (i + length pre) rest
      (mkWorld (after_polls (length pre) (cancel_after w))
         (signals w ++
          progress_run total st (clock (env w)) (time_calls (env w)) i (length pre))
         (mkOs d' (deny_remove (env w)) (clock (env w))
            (time_calls (env w) + length pre) (removals (env w) ++ pre))).
Proof.
  intros Htot. revert i w; induction pre as [|p pre IH]; intros i w Hrm Hc.
  - simpl in *. injection Hrm as <-. rewrite !Nat.add_0_r, !app_nil_r.
    destruct w as [c sg [d dn clk tc log]]. simpl.
    replace (after_polls 0 c) with c; [done|].
    destruct c; simpl; [by rewrite Nat.sub_0_r | done].
  - simpl in Hrm.
    destruct (unlink (deny_remove (env w)) (disk (env w)) p) as [e|d1] eqn:Hu;
      [done|].
    simpl app. rewrite (run_loop_step total st i p (pre ++ rest) w d1); auto.
    2:{ destruct (cancel_after w); simpl in *; lia. }
    rewrite IH; simpl; auto.
    2:{ destruct (cancel_after w); simpl in *; lia. }
    rewrite progress_run_S. f_equal; [lia|]. f_equal.
    + destruct (cancel_after w); simpl; [f_equal; lia | done].
    + by rewrite <- app_assoc.
    + f_equal; [lia | by rewrite <- app_assoc].
Qed.

(** Any loop: it never raises, emits ticks, and an error signal exactly
    when it answers [true]. *)
Lemma delete_loop_total total st i todo w :
  total = i + length todo ->
  exists returned w' pe tl k,
    run_loop total st i todo w = (Ok returned, w') /\
    signals w' = signals w ++ pe ++ tl /\
    progress_of <$> pe = Some <$> ticks total i k /\
    k <= length todo /\
    (if returned then exists msg, tl = [error msg] else tl = []).
Proof.
  revert i w; induction todo as [|p rest IH]; intros i w Htot.
  - exists false, w, [], [], 0. simpl. by rewrite app_nil_r.
  - cbn [run_loop].
    destruct (poll_total w) as (c & w1 & Hpoll & Hs1 & He1).
    rewrite (bind_Ok _ _ _ _ _ Hpoll). destruct c.
    { exists false, w1, [], [], 0. simpl. rewrite app_nil_r.
      split_and!; auto; lia. }
    destruct (unlink (deny_remove (env w1)) (disk (env w1)) p) as [e|d1] eqn:Hu.
    + erewrite bind_Ok.
      2:{ unfold try_except. erewrite bind_Raise.
          2:{ unfold os_remove. by rewrite Hu. }
          erewrite bind_Ok; reflexivity. }
      cbn iota. eexists true, _, [], [_], 0. simpl.
      split_and!; [reflexivity|by rewrite Hs1|done|lia|eauto].
    + assert (Hc : uncancelled_for 1 (cancel_after w1) \/ True) by auto.
      erewrite bind_Ok.
      2:{ unfold try_except. erewrite bind_Ok; [reflexivity|].
          unfold os_remove. by rewrite Hu. }
      cbn iota. erewrite bind_Ok; [|reflexivity].
      simpl in Htot.
      erewrite bind_Ok; [|by apply truediv_nonzero; lia].
      destruct (Z.eqb_spec (Z.of_nat (i + 1)) 0) as [Hz|_]; [lia|].
      erewrite bind_Ok; [|by apply truediv_nonzero; lia].
      erewrite bind_Ok; [|reflexivity].
      match goal with |- context [run_loop _ _ _ _ ?w2] =>
        destruct (IH (S i) w2) as (r & w3 & pe & tl & k & Hr & Hs & Hpe & Hk & Htl);
          [lia|]
      end.
      rewrite Hr. simpl in Hs.
      exists r, w3,
        (progress_at total st (clock (env w1) (time_calls (env w1))) i :: pe),
        tl, (S k).
      split_and!; [reflexivity| | |simpl; lia|done].
      * rewrite Hs, Hs1, <- !app_assoc. reflexivity.
      * rewrite ticks_S, !fmap_cons, Hpe. reflexivity.
Qed.

(** Every delete run returns normally, having emitted ticks and then
    exactly one of [finished] and [error]. *)
Lemma delete_run_shape self w0 :
  signals w0 = [] ->
  exists w' pe t k,
    run self w0 = (Ok tt, w') /\
    signals w' = pe ++ [t] /\
    progress_of <$> pe = Some <$> ticks (length (files_to_delete self)) 0 k /\
    k <= length (files_to_delete self) /\
    (t = finished \/ exists msg, t = error msg).
Proof.
  intros Hnil. unfold run.
  erewrite bind_Ok; [|reflexivity].
  destruct (delete_loop_total (length (files_to_delete self))
              (clock (env w0) (time_calls (env w0))) 0 (files_to_delete self)
              (mkWorld (cancel_after w0) (signals w0)
                 (mkOs (disk (env w0)) (deny_remove (env w0)) (clock (env w0))
                    (S (time_calls (env w0))) (removals (env w0)))))
    as (r & w2 & pe & tl & k & Hr & Hs & Hpe & Hk & Htl); [reflexivity|].
  erewrite bind_Ok; [|exact Hr]. simpl in Hs. rewrite Hnil in Hs. simpl in Hs.
  destruct r.
  - destruct Htl as [msg ->]. exists w2, pe, (error msg), k.
    split_and!; eauto.
  - subst tl. rewrite app_nil_r in Hs.
    eexists _, pe, finished, k. unfold emit. simpl.
    split_and!; [reflexivity|by rewrite Hs|done|done|by left].
Qed.

Lemma delete_run_contract self w0 :
  signals w0 = [] ->
  task_contract (signals (snd (run self w0))).
Proof.
  intros Hnil.
  destruct (delete_run_shape self w0 Hnil) as (w' & pe & t & k & Hr & Hs & Hpe & Hk & Ht).
  rewrite Hr. simpl. rewrite Hs.
  eapply contract_of_ticks; [exact Hpe|exact Hk|].
  by destruct Ht as [-> | [msg ->]].
Qed.


(** A run whose removals succeed on [pre] and fail on [p]. *)
Lemma delete_run_failure pre p post cancel d deny clk d' e :
  remove_all deny d pre = Some d' ->
  unlink deny d' p = inl e ->
  uncancelled_for (S (length pre)) cancel ->
  run (mk (pre ++ p :: post)) (start cancel d deny clk) =
    (Ok tt,
     mkWorld (after_polls (S (length pre)) cancel)
       (progress_run (length (pre ++ p :: post)) (clk 0) clk 1 0 (length pre)
        ++ [error (error_message p e)])
       (mkOs d' deny clk (S (length pre)) (pre ++ [p]))).
Proof.
  intros Hrm Hu Hc. unfold run, start. cbn [files_to_delete].
  erewrite bind_Ok; [|reflexivity]. simpl env. simpl signals. simpl cancel_after.
  erewrite bind_Ok.
  2:{ rewrite (run_loop_prefix _ _ _ _ _ _ d'); simpl.
      2:{ rewrite length_app. simpl. lia. }
      2:{ done. }
      2:{ destruct cancel; simpl in *; lia. }
      cbn [run_loop]. erewrite bind_Ok.
      2:{ apply poll_uncancelled. simpl. apply uncancelled_for_after.
          by rewrite Nat.add_1_r. }
      cbn iota. erewrite bind_Ok.
      2:{ unfold try_except. erewrite bind_Raise.
          2:{ unfold os_remove. simpl. by rewrite Hu. }
          erewrite bind_Ok; reflexivity. }
      reflexivity. }
  cbn iota. unfold ret. simpl. rewrite after_polls_add, Nat.add_1_r.
  reflexivity.
Qed.

Lemma remove_all_lookup deny d pre d' :
  remove_all deny d pre = Some d' ->
  (forall q, q ∈ pre -> d' !! q = None) /\
  (forall q, q ∉ pre -> d' !! q = d !! q).
Proof.
  revert d; induction pre as [|p pre IH]; intros d Hrm; simpl in Hrm.
  - injection Hrm as <-. split; [intros q Hq; by apply elem_of_nil in Hq | done].
  - unfold unlink in Hrm.
    destruct (d !! p) eqn:Hp; [|done].
    destruct (deny p); [done|].
    destruct (IH _ Hrm) as [Hin Hout]. split.
    + intros q Hq. destruct (decide (q ∈ pre)) as [Hpre|Hpre]; [by apply Hin|].
      apply elem_of_cons in Hq as [-> | Hq]; [|done].
      rewrite Hout by done. apply lookup_delete_eq.
    + intros q Hq. apply not_elem_of_cons in Hq as [Hne Hq].
      rewrite Hout by done. by apply lookup_delete_ne.
Qed.

End DeletionFacts.

(** ** [CompressionWorker] *)

Section CompressionFacts.
Import CompressionWorker.
Variable zip_bytes : list entry -> list Byte.byte.
Implicit Types w : World event os.
Implicit Types self : CompressionWorker.t.

Lemma compress_ticks_of total i k :
  progress_of <$> progress_ticks total i k = Some <$> ticks total i k.
Proof. unfold progress_ticks, ticks. by rewrite <- !list_fmap_compose. Qed.

(** *** Completion order *)

Lemma complete_Permutation {A} n choice (pending : list A) :
  n = length pending -> complete n choice pending ≡ₚ pending.
Proof.
  revert choice pending; induction n as [|n IH]; intros choice pending Hn.
  - destruct pending; [done | discriminate].
  - simpl.
    assert (Hlt : hd 0 choice mod length pending < length pending)
      by (apply Nat.mod_upper_bound; lia).
    destruct (lookup_lt_is_Some_2 _ _ Hlt) as [x Hx]. rewrite Hx.
    rewrite IH.
    + symmetry. by apply delete_Permutation.
    + rewrite length_delete by eauto. lia.
Qed.

Lemma as_completed_Permutation {A} choice (pending : list A) :
  as_completed choice pending ≡ₚ pending.
Proof. by apply complete_Permutation. Qed.

(** *** The futures *)

Lemma futures_lookup self o i f :
  files_to_compress self !! i = Some f ->
  futures zip_bytes self o !! i = Some (read_file zip_bytes o i (fst f) (snd f)).
Proof. intros H. unfold futures. by rewrite list_lookup_imap, H. Qed.

(** A future that raises was cancelled or names the file it could not read. *)
Lemma futures_raise self o e :
  Raise e ∈ futures zip_bytes self o ->
  e = Exception cancel_message \/
  exists f e', f ∈ files_to_compress self /\ open_rb zip_bytes o (fst f) = inl e' /\
    e = Exception (read_error_message (fst f) e').
Proof.
  unfold futures. intros (i & f & Hr & Hf)%elem_of_lookup_imap.
  unfold read_file in Hr.
  destruct (read_cancelled o i); [injection Hr as ->; by left|].
  destruct (open_rb zip_bytes o (fst f)) as [e'|data] eqn:Ho; [|done].
  injection Hr as ->. right. exists f, e'.
  split; [by eapply list_elem_of_lookup_2 | done].
Qed.

Lemma open_rb_inr o full_path data :
  open_rb zip_bytes o full_path = inr data ->
  exists fd, disk o !! full_path = Some fd /\ data = bytes_of zip_bytes fd.
Proof.
  unfold open_rb. destruct (disk o !! full_path) as [fd|]; [|done].
  destruct (deny_read o full_path); [done|].
  intros [= <-]. by exists fd.
Qed.

(** When every future holds a value, the values are stored as the entries
    that the input asks for, in input order. *)
Lemma futures_values self o :
  Forall has_value (futures zip_bytes self o) ->
  Forall2 (entry_of zip_bytes (disk o)) (files_to_compress self)
    (stored <$> values (futures zip_bytes self o)).
Proof.
  unfold futures. generalize (files_to_compress self) as l.
  assert (Hgen : forall (l : list (string * string)) (g : nat -> nat),
    Forall has_value
      (imap (fun i f => read_file zip_bytes o (g i) (fst f) (snd f)) l) ->
    Forall2 (entry_of zip_bytes (disk o)) l
      (stored <$>
         values (imap (fun i f => read_file zip_bytes o (g i) (fst f) (snd f)) l))).
  { induction l as [|f l IH]; intros g Hall; [constructor|].
    rewrite imap_cons in *. apply Forall_cons in Hall as [[a Ha] Hall].
    unfold values. simpl. rewrite Ha. simpl. constructor.
    - unfold read_file in Ha. destruct (read_cancelled o (g 0)); [done|].
      destruct (open_rb zip_bytes o (fst f)) as [e|data] eqn:Ho; [done|].
      injection Ha as <-. split; [done|]. simpl.
      by apply open_rb_inr.
    - apply (IH (g ∘ S)), Hall. }
  intros l. apply (Hgen l id).
Qed.

Lemma values_of_all (l : list (result entry)) :
  Forall has_value l -> Ok <$> values l = l.
Proof.
  induction 1 as [|f l [a ->] _ IH]; [done|].
  unfold values in *. cbn. f_equal. exact IH.
Qed.

Lemma read_fails_no_value self o f :
  f ∈ files_to_compress self ->
  read_fails zip_bytes o f ->
  ~ Forall has_value (futures zip_bytes self o).
Proof.
  intros (i & Hi)%list_elem_of_lookup [e He] Hall.
  rewrite Forall_lookup in Hall.
  destruct (Hall i _ (futures_lookup self o i f Hi)) as [a Ha].
  unfold read_file in Ha. rewrite He in Ha. by destruct (read_cancelled o i).
Qed.

Lemma read_cancelled_no_value self o i :
  i < length (files_to_compress self) ->
  read_cancelled o i = true ->
  ~ Forall has_value (futures zip_bytes self o).
Proof.
  intros [f Hi]%lookup_lt_is_Some_2 Hc Hall.
  rewrite Forall_lookup in Hall.
  destruct (Hall i _ (futures_lookup self o i f Hi)) as [a Ha].
  unfold read_file in Ha. by rewrite Hc in Ha.
Qed.

(** *** The loop over the completed reads *)

Lemma collect_outcome total count completed results w :
  exists r w' k,
    collect total count completed results w = (r, w') /\
    signals w' = signals w ++ progress_ticks total count k /\
    env w' = env w /\ k <= length completed /\
    ((r = Ok (results ++ values completed) /\ k = length completed /\
      Forall has_value completed /\
      uncancelled_for (length completed) (cancel_after w) /\
      cancel_after w' = after_polls (length completed) (cancel_after w)) \/
     (exists e, r = Raise e /\
        ((e = Exception cancel_message /\
          exists j, j < length completed /\ cancel_after w = Some j) \/
         Raise e ∈ completed))).
Proof.
  revert count results w; induction completed as [|f rest IH];
    intros count results w.
  - exists (Ok results), w, 0. simpl. rewrite !app_nil_r.
    split_and!; auto. left.
    split_and!; auto using uncancelled_for_0, after_polls_0.
  - cbn [collect].
    destruct (poll_cases w) as [[Hc Hp]|[Hc Hp]];
      rewrite (bind_Ok _ _ _ _ _ Hp); cbn iota.
    { exists (Raise (Exception cancel_message)), w, 0. simpl.
      rewrite app_nil_r. split_and!; auto; [lia|]. right.
      eexists. split; [done|]. left. split; [done|]. exists 0. split; [lia|done]. }
    destruct f as [a|e].
    + erewrite bind_Ok; [|reflexivity]. erewrite bind_Ok; [|reflexivity].
      match goal with |- context [collect _ _ _ _ ?w2] =>
        destruct (IH (S count) (results ++ [a]) w2)
          as (r & w3 & k & Hr & Hs & He & Hk & Hcase)
      end.
      exists r, w3, (S k). simpl in *.
      split_and!; [done| |done|lia|].
      { rewrite Hs, <- app_assoc. reflexivity. }
      destruct Hcase as [(-> & -> & Hall & Hu & Hc')|(e & -> & He')].
      * left. split_and!; auto.
        -- by rewrite <- app_assoc.
        -- constructor; [by exists a | done].
        -- by apply (uncancelled_for_add 1).
        -- by rewrite Hc', after_polls_add.
      * right. exists e. split; [done|].
        destruct He' as [(-> & j & Hj & Hcj)|Hin]; [left | right; by right].
        split; [done|]. exists (S j). split; [lia|].
        destruct (cancel_after w) as [c|]; simpl in *; [|done].
        injection Hcj as Hcj. f_equal. lia.
    + erewrite bind_Raise; [|reflexivity].
      eexists (Raise e), _, 0. simpl. rewrite app_nil_r.
      split_and!; [reflexivity|done|done|lia|].
      right. exists e. split; [done|]. right. by left.
Qed.

(** *** The loop that writes the entries *)

Lemma with_disk_id (o : os) : with_disk o (disk o) = o.
Proof. by destruct o. Qed.

(** The loop writes [j] entries and then ends (1) by exhaustion, (2) by
    the cancellation that the check before entry [j] finds, or (3) by the
    error that the write of entry [j] raises. *)
Lemma write_entries_outcome zip results w es0 :
  disk (env w) !! zip = Some (Archive es0) ->
  let o := env w in
  let flt := zip_faults o in
  exists r w' j,
    write_entries zip results w = (r, w') /\
    signals w' = signals w /\
    j <= length results /\
    (forall i, i < j -> write_fault flt (length es0 + i) = None) /\
    ((r = Ok tt /\ j = length results /\
      uncancelled_for (length results) (cancel_after w) /\
      env w' =
        with_disk o (<[zip := Archive (es0 ++ (stored <$> results))]> (disk o))) \/
     (r = Raise (Exception cancel_message) /\ j < length results /\
      cancel_after w = Some j /\
      env w' =
        with_disk o
          (<[zip := Archive (es0 ++ (stored <$> take j results))]> (disk o))) \/
     (exists msg, r = Raise (OSError msg) /\ j < length results /\
        uncancelled_for (S j) (cancel_after w) /\
        write_fault flt (length es0 + j) = Some msg /\
        env w' = with_disk o (<[zip := left_after_fault flt]> (disk o)))).
Proof.
  revert w es0; induction results as [|[arcname data] rest IH];
    intros w es0 Hz o flt; subst o flt.
  - exists (Ok tt), w, 0. simpl.
    split; [done|]. split; [done|]. split; [lia|]. split; [intros i Hi; lia|].
    left. rewrite app_nil_r, insert_id, with_disk_id by done.
    split_and!; auto using uncancelled_for_0.
  - cbn [write_entries].
    destruct (poll_cases w) as [[Hc Hp]|[Hc Hp]];
      rewrite (bind_Ok _ _ _ _ _ Hp); cbn iota.
    { exists (Raise (Exception cancel_message)), w, 0. simpl.
      split; [done|]. split; [done|]. split; [lia|]. split; [intros i Hi; lia|].
      right. left. rewrite app_nil_r, insert_id, with_disk_id by done.
      split_and!; auto; lia. }
    destruct (write_fault (zip_faults (env w)) (length es0)) as [msg|] eqn:Hf.
    { erewrite bind_Raise.
      2:{ unfold zip_writestr. simpl. rewrite Hz, Hf. reflexivity. }
      eexists _, _, 0. split; [reflexivity|]. simpl.
      split; [done|]. split; [lia|]. split; [intros i Hi; lia|].
      right. right. exists msg. rewrite Nat.add_0_r.
      split; [done|]. split; [lia|]. split; [exact Hc|]. by split. }
    erewrite bind_Ok.
    2:{ unfold zip_writestr. simpl. rewrite Hz, Hf. reflexivity. }
    match goal with |- context [write_entries _ _ ?w2] =>
      destruct (IH w2 (es0 ++ [(zip_name arcname, data)]))
        as (r & w3 & j & Hr & Hs & Hj & Hnf & Hcase)
    end.
    { simpl. apply lookup_insert_eq. }
    simpl in Hnf, Hcase, Hs.
    rewrite length_app in Hnf, Hcase. simpl in Hnf, Hcase.
    rewrite !insert_insert_eq in Hcase.
    exists r, w3, (S j). simpl.
    split_and!; [done|done|lia| |].
    { intros i Hi. destruct i as [|i]; [by rewrite Nat.add_0_r|].
      replace (length es0 + S i) with (length es0 + 1 + i) by lia.
      apply Hnf. lia. }
    unfold with_disk in *. simpl in *.
    destruct Hcase as [(-> & -> & Hu & He)|[(-> & Hlt & Hc' & He)|
      (msg & -> & Hlt & Hu & Hf' & He)]].
    + left. split_and!; auto.
      * by apply (uncancelled_for_add 1).
      * rewrite He, <- app_assoc. reflexivity.
    + right. left. split_and!; auto; [lia| |].
      * destruct (cancel_after w) as [k|]; simpl in *; [|done].
        injection Hc' as Hc'. f_equal. lia.
      * rewrite He, <- app_assoc. reflexivity.
    + right. right. exists msg. split_and!; auto; [lia| |].
      * by apply (uncancelled_for_add 1).
      * by replace (length es0 + S j) with (length es0 + 1 + j) by lia.
Qed.

(** *** The ways in which a run ends *)

Lemma length_as_completed_futures self o :
  length (as_completed (picks o) (futures zip_bytes self o)) =
    length (files_to_compress self).
Proof.
  rewrite (Permutation_length (as_completed_Permutation _ _)).
  unfold futures. apply length_imap.
Qed.

Lemma length_values (l : list (result entry)) :
  Forall has_value l -> length (values l) = length l.
Proof.
  intros H. rewrite <- (values_of_all l H) at 2. by rewrite length_fmap.
Qed.

(** A run ends in one of three ways.  (1) It is aborted before the archive
    is opened, by a cancellation or by a read that raised.  (2) The system
    refuses to create the archive.  (3) The archive is opened; the loop
    writes [j] entries and is left by exhaustion, by a cancellation or by
    an error of [writestr]; then the archive is closed, and an error of
    [close] replaces what left the loop. *)
Lemma compress_run_cases self w0 :
  signals w0 = [] ->
  let o := env w0 in
  let n := length (files_to_compress self) in
  let fs := futures zip_bytes self o in
  let flt := zip_faults o in
  let results := values (as_completed (picks o) fs) in
  let written fd :=
    mkOs (<[zip_path self := fd]> (disk o)) (deny_read o) (deny_write o) flt
      (read_cancelled o) (picks o) (opened_for_writing o ++ [zip_path self]) in
  exists w' k t,
    run zip_bytes self w0 = (Ok tt, w') /\
    signals w' = progress_ticks n 0 k ++ [t] /\
    k <= n /\
    ((env w' = o /\
      exists e, t = error (str_exn e) /\
        ((e = Exception cancel_message /\
          exists j, j <= n /\ cancel_after w0 = Some j) \/
         Raise e ∈ fs)) \/
     (Forall has_value fs /\ uncancelled_for (n + 1) (cancel_after w0) /\
      k = n /\ env w' = o /\
      exists msg, deny_write o (zip_path self) = Some msg /\ t = error msg) \/
     (Forall has_value fs /\ uncancelled_for (n + 1) (cancel_after w0) /\
      k = n /\ deny_write o (zip_path self) = None /\
      exists j body_t body_fd fd,
        env w' = written fd /\
        writes_go_through flt j /\
        ((j = n /\ uncancelled_for (n + 1 + n) (cancel_after w0) /\
          body_t = finished (zip_path self) /\
          body_fd = Archive (stored <$> results)) \/
         (j < n /\ cancel_after w0 = Some (n + 1 + j) /\
          body_t = error cancel_message /\
          body_fd = Archive (stored <$> take j results)) \/
         (exists msg, j < n /\
            uncancelled_for (n + 1 + S j) (cancel_after w0) /\
            write_fault flt j = Some msg /\
            body_t = error msg /\ body_fd = left_after_fault flt)) /\
        match close_fault flt with
        | None => t = body_t /\ fd = body_fd
        | Some msg => t = error msg /\ fd = left_after_fault flt
        end)).
Proof.
  intros Hnil o n fs flt results written.
  pose proof (length_as_completed_futures self o) as Hlen.
  fold fs n in Hlen.
  assert (Hperm : as_completed (picks o) fs ≡ₚ fs)
    by apply as_completed_Permutation.
  destruct (collect_outcome n 0 (as_completed (picks o) fs) [] w0)
    as (r & w1 & k & Hr & Hs1 & He1 & Hk & Hcase).
  rewrite Hnil in Hs1. simpl in Hs1. rewrite Hlen in Hk.
  unfold run, try_except.
  destruct Hcase as [(-> & -> & Hall & Hu & Hc1)|(e & -> & He)].
  2:{ (* a poll or a future raised *)
      erewrite bind_Ok; [|reflexivity].
      erewrite bind_Raise; [|exact Hr].
      eexists _, k, (error (str_exn e)). unfold emit. simpl.
      split; [reflexivity|]. simpl. split; [by rewrite Hs1|]. split; [done|].
      left. split; [done|]. exists e. split; [done|].
      destruct He as [(-> & j & Hj & Hcj)|Hin]; [left | right; by rewrite <- Hperm].
      split; [done|]. exists j. rewrite Hlen in Hj. split; [lia|done]. }
  rewrite Hlen in *. rewrite Hperm in Hall.
  assert (Hlr : length results = n).
  { unfold results. rewrite length_values by (by rewrite Hperm). done. }
  destruct (poll_cases w1) as [[Hc Hp]|[Hc Hp]].
  { (* cancelled at the check that follows the reads *)
    erewrite bind_Ok; [|reflexivity].
    erewrite bind_Ok; [|exact Hr].
    erewrite bind_Ok; [|exact Hp]. cbn iota.
    eexists _, n, (error cancel_message). unfold raise, emit. simpl.
    split; [reflexivity|]. simpl. split; [by rewrite Hs1|]. split; [done|].
    left. split; [done|]. exists (Exception cancel_message).
    split; [done|]. left. split; [done|]. exists n. split; [done|].
    rewrite Hc1 in Hc.
    destruct (cancel_after w0) as [c|]; simpl in *; [|done].
    injection Hc as Hc. f_equal. lia. }
  rewrite Hc1 in Hc.
  assert (Hu1 : uncancelled_for (n + 1) (cancel_after w0))
    by (by apply uncancelled_for_add).
  destruct (deny_write o (zip_path self)) as [msg|] eqn:Hdeny.
  { (* the archive cannot be created *)
    erewrite bind_Ok; [|reflexivity].
    erewrite bind_Ok; [|exact Hr].
    erewrite bind_Ok; [|exact Hp]. cbn iota.
    erewrite bind_Raise.
    2:{ unfold with_zipfile. erewrite bind_Raise; [reflexivity|].
        unfold zip_open. simpl. rewrite He1. fold o. by rewrite Hdeny. }
    eexists _, n, (error msg). unfold emit. simpl.
    split; [reflexivity|]. simpl. split; [by rewrite Hs1|]. split; [done|].
    right. left. split_and!; eauto. }
  set (w2 := mkWorld (after_polls 1 (cancel_after w1)) (signals w1)
               (written (Archive []))).
  assert (Hopen : zip_open (zip_path self)
            (mkWorld (after_polls 1 (cancel_after w1)) (signals w1) (env w1)) =
          (Ok tt, w2)).
  { unfold zip_open. simpl. rewrite He1. fold o. by rewrite Hdeny. }
  destruct (write_entries_outcome (zip_path self) results w2 [])
    as (r & w3 & j & Hw & Hs3 & Hj & Hnf & Hcase).
  { simpl. apply lookup_insert_eq. }
  simpl in Hs3, Hnf, Hcase. rewrite !insert_insert_eq in Hcase.
  unfold with_disk in Hcase. simpl in Hcase. fold (written) in Hcase.
  (* what the loop leaves, then the close *)
  assert (Hbody : exists body_t body_fd,
    env w3 = written body_fd /\
    (r = Ok tt -> body_t = finished (zip_path self)) /\
    (forall e, r = Raise e -> body_t = error (str_exn e)) /\
    ((j = n /\ uncancelled_for (n + 1 + n) (cancel_after w0) /\
      body_t = finished (zip_path self) /\
      body_fd = Archive (stored <$> results)) \/
     (j < n /\ cancel_after w0 = Some (n + 1 + j) /\
      body_t = error cancel_message /\
      body_fd = Archive (stored <$> take j results)) \/
     (exists msg, j < n /\
        uncancelled_for (n + 1 + S j) (cancel_after w0) /\
        write_fault flt j = Some msg /\
        body_t = error msg /\ body_fd = left_after_fault flt))).
  { destruct Hcase as [(-> & -> & Hu3 & He3)|[(-> & Hlt & Hc3 & He3)|
      (msg & -> & Hlt & Hu3 & Hf & He3)]].
    - exists (finished (zip_path self)), (Archive (stored <$> results)).
      split; [exact He3|]. split; [done|]. split; [done|].
      left. split_and!; auto.
      rewrite Hc1, Hlr, after_polls_add in Hu3. by apply uncancelled_for_add.
    - exists (error cancel_message), (Archive (stored <$> take j results)).
      split; [exact He3|]. split; [done|].
      split; [by intros e [= <-]|].
      right. left. rewrite Hlr in Hlt. split_and!; auto.
      rewrite Hc1 in Hc3.
      destruct (cancel_after w0) as [k0|]; simpl in *; [|done].
      injection Hc3 as Hc3. f_equal. lia.
    - exists (error msg), (left_after_fault flt).
      split; [exact He3|]. split; [done|].
      split; [by intros e [= <-]|].
      right. right. exists msg. rewrite Hlr in Hlt. split_and!; auto.
      rewrite Hc1, after_polls_add in Hu3. by apply uncancelled_for_add. }
  destruct Hbody as (body_t & body_fd & He3 & Hok & Hraise & Hdesc).
  assert (Hwgt : writes_go_through flt j) by (intros i Hi; by apply Hnf).
  erewrite bind_Ok; [|reflexivity].
  erewrite bind_Ok; [|exact Hr].
  erewrite bind_Ok; [|exact Hp]. cbn iota.
  unfold with_zipfile.
  destruct (close_fault flt) as [cmsg|] eqn:Hclose.
  - (* close raises *)
    erewrite bind_Raise.
    2:{ erewrite bind_Ok; [|exact Hopen]. cbn beta. cbn [app].
        fold results. rewrite Hw. unfold zip_close. rewrite He3. simpl.
        fold flt. rewrite Hclose. reflexivity. }
    eexists _, n, (error cmsg). unfold emit. simpl.
    split; [reflexivity|]. simpl. split; [by rewrite Hs3, Hs1|]. split; [done|].
    right. right. split_and!; auto.
    exists j, body_t, body_fd, (left_after_fault flt).
    unfold with_disk, written. simpl. rewrite insert_insert_eq.
    split_and!; auto.
  - destruct r as [[]|e].
    + erewrite bind_Ok.
      2:{ erewrite bind_Ok; [|exact Hopen]. cbn beta. cbn [app].
          fold results. rewrite Hw. unfold zip_close. rewrite He3. simpl.
          fold flt. rewrite Hclose. reflexivity. }
      eexists _, n, (finished (zip_path self)). unfold emit. simpl.
      split; [reflexivity|]. simpl. split; [by rewrite Hs3, Hs1|]. split; [done|].
      right. right. split_and!; auto.
      exists j, body_t, body_fd, body_fd. split_and!; auto.
      symmetry. by apply Hok.
    + erewrite bind_Raise.
      2:{ erewrite bind_Ok; [|exact Hopen]. cbn beta. cbn [app].
          fold results. rewrite Hw. unfold zip_close. rewrite He3. simpl.
          fold flt. rewrite Hclose. reflexivity. }
      eexists _, n, (error (str_exn e)). unfold emit. simpl.
      split; [reflexivity|]. simpl. split; [by rewrite Hs3, Hs1|]. split; [done|].
      right. right. split_and!; auto.
      exists j, body_t, body_fd, body_fd. split_and!; auto.
      symmetry. by apply Hraise.
Qed.

(** Every run returns, after ticks and one terminal signal. *)
Lemma compress_run_shape self w0 :
  signals w0 = [] ->
  exists w' k t,
    run zip_bytes self w0 = (Ok tt, w') /\
    signals w' = progress_ticks (length (files_to_compress self)) 0 k ++ [t] /\
    k <= length (files_to_compress self) /\
    (t = finished (zip_path self) \/ exists msg, t = error msg).
Proof.
  intros Hnil.
  destruct (compress_run_cases self w0 Hnil) as (w' & k & t & Hr & Hs & Hk & Hcase).
  exists w', k, t. split_and!; [done..|].
  destruct Hcase as [(_ & e & -> & _)|[(_ & _ & _ & _ & msg & _ & ->)|
    (_ & _ & _ & _ & j & body_t & body_fd & fd & _ & _ & Hbody & Hclose)]];
    [by eauto..|].
  destruct (close_fault _) as [cmsg|]; [destruct Hclose as [-> _]; eauto|].
  destruct Hclose as [-> _].
  destruct Hbody as [(_ & _ & -> & _)|[(_ & _ & -> & _)|(msg & _ & _ & _ & -> & _)]];
    eauto.
Qed.

End CompressionFacts.

(** ** Searching, at concrete inputs *)

Lemma C5_witness :
  exists rs,
    SearchWorker.finished_results
      (SearchWorker.trace_of PyStr.ascii_lower PyStr.ascii_rstrip
         (SearchWorker.files_for_search Examples.flat_items) "HELLO" None
         Examples.hello_files) = Some rs /\
    (SearchWorker.reported_matched rs 0 = true <->
     SearchWorker.term_in PyStr.ascii_lower "HELLO" "a.txt" \/
     SearchWorker.term_in_lines PyStr.ascii_lower "HELLO" ["hello world"]).
Proof.
  apply (C5_matched_iff_base_name_or_line PyStr.ascii_lower PyStr.ascii_rstrip
           Examples.flat_items "HELLO" Examples.hello_files 0
           (Enumerator.mkItem "a.txt" false false "C:\recv\a.txt" "a.txt")
           ["hello world"]); reflexivity.
Defined.

(** C5, as stated, fails: the file [a.txt] in the subfolder [sub] is
    displayed as [sub\a.txt], the term [sub] occurs in that display name,
    and the file is not reported as matched. *)
Lemma C5_counterexample :
  ~ SearchWorker.matched_iff_display_name PyStr.ascii_lower PyStr.ascii_rstrip
      Examples.nested_items "sub" Examples.empty_files 0.
Proof.
  intros H.
  specialize (H (Enumerator.mkItem "sub\a.txt" false false "C:\recv\sub\a.txt" "a.txt")
                [(false, [])] eq_refl eq_refl).
  destruct H as [_ H].
  assert (Hm : SearchWorker.reported_matched [(false, [])] 0 = true).
  { apply H. left. apply PyStr_contains_spec. reflexivity. }
  discriminate Hm.
Qed.

Lemma C6_witness :
  exists rs,
    SearchWorker.run PyStr.ascii_lower PyStr.ascii_rstrip
      (SearchWorker.init PyStr.ascii_lower
         (SearchWorker.files_for_search Examples.flat_items) "hello")
      (SearchWorker.start None Examples.hello_files) =
      (Ok tt,
       mkWorld None
         (SearchWorker.progress_ticks 2 0 2 ++ [SearchWorker.finished rs])
         Examples.hello_files) /\
    length rs = 2 /\
    fst (SearchWorker.result_at rs 1) =
      PyStr.contains (PyStr.ascii_lower "hello") (PyStr.ascii_lower "b.jpg") /\
    (forall e, Examples.hello_files "C:\recv\b.jpg" = SearchWorker.OpenFails e ->
       snd (SearchWorker.result_at rs 1) = []) /\
    (forall j g,
       SearchWorker.files_for_search Examples.flat_items !! j = Some g ->
       rs !! j =
         Some (SearchWorker.file_result PyStr.ascii_lower PyStr.ascii_rstrip
                 (SearchWorker.init PyStr.ascii_lower
                    (SearchWorker.files_for_search Examples.flat_items) "hello")
                 Examples.hello_files g)).
Proof.
  apply (C6_read_failure_swallowed PyStr.ascii_lower PyStr.ascii_rstrip
           (SearchWorker.files_for_search Examples.flat_items) "hello"
           Examples.hello_files 1 ("C:\recv\b.jpg", "b.jpg")).
  - reflexivity.
  - exact I.
Defined.

(** C6, as stated, fails: the read of a file fails after its first line
    has been yielded, the line holds the term, and the result of the file
    carries that line match. *)
Lemma C6_counterexample :
  ~ SearchWorker.failed_read_has_no_line_matches PyStr.ascii_lower PyStr.ascii_rstrip
      [("C:\recv\b.jpg", "b.jpg")] "hello" Examples.half_text_files 0.
Proof.
  intros H.
  destruct (H ("C:\recv\b.jpg", "b.jpg") [(false, [(1, "hello world")])]
              eq_refl eq_refl eq_refl) as [Hl _].
  discriminate Hl.
Qed.

(** ** The contract of a task run *)

Lemma terminal_events_snoc `{TaskEvent E} (pe : list E) (ps : list (nat * nat)) (t : E) :
  progress_of <$> pe = Some <$> ps ->
  is_terminal t ->
  terminal_events (pe ++ [t]) = [t].
Proof.
  intros Hpe Ht. unfold terminal_events. rewrite List.filter_app. simpl.
  unfold is_terminal in Ht. rewrite Ht.
  replace (List.filter _ pe) with (@nil E); [done|].
  clear Ht. revert ps Hpe; induction pe as [|e pe IH]; intros ps Hpe; [done|].
  destruct ps as [|p ps]; [done|]. rewrite !fmap_cons in Hpe.
  injection Hpe as He Hpe. simpl. rewrite He. by apply (IH ps).
Qed.

Lemma compress_run_contract zip_bytes self w0 :
  signals w0 = [] ->
  fst (CompressionWorker.run zip_bytes self w0) = Ok tt /\
  task_contract (signals (snd (CompressionWorker.run zip_bytes self w0))).
Proof.
  intros Hnil.
  destruct (compress_run_shape zip_bytes self w0 Hnil)
    as (w' & k & t & Hr & Hs & Hk & Ht).
  rewrite Hr. simpl. split; [done|]. rewrite Hs.
  eapply contract_of_ticks; [apply compress_ticks_of|exact Hk|].
  by destruct Ht as [->|[msg ->]].
Qed.

(** C4.  Every run of a worker returns, and its signals are progress
    signals whose [current] never decreases and never exceeds [total],
    followed by exactly one terminal signal, which is the last signal. *)
Theorem C4_progress_then_one_terminal :
  (forall lower rstrip self cancel fs,
     let r := SearchWorker.run lower rstrip self (SearchWorker.start cancel fs) in
     fst r = Ok tt /\ task_contract (signals (snd r))) /\
  (forall zip_bytes self cancel d rdeny wdeny flt rc choice,
     let r := CompressionWorker.run zip_bytes self
                (CompressionWorker.start cancel d rdeny wdeny flt rc choice) in
     fst r = Ok tt /\ task_contract (signals (snd r))) /\
  (forall self cancel d deny clk,
     let r := DeletionWorker.run self (DeletionWorker.start cancel d deny clk) in
     fst r = Ok tt /\ task_contract (signals (snd r))).
Proof.
  split_and!.
  - intros lower rstrip self cancel fs r. subst r. split.
    + destruct (search_run_shape lower rstrip self (SearchWorker.start cancel fs) eq_refl)
        as (rs & k & w' & -> & _). done.
    + by apply search_run_contract.
  - intros zip_bytes self cancel d rdeny wdeny flt rc choice r. subst r.
    by apply compress_run_contract.
  - intros self cancel d deny clk r. subst r. split.
    + destruct (delete_run_shape self (DeletionWorker.start cancel d deny clk) eq_refl)
        as (w' & pe & t & k & -> & _). done.
    + by apply delete_run_contract.
Qed.

(** ** Deleting *)

(** C10.  A delete run on an empty list of paths emits [finished] and
    nothing else: no progress signal, no error, no removal; it reads the
    clock once and never polls the cancellation flag. *)
Theorem C10_empty_delete_run_finishes cancel d deny clk :
  DeletionWorker.run (DeletionWorker.mk [])
    (DeletionWorker.start cancel d deny clk) =
    (Ok tt,
     mkWorld cancel [DeletionWorker.finished] (DeletionWorker.mkOs d deny clk 1 [])).
Proof. reflexivity. Qed.

Lemma error_message_names file_path e :
  PyStr.substring_of file_path (DeletionWorker.error_message file_path e) /\
  PyStr.substring_of (str_exn e) (DeletionWorker.error_message file_path e).
Proof.
  unfold DeletionWorker.error_message. split.
  - apply substring_of_middle.
  - do 2 apply substring_of_app_l. apply substring_of_end.
Qed.

(** C7.  When the removals of [pre] succeed and the removal of [p] fails,
    and the run is not cancelled before it reaches [p], the run stops at
    [p]: its only terminal signal is one [error] that names [p] and the
    message of the system; [os.remove] has been called on [pre] and on [p]
    and on nothing else; the files of [pre] are gone and every other file
    is as it was. *)
Theorem C7_first_failed_removal_stops_the_run
    (pre : list string) (p : string) (post : list string) (cancel : option nat)
    (d d' : gmap string (list Byte.byte)) (deny : string -> option string)
    (clk : nat -> Q) (e : exn) :
  DeletionWorker.remove_all deny d pre = Some d' ->
  DeletionWorker.unlink deny d' p = inl e ->
  uncancelled_for (S (length pre)) cancel ->
  let r := DeletionWorker.run (DeletionWorker.mk (pre ++ p :: post))
             (DeletionWorker.start cancel d deny clk) in
  let msg := DeletionWorker.error_message p e in
  fst r = Ok tt /\
  signals (snd r) =
    DeletionWorker.progress_run (length (pre ++ p :: post)) (clk 0) clk 1 0 (length pre)
    ++ [DeletionWorker.error msg] /\
  terminal_events (signals (snd r)) = [DeletionWorker.error msg] /\
  PyStr.substring_of p msg /\ PyStr.substring_of (str_exn e) msg /\
  DeletionWorker.removals (env (snd r)) = pre ++ [p] /\
  DeletionWorker.disk (env (snd r)) = d' /\
  (forall q, q ∈ pre -> d' !! q = None) /\
  (forall q, q ∉ pre -> d' !! q = d !! q).
Proof.
  intros Hrm Hu Hc r msg. subst r.
  rewrite (delete_run_failure pre p post cancel d deny clk d' e Hrm Hu Hc).
  simpl. destruct (error_message_names p e) as [Hp He].
  destruct (remove_all_lookup deny d pre d' Hrm) as [Hin Hout].
  split_and!; auto.
  eapply terminal_events_snoc; [apply progress_run_ticks | done].
Qed.

Lemma C7_witness :
  let r := DeletionWorker.run (DeletionWorker.mk (["f1"] ++ "f2" :: ["f3"]))
             (DeletionWorker.start None Examples.three_files Examples.f2_locked
                Examples.seconds) in
  terminal_events (signals (snd r)) =
    [DeletionWorker.error
       "파일 삭제 오류: f2 - [WinError 5] Access is denied: 'f2'"] /\
  DeletionWorker.removals (env (snd r)) = ["f1"; "f2"] /\
  DeletionWorker.disk (env (snd r)) !! "f1" = None /\
  is_Some (DeletionWorker.disk (env (snd r)) !! "f3").
Proof.
  destruct (C7_first_failed_removal_stops_the_run ["f1"] "f2" ["f3"] None
              Examples.three_files (delete "f1" Examples.three_files)
              Examples.f2_locked Examples.seconds
              (OSError "[WinError 5] Access is denied: 'f2'"))
    as (_ & _ & Ht & _ & _ & Hlog & Hd & Hgone & _).
  - reflexivity.
  - reflexivity.
  - exact I.
  - cbv zeta. rewrite Hd. split_and!.
    + exact Ht.
    + exact Hlog.
    + apply Hgone. left.
    + by eexists.
Defined.

Lemma progress_deleted_positive (pe : list DeletionWorker.event) total i k
    del tot pc el rem :
  progress_of <$> pe = Some <$> ticks total i k ->
  DeletionWorker.progress del tot pc el rem ∈ pe ->
  1 <= del.
Proof.
  intros Hpe (j & Hj)%list_elem_of_lookup.
  apply (f_equal (fun l => l !! j)) in Hpe.
  rewrite !list_lookup_fmap, Hj in Hpe. simpl in Hpe.
  unfold ticks in Hpe. rewrite list_lookup_fmap in Hpe.
  destruct (seq i k !! j) as [x|]; [|done]. simpl in Hpe.
  injection Hpe as -> _. lia.
Qed.

(** C9, amended.  No delete run divides by zero.  Every run returns
    without raising, and every progress signal, which is where the
    remaining-time estimate is evaluated, is emitted with [deleted >= 1]:
    [deleted] is [i + 1], and the division is guarded by [if deleted]. *)
Theorem C9_estimate_never_divides_by_zero
    (files : list string) (cancel : option nat)
    (d : gmap string (list Byte.byte)) (deny : string -> option string)
    (clk : nat -> Q) :
  let r := DeletionWorker.run (DeletionWorker.mk files)
             (DeletionWorker.start cancel d deny clk) in
  fst r = Ok tt /\
  forall del tot pc el rem,
    DeletionWorker.progress del tot pc el rem ∈ signals (snd r) -> 1 <= del.
Proof.
  intros r. subst r.
  destruct (delete_run_shape (DeletionWorker.mk files)
              (DeletionWorker.start cancel d deny clk) eq_refl)
    as (w' & pe & t & k & -> & Hs & Hpe & _ & Ht).
  simpl. split; [done|]. intros del tot pc el rem Hin.
  rewrite Hs in Hin. apply elem_of_app in Hin as [Hin|Hin].
  - eapply progress_deleted_positive; eauto.
  - apply list_elem_of_singleton in Hin.
    destruct Ht as [-> | [msg ->]]; discriminate.
Qed.

(** C9, as stated, fails: there is no delete run that divides by zero. *)
Lemma C9_counterexample :
  ~ exists files cancel d deny clk,
      DeletionWorker.divides_by_zero
        (DeletionWorker.run (DeletionWorker.mk files)
           (DeletionWorker.start cancel d deny clk)).
Proof.
  intros (files & cancel & d & deny & clk & H).
  unfold DeletionWorker.divides_by_zero in H.
  destruct (delete_run_shape (DeletionWorker.mk files)
              (DeletionWorker.start cancel d deny clk) eq_refl)
    as (w' & pe & t & k & Hr & _).
  rewrite Hr in H. discriminate H.
Qed.

(** ** Archiving *)

Lemma has_value_read_ok zip_bytes self o f :
  Forall CompressionWorker.has_value (CompressionWorker.futures zip_bytes self o) ->
  f ∈ CompressionWorker.files_to_compress self ->
  exists data, CompressionWorker.open_rb zip_bytes o (fst f) = inr data.
Proof.
  intros Hall Hf.
  destruct (CompressionWorker.open_rb zip_bytes o (fst f)) as [e|data] eqn:Ho;
    [|by exists data].
  destruct (read_fails_no_value zip_bytes self o f Hf); [by exists e | done].
Qed.

Lemma read_error_message_names full_path e :
  PyStr.substring_of full_path (CompressionWorker.read_error_message full_path e).
Proof. apply substring_of_middle. Qed.

(** C3, amended.  When a read fails, or when the cancellation flag is found
    set by a pool thread or by one of the checks that precede the opening
    of the archive, the run ends with one [error] signal, which carries the
    cancellation message or names a file that could not be read, and the
    disk is as it was: nothing has been opened for writing.  In every run,
    the archive is opened for writing only when all reads have succeeded. *)
Theorem C3_abort_before_open_leaves_disk_untouched
    (zip_bytes : list CompressionWorker.entry -> list Byte.byte)
    (self : CompressionWorker.t) (cancel : option nat)
    (d : gmap string CompressionWorker.fdata)
    (rdeny wdeny : string -> option string) (flt : CompressionWorker.faults)
    (rc : nat -> bool) (choice : list nat) :
  let w0 := CompressionWorker.start cancel d rdeny wdeny flt rc choice in
  let files := CompressionWorker.files_to_compress self in
  let r := CompressionWorker.run zip_bytes self w0 in
  ((exists f, f ∈ files /\ CompressionWorker.read_fails zip_bytes (env w0) f) \/
   (exists i, i < length files /\ rc i = true) \/
   (exists k, cancel = Some k /\ k <= length files) ->
   fst r = Ok tt /\
   env (snd r) = env w0 /\
   exists msg,
     terminal_events (signals (snd r)) = [CompressionWorker.error msg] /\
     (msg = CompressionWorker.cancel_message \/
      exists f e, f ∈ files /\
        CompressionWorker.open_rb zip_bytes (env w0) (fst f) = inl e /\
        msg = CompressionWorker.read_error_message (fst f) e /\
        PyStr.substring_of (fst f) msg)) /\
  (CompressionWorker.opened_for_writing (env (snd r)) <> [] ->
   forall f, f ∈ files ->
     exists data, CompressionWorker.open_rb zip_bytes (env w0) (fst f) = inr data).
Proof.
  intros w0 files r. subst r files.
  destruct (compress_run_cases zip_bytes self w0 eq_refl)
    as (w' & k & t & Hr & Hs & Hk & Hcase).
  rewrite Hr. simpl fst. simpl snd. split.
  - intros Hstop.
    assert (Hnot : ~ (Forall CompressionWorker.has_value
                        (CompressionWorker.futures zip_bytes self (env w0)) /\
                      uncancelled_for (length (CompressionWorker.files_to_compress self) + 1)
                        cancel)).
    { intros [Hall Hu].
      destruct Hstop as [(f & Hf & Hfail)|[(i & Hi & Hrc)|(k0 & -> & Hle)]].
      - by destruct (read_fails_no_value zip_bytes self (env w0) f Hf Hfail).
      - by destruct (read_cancelled_no_value zip_bytes self (env w0) i Hi Hrc).
      - simpl in Hu. lia. }
    destruct Hcase as [(He & e & -> & Hcause)|[(Hall & Hu & _)|(Hall & Hu & _)]].
    + split; [done|]. split; [done|]. exists (str_exn e). split.
      { rewrite Hs. eapply terminal_events_snoc; [apply compress_ticks_of | done]. }
      destruct Hcause as [[-> _]|Hin]; [by left|].
      apply futures_raise in Hin as [->|(f & e' & Hf & Ho & ->)]; [by left|].
      right. exists f, e'. split_and!; auto. apply read_error_message_names.
    + destruct Hnot. auto.
    + destruct Hnot. auto.
  - intros Hopened f Hf.
    destruct Hcase as [(He & _)|[(_ & _ & _ & He & _)|(Hall & _)]];
      try (rewrite He in Hopened; by destruct Hopened);
      by apply (has_value_read_ok zip_bytes self).
Qed.

Lemma C3_witness :
  let self := CompressionWorker.mk
                (Examples.two_pairs ++ [("C:\recv\gone.txt", "gone.txt")]) "C:\out.zip" in
  let w0 := CompressionWorker.start None Examples.two_sources Examples.allowed
              Examples.allowed Examples.no_faults Examples.never [] in
  let r := CompressionWorker.run Examples.no_zip_bytes self w0 in
  env (snd r) = env w0 /\
  exists msg, terminal_events (signals (snd r)) = [CompressionWorker.error msg].
Proof.
  intros self w0 r.
  destruct (C3_abort_before_open_leaves_disk_untouched Examples.no_zip_bytes self
              None Examples.two_sources Examples.allowed Examples.allowed
              Examples.no_faults Examples.never []) as [H _].
  destruct H as (_ & He & msg & Ht & _).
  - left. exists ("C:\recv\gone.txt", "gone.txt"). split.
    + right. right. left.
    + eexists. reflexivity.
  - split; [exact He | exists msg; exact Ht].
Defined.

(** C3, as stated, fails: the run is cancelled after the first of two
    entries has been written; it ends with the cancellation error, and the
    destination, which did not exist, holds an archive with one entry. *)
Lemma C3_counterexample :
  let self := CompressionWorker.mk Examples.two_pairs "C:\out.zip" in
  let w0 := CompressionWorker.start (Some 4) Examples.two_sources Examples.allowed
              Examples.allowed Examples.no_faults Examples.never [] in
  let r := CompressionWorker.run Examples.no_zip_bytes self w0 in
  last (signals (snd r)) =
    Some (CompressionWorker.error CompressionWorker.cancel_message) /\
  CompressionWorker.disk (env w0) !! "C:\out.zip" = None /\
  CompressionWorker.disk (env (snd r)) !! "C:\out.zip" =
    Some (CompressionWorker.Archive [("a.txt", Examples.bytes_of_string "alpha")]).
Proof. vm_compute. by split_and!. Qed.

(** C8.  When a run succeeds, the archive at the destination holds exactly
    one entry for each pair of the input, under the stored form of the name
    that the pair gives and with the bytes that the disk held at the source
    path of the pair, whatever the order in which the reads were yielded. *)
Theorem C8_archive_holds_every_source
    (zip_bytes : list CompressionWorker.entry -> list Byte.byte)
    (self : CompressionWorker.t) (cancel : option nat)
    (d : gmap string CompressionWorker.fdata)
    (rdeny wdeny : string -> option string) (flt : CompressionWorker.faults)
    (rc : nat -> bool) (choice : list nat) :
  let w0 := CompressionWorker.start cancel d rdeny wdeny flt rc choice in
  let files := CompressionWorker.files_to_compress self in
  let r := CompressionWorker.run zip_bytes self w0 in
  last (signals (snd r)) =
    Some (CompressionWorker.finished (CompressionWorker.zip_path self)) ->
  exists es expected,
    CompressionWorker.disk (env (snd r)) !! CompressionWorker.zip_path self =
      Some (CompressionWorker.Archive es) /\
    length es = length files /\
    Forall2 (CompressionWorker.entry_of zip_bytes d) files expected /\
    es ≡ₚ expected.
Proof.
  intros w0 files r. subst r files.
  destruct (compress_run_cases zip_bytes self w0 eq_refl)
    as (w' & k & t & Hr & Hs & Hk & Hcase).
  rewrite Hr. simpl snd. rewrite Hs, last_snoc. intros [= ->].
  destruct Hcase as [(_ & e & Ht & _)|[(_ & _ & _ & _ & msg & _ & Ht)|
    (Hall & _ & _ & _ & j & body_t & body_fd & fd & He & _ & Hbody & Hclose)]];
    [discriminate Ht..|].
  destruct (CompressionWorker.close_fault _); [by destruct Hclose|].
  destruct Hclose as [<- ->].
  destruct Hbody as [(_ & _ & _ & ->)|[(_ & _ & Ht & _)|(msg & _ & _ & _ & Ht & _)]];
    [|discriminate Ht..].
  pose proof (futures_values zip_bytes self (env w0) Hall) as Hf2.
  eexists _, _. rewrite He. simpl. split; [apply lookup_insert_eq|].
  split_and!; [|exact Hf2|].
  - rewrite length_fmap, length_values.
    + apply length_as_completed_futures.
    + by rewrite as_completed_Permutation.
  - apply fmap_Permutation. unfold CompressionWorker.values.
    by rewrite as_completed_Permutation.
Qed.

Lemma C8_witness :
  let self := CompressionWorker.mk Examples.nested_pairs "C:\out.zip" in
  let w0 := CompressionWorker.start None Examples.nested_sources Examples.allowed
              Examples.allowed Examples.no_faults Examples.never [1] in
  let r := CompressionWorker.run Examples.no_zip_bytes self w0 in
  exists es expected,
    CompressionWorker.disk (env (snd r)) !! "C:\out.zip" =
      Some (CompressionWorker.Archive es) /\
    length es = 2 /\
    Forall2 (CompressionWorker.entry_of Examples.no_zip_bytes Examples.nested_sources)
      Examples.nested_pairs expected /\
    es ≡ₚ expected.
Proof.
  apply (C8_archive_holds_every_source Examples.no_zip_bytes
           (CompressionWorker.mk Examples.nested_pairs "C:\out.zip") None
           Examples.nested_sources Examples.allowed Examples.allowed
           Examples.no_faults Examples.never [1]).
  reflexivity.
Defined.

(** ** Cancellation *)




(** ** One task at a time *)

(** C2 fails on the code.  [start_search] disables the search button only:
    a click on the compress button while the search worker runs starts a
    compression worker next to it, and the Return key in the search input,
    which stays connected to [start_search], starts a second search
    worker. *)
Theorem C2_search_then_compress_runs_two_workers :
  let g1 := MainWindow.step (MainWindow.init Examples.flat_items)
              (MainWindow.search_button_clicked "hello") in
  let g2 := MainWindow.step g1 (MainWindow.btn_compress_clicked true "C:\out.zip") in
  let g2' := MainWindow.step g1 (MainWindow.search_input_return_pressed "hello") in
  MainWindow.kind_of <$> MainWindow.running g1 = [MainWindow.Search] /\
  MainWindow.search_button_enabled g1 = false /\
  MainWindow.btn_compress_enabled g1 = true /\
  MainWindow.kind_of <$> MainWindow.running g2 =
    [MainWindow.Search; MainWindow.Compression] /\
  ~ MainWindow.at_most_one_active g2 /\
  MainWindow.kind_of <$> MainWindow.running g2' =
    [MainWindow.Search; MainWindow.Search] /\
  ~ MainWindow.at_most_one_active g2'.
Proof.
  vm_compute. split_and!; try done; lia.
Qed.

(** * Further properties *)

(** ** Listing the folder *)

Lemma elem_of_concat {A} (x : A) (ls : list (list A)) :
  x ∈ concat ls <-> exists l, x ∈ l /\ l ∈ ls.
Proof.
  induction ls as [|l ls IH]; simpl.
  - split; [by intros ?%elem_of_nil | by intros (l & _ & ?%elem_of_nil)].
  - rewrite elem_of_app, IH. split.
    + intros [H | (l' & H1 & H2)]; [exists l; split; [done | left] |].
      exists l'. split; [done | by right].
    + intros (l' & H1 & [-> | H2]%elem_of_cons); [by left|]. right. by exists l'.
Qed.

Lemma basename_separator_free name :
  Listing.separator_free name -> Enumerator.basename name = name.
Proof.
  intros [Hb Hs]. destruct name as [|c rest]; [done|].
  cbn [Enumerator.basename]. cbn [PyStr.contains] in Hb, Hs.
  apply orb_false_iff in Hb as [Hb1 Hb2]. apply orb_false_iff in Hs as [Hs1 Hs2].
  rewrite Hb2, Hs2. cbn [orb].
  unfold Enumerator.sep in Hb1. cbn [PyStr.startswith] in Hb1, Hs1.
  rewrite andb_true_r in Hb1, Hs1.
  unfold Enumerator.is_sep.
  destruct (Ascii.eqb_spec c (ascii_of_nat 92)) as [->|_].
  { by rewrite Ascii.eqb_refl in Hb1. }
  destruct (Ascii.eqb_spec c (ascii_of_nat 47)) as [->|_]; [|done].
  change (ascii_of_nat 47) with "/"%char in Hs1.
  by rewrite Ascii.eqb_refl in Hs1.
Qed.

(** An item of the listing comes from one file of one step of the walk. *)
Lemma listed_item_origin folder_path walk it :
  it ∈ Enumerator.check_folder_and_list_files folder_path walk ->
  exists rel names file,
    (rel, names) ∈ walk /\ file ∈ names /\
    it = Enumerator.mkItem
           (if String.eqb rel "." then file else Enumerator.path_join rel file)
           false false
           (Enumerator.path_join
              (if String.eqb rel "." then folder_path
               else Enumerator.path_join folder_path rel) file)
           (Enumerator.basename file).
Proof.
  unfold Enumerator.check_folder_and_list_files.
  intros (l & Hit & Hl)%elem_of_concat.
  apply list_elem_of_fmap in Hl as ([rel names] & -> & Hstep).
  unfold Enumerator.list_dir in Hit.
  apply list_elem_of_fmap in Hit as (file & -> & Hfile).
  by exists rel, names, file.
Qed.

(** X1.  Every listed item is unchecked and visible, and its full path is
    the folder joined with the text that the item displays. *)
Theorem listed_item_path (folder_path : string)
    (walk : list Enumerator.walk_step) (it : Enumerator.file_item) :
  it ∈ Enumerator.check_folder_and_list_files folder_path walk ->
  Enumerator.full_path it = Enumerator.path_join folder_path (Enumerator.item_text it) /\
  Enumerator.item_checked it = false /\
  Enumerator.item_hidden it = false.
Proof.
  intros Hit. apply listed_item_origin in Hit as (rel & names & file & _ & _ & ->).
  simpl. destruct (String.eqb rel "."); [done|].
  unfold Enumerator.path_join. by rewrite !string_app_assoc.
Qed.

Lemma listed_item_path_witness :
  Enumerator.full_path (Enumerator.mkItem "sub\a.txt" false false "C:\recv\sub\a.txt" "a.txt") =
    Enumerator.path_join "C:\recv" "sub\a.txt".
Proof.
  apply (listed_item_path "C:\recv" [("sub", ["a.txt"])]
           (Enumerator.mkItem "sub\a.txt" false false "C:\recv\sub\a.txt" "a.txt")).
  left.
Defined.

(** X2.  When the file names of the walk have no separator, the base name
    of a listed item is the last component of the text it displays: the
    text is the base name itself, or a relative folder, a separator and
    the base name. *)
Theorem listed_item_base_name (folder_path : string)
    (walk : list Enumerator.walk_step) (it : Enumerator.file_item) :
  Listing.plain_names walk ->
  it ∈ Enumerator.check_folder_and_list_files folder_path walk ->
  Listing.separator_free (Enumerator.base_name it) /\
  (Enumerator.item_text it = Enumerator.base_name it \/
   exists rel, Enumerator.item_text it =
                 Enumerator.path_join rel (Enumerator.base_name it)).
Proof.
  unfold Listing.plain_names. intros Hplain Hit.
  apply listed_item_origin in Hit as (rel & names & file & Hstep & Hfile & ->).
  rewrite Forall_forall in Hplain. specialize (Hplain _ Hstep). simpl in Hplain.
  rewrite Forall_forall in Hplain. specialize (Hplain _ Hfile). simpl.
  rewrite (basename_separator_free file Hplain). split; [done|].
  destruct (String.eqb rel "."); [by left | right; by exists rel].
Qed.

Lemma listed_item_base_name_witness :
  Listing.separator_free "a.txt" /\
  ("sub\a.txt" = "a.txt" \/
   exists rel, "sub\a.txt" = Enumerator.path_join rel "a.txt").
Proof.
  apply (listed_item_base_name "C:\recv" [("sub", ["a.txt"])]
           (Enumerator.mkItem "sub\a.txt" false false "C:\recv\sub\a.txt" "a.txt")).
  - repeat constructor.
  - left.
Defined.

(** ** Searching: what every run guarantees *)

Section SearchGuarantees.
Import SearchWorker SearchSpec.
Variable lower : string -> string.
Variable rstrip : string -> string.
Implicit Types w : World event (string -> text_read).
Implicit Types self : SearchWorker.t.

Lemma results_of_eq files term cancel fs rs :
  finished_results (trace_of lower rstrip files term cancel fs) = Some rs ->
  results_of lower rstrip files term cancel fs = rs.
Proof. unfold results_of. by intros ->. Qed.

(** The flag of a reported file, in terms of [PyStr.contains]. *)
Lemma reported_flag_sound files term cancel fs i f :
  files !! i = Some f ->
  reported_matched (results_of lower rstrip files term cancel fs) i = true ->
  PyStr.contains (lower term) (lower (snd f)) = true \/
  exists line, line ∈ file_lines fs (fst f) /\
    PyStr.contains (lower term) (lower line) = true.
Proof.
  intros Hf Hm.
  destruct (search_results_sound lower rstrip files term cancel fs) as (rs & Hrs & _ & Hsound).
  rewrite (results_of_eq _ _ _ _ _ Hrs) in Hm.
  unfold reported_matched, result_at in Hm.
  destruct (rs !! i) as [r|] eqn:Hr; [|done]. simpl in Hm.
  destruct (Hsound i r Hr) as (f' & Hf' & Hflag & Hrep & _).
  assert (f' = f) as -> by congruence.
  destruct (Hflag Hm) as [Hname | Hne]; [by left|].
  right. destruct (snd r) as [|m ms]; [done|].
  apply Forall_cons in Hrep as [(line & _ & Hl & Hc & _) _].
  exists line. split; [by eapply list_elem_of_lookup_2 | done].
Qed.

(** X3.  In every run, cancelled or not, and whatever the reads do, a file
    is reported as matched only if the term occurs, case-insensitively, in
    its name or in a line of its content. *)
Theorem search_reports_only_matches (files : list (string * string))
    (term : string) (cancel : option nat) (fs : string -> text_read)
    (i : nat) (f : string * string) :
  files !! i = Some f ->
  reported_matched (results_of lower rstrip files term cancel fs) i = true ->
  term_in lower term (snd f) \/
  term_in_lines lower term (file_lines fs (fst f)).
Proof.
  intros Hf Hm.
  destruct (reported_flag_sound files term cancel fs i f Hf Hm)
    as [Hname | (line & Hl & Hc)].
  - left. by apply PyStr_contains_spec.
  - right. exists line. split; [done|]. by apply PyStr_contains_spec.
Qed.

(** X4.  In every run, each line match [(num, text)] of a file reports
    line [num] of the file, counted from one: that line holds the term and
    [text] is the line without trailing white space.  The line numbers of
    a result increase strictly. *)
Theorem search_line_matches_report_lines (files : list (string * string))
    (term : string) (cancel : option nat) (fs : string -> text_read)
    (i : nat) (f : string * string) :
  files !! i = Some f ->
  let lms := snd (result_at (results_of lower rstrip files term cancel fs) i) in
  (forall num text, (num, text) ∈ lms ->
     exists line,
       1 <= num /\
       file_lines fs (fst f) !! (num - 1) = Some line /\
       term_in lower term line /\
       text = rstrip line) /\
  StronglySorted lt (fst <$> lms).
Proof.
  intros Hf lms. subst lms.
  destruct (search_results_sound lower rstrip files term cancel fs) as (rs & Hrs & _ & Hsound).
  rewrite (results_of_eq _ _ _ _ _ Hrs).
  unfold result_at. destruct (rs !! i) as [r|] eqn:Hr; simpl.
  2:{ split; [by intros num text ?%elem_of_nil | constructor]. }
  destruct (Hsound i r Hr) as (f' & Hf' & _ & Hrep & Hsort).
  assert (f' = f) as -> by congruence. split; [|done].
  intros num text Hin. rewrite Forall_forall in Hrep.
  destruct (Hrep _ Hin) as (line & Hn & Hl & Hc & Ht). simpl in *.
  exists line. split_and!; auto. by apply PyStr_contains_spec.
Qed.

End SearchGuarantees.

Lemma search_reports_only_matches_witness :
  SearchWorker.term_in PyStr.ascii_lower "HELLO" "a.txt" \/
  SearchWorker.term_in_lines PyStr.ascii_lower "HELLO"
    (SearchWorker.file_lines Examples.hello_files "C:\recv\a.txt").
Proof.
  apply (search_reports_only_matches PyStr.ascii_lower PyStr.ascii_rstrip
           (SearchWorker.files_for_search Examples.flat_items) "HELLO" (Some 5)
           Examples.hello_files 0 ("C:\recv\a.txt", "a.txt")); reflexivity.
Defined.

Lemma search_line_matches_report_lines_witness :
  let lms := snd (SearchWorker.result_at
                    (SearchSpec.results_of PyStr.ascii_lower PyStr.ascii_rstrip
                       (SearchWorker.files_for_search Examples.flat_items) "HELLO"
                       None Examples.hello_files) 0) in
  (forall num text, (num, text) ∈ lms ->
     exists line,
       1 <= num /\
       SearchWorker.file_lines Examples.hello_files "C:\recv\a.txt" !! (num - 1) =
         Some line /\
       SearchWorker.term_in PyStr.ascii_lower "HELLO" line /\
       text = PyStr.ascii_rstrip line) /\
  StronglySorted lt (fst <$> lms).
Proof.
  apply (search_line_matches_report_lines PyStr.ascii_lower PyStr.ascii_rstrip
           (SearchWorker.files_for_search Examples.flat_items) "HELLO" None
           Examples.hello_files 0 ("C:\recv\a.txt", "a.txt")).
  reflexivity.
Defined.

Section SearchCompleteness.
Import SearchWorker SearchSpec.
Variable lower : string -> string.
Variable rstrip : string -> string.

Lemma matching_lines_complete self num lines k line :
  lines !! k = Some line ->
  PyStr.contains (search_term self) (lower line) = true ->
  (num + k, rstrip line) ∈ matching_lines lower rstrip self num lines.
Proof.
  revert num k; induction lines as [|l rest IH]; intros num k Hk Hc; [done|].
  simpl. destruct k as [|k]; simpl in Hk.
  - injection Hk as ->. rewrite Hc, Nat.add_0_r. left.
  - apply elem_of_app. right.
    replace (num + S k) with (S num + k) by lia. by apply IH.
Qed.

(** X5.  In a run that is not cancelled, every line that the read of a
    file yields and that holds the term is reported, with its number
    counted from one, also when the read fails after that line. *)
Theorem search_reports_every_matching_line (files : list (string * string))
    (term : string) (fs : string -> text_read)
    (i : nat) (f : string * string) (k : nat) (line : string) :
  files !! i = Some f ->
  file_lines fs (fst f) !! k = Some line ->
  term_in lower term line ->
  (k + 1, rstrip line) ∈
    snd (result_at (results_of lower rstrip files term None fs) i).
Proof.
  intros Hf Hk Hterm. unfold results_of, trace_of.
  rewrite search_run_never. simpl. rewrite finished_results_snoc. simpl.
  unfold result_at. rewrite list_lookup_fmap, Hf. simpl.
  apply PyStr_contains_spec in Hterm.
  unfold file_result. unfold file_lines in Hk.
  destruct (fs (fst f)) as [e|lines eof]; [done|].
  pose proof (matching_lines_complete (init lower files term) 1 lines k line
                Hk Hterm) as Hin.
  replace (k + 1) with (1 + k) by lia.
  destruct eof; exact Hin.
Qed.

End SearchCompleteness.

Lemma search_reports_every_matching_line_witness :
  (0 + 1, PyStr.ascii_rstrip "hello world") ∈
    snd (SearchWorker.result_at
           (SearchSpec.results_of PyStr.ascii_lower PyStr.ascii_rstrip
              [("C:\recv\b.jpg", "b.jpg")] "hello" None Examples.half_text_files) 0).
Proof.
  apply (search_reports_every_matching_line PyStr.ascii_lower PyStr.ascii_rstrip
           [("C:\recv\b.jpg", "b.jpg")] "hello" Examples.half_text_files 0
           ("C:\recv\b.jpg", "b.jpg") 0 "hello world").
  - reflexivity.
  - reflexivity.
  - apply PyStr_contains_spec. reflexivity.
Defined.

Lemma ascii_lower_app (a b : string) :
  PyStr.ascii_lower (a +:+ b) = PyStr.ascii_lower a +:+ PyStr.ascii_lower b.
Proof.
  induction a as [|c a IH]; [done|].
  change (String (PyStr.lower_ascii c) (PyStr.ascii_lower (a +:+ b)) =
          String (PyStr.lower_ascii c) (PyStr.ascii_lower a +:+ PyStr.ascii_lower b)).
  by rewrite IH.
Qed.

(** X6.  For the items listed from a walk whose file names have no
    separator, and a lowering that lowers what follows a separator on its
    own (as [str.lower] does: the separator is neither a cased nor a
    case-ignorable character): in every run, an item is reported as matched
    only if the term occurs, case-insensitively, in the text that the item
    displays or in a line of its content. *)
Theorem search_matches_show_term (lower rstrip : string -> string)
    (folder_path : string) (walk : list Enumerator.walk_step)
    (term : string) (cancel : option nat) (fs : string -> SearchWorker.text_read)
    (i : nat) (it : Enumerator.file_item) :
  (forall a b,
     lower (a +:+ Enumerator.sep +:+ b) = lower (a +:+ Enumerator.sep) +:+ lower b) ->
  Listing.plain_names walk ->
  Enumerator.check_folder_and_list_files folder_path walk !! i = Some it ->
  SearchWorker.reported_matched
    (SearchSpec.results_of lower rstrip
       (SearchWorker.files_for_search
          (Enumerator.check_folder_and_list_files folder_path walk))
       term cancel fs) i = true ->
  SearchWorker.term_in lower term (Enumerator.item_text it) \/
  SearchWorker.term_in_lines lower term
    (SearchWorker.file_lines fs (Enumerator.full_path it)).
Proof.
  intros Hlower Hplain Hit Hm.
  destruct (reported_flag_sound lower rstrip
              (SearchWorker.files_for_search
                 (Enumerator.check_folder_and_list_files folder_path walk))
              term cancel fs i
              (Enumerator.full_path it, Enumerator.base_name it))
    as [Hname | (line & Hl & Hc)]; [|exact Hm| |].
  { unfold SearchWorker.files_for_search. by rewrite list_lookup_fmap, Hit. }
  2:{ right. exists line. split; [done|]. by apply PyStr_contains_spec. }
  left. simpl in Hname. apply PyStr_contains_spec in Hname.
  apply list_elem_of_lookup_2 in Hit.
  apply listed_item_origin in Hit as (rel & names & file & Hstep & Hfile & ->).
  unfold Listing.plain_names in Hplain.
  rewrite Forall_forall in Hplain. specialize (Hplain _ Hstep). simpl in Hplain.
  rewrite Forall_forall in Hplain. specialize (Hplain _ Hfile).
  simpl in *. rewrite (basename_separator_free file Hplain) in Hname.
  destruct (String.eqb rel "."); [done|].
  unfold SearchWorker.term_in, Enumerator.path_join in *.
  rewrite Hlower. by apply substring_of_app_l.
Qed.

Lemma search_matches_show_term_witness :
  SearchWorker.term_in PyStr.ascii_lower "A.TXT" "sub\a.txt" \/
  SearchWorker.term_in_lines PyStr.ascii_lower "A.TXT"
    (SearchWorker.file_lines Examples.empty_files "C:\recv\sub\a.txt").
Proof.
  apply (search_matches_show_term PyStr.ascii_lower PyStr.ascii_rstrip
           "C:\recv" [("sub", ["a.txt"])] "A.TXT" None Examples.empty_files 0
           (Enumerator.mkItem "sub\a.txt" false false "C:\recv\sub\a.txt" "a.txt")).
  - intros a b. by rewrite <- string_app_assoc, !ascii_lower_app.
  - repeat constructor.
  - reflexivity.
  - reflexivity.
Defined.

(** ** Deleting: the shape of every run *)

Section DeletionCases.
Import DeletionWorker.
Implicit Types w : World event os.

(** The loop removes a prefix of its list and then ends: by exhaustion or
    by the flag (it answers [false]), or by a removal that fails (it
    answers [true], after one [error] signal). *)
Lemma delete_loop_cases total st i todo w :
  total = i + length todo ->
  exists k d' returned w' tl,
    run_loop total st i todo w = (Ok returned, w') /\
    k <= length todo /\
    remove_all (deny_remove (env w)) (disk (env w)) (take k todo) = Some d' /\
    disk (env w') = d' /\
    signals w' =
      signals w ++
      progress_run total st (clock (env w)) (time_calls (env w)) i k ++ tl /\
    ((returned = false /\ tl = [] /\
      (k = length todo \/ cancel_after w = Some k)) \/
     (returned = true /\
      exists p e, todo !! k = Some p /\
        unlink (deny_remove (env w)) d' p = inl e /\
        tl = [error (error_message p e)] /\
        uncancelled_for (S k) (cancel_after w))).
Proof.
  revert i w; induction todo as [|p rest IH]; intros i w Htot.
  - exists 0, (disk (env w)), false, w, []. simpl. rewrite app_nil_r.
    split_and!; auto.
  - simpl in Htot.
    destruct (poll_cases w) as [[Hc Hp]|[Hc Hp]].
    { exists 0, (disk (env w)), false, w, []. cbn [run_loop].
      rewrite (bind_Ok _ _ _ _ _ Hp). simpl. rewrite app_nil_r.
      split_and!; auto; try lia. }
    destruct (unlink (deny_remove (env w)) (disk (env w)) p) as [e|d1] eqn:Hu.
    + cbn [run_loop]. rewrite (bind_Ok _ _ _ _ _ Hp). cbn iota.
      erewrite bind_Ok.
      2:{ unfold try_except. erewrite bind_Raise.
          2:{ unfold os_remove. simpl. by rewrite Hu. }
          erewrite bind_Ok; reflexivity. }
      cbn iota. eexists 0, (disk (env w)), true, _, [_]. simpl.
      split_and!; [reflexivity|lia|done|done|done|].
      right. split; [done|]. exists p, e. auto.
    + rewrite (run_loop_step total st i p rest w d1) by (done || lia).
      match goal with |- context [run_loop _ _ _ _ ?w2] =>
        destruct (IH (S i) w2) as (k & d' & ret & w3 & tl & Hr & Hk & Hrm & Hd & Hs & Hcase);
          [lia|]
      end.
      simpl in Hrm, Hs, Hcase.
      exists (S k), d', ret, w3, tl.
      split_and!; [done|simpl; lia|simpl; by rewrite Hu|done| |].
      * rewrite Hs, progress_run_S, <- !app_assoc. reflexivity.
      * destruct Hcase as [(-> & -> & Hend)|(-> & q & e & Hq & Hfail & -> & Hun)].
        -- left. split_and!; auto. destruct Hend as [->|Hend]; [by left|right].
           destruct (cancel_after w) as [c|]; simpl in *; [|done].
           injection Hend as Hend. f_equal. lia.
        -- right. split; [done|]. exists q, e. split_and!; auto.
           by apply (uncancelled_for_add 1).
Qed.

Lemma delete_run_cases files cancel d deny clk :
  exists k d' t w',
    run (mk files) (start cancel d deny clk) = (Ok tt, w') /\
    k <= length files /\
    remove_all deny d (take k files) = Some d' /\
    disk (env w') = d' /\
    signals w' = progress_run (length files) (clk 0) clk 1 0 k ++ [t] /\
    ((t = finished /\ (k = length files \/ cancel = Some k)) \/
     (exists p e, files !! k = Some p /\ unlink deny d' p = inl e /\
        t = error (error_message p e) /\ uncancelled_for (S k) cancel)).
Proof.
  unfold run, start. cbn [files_to_delete].
  erewrite bind_Ok; [|reflexivity]. simpl.
  match goal with |- context [run_loop ?n ?st 0 ?l] =>
    destruct (delete_loop_cases n st 0 l
                (mkWorld cancel [] (mkOs d deny clk 1 [])))
      as (k & d' & ret & w1 & tl & Hr & Hk & Hrm & Hd & Hs & Hcase); [done|]
  end.
  simpl in Hrm, Hs, Hcase. rewrite (bind_Ok _ _ _ _ _ Hr).
  destruct Hcase as [(-> & -> & Hend)|(-> & p & e & Hp & Hfail & -> & Hun)].
  - eexists k, d', finished, _. unfold emit. simpl.
    rewrite app_nil_r in Hs.
    split_and!; [reflexivity|done|done|done|by rewrite Hs|by left].
  - exists k, d', (error (error_message p e)), w1. unfold ret.
    split_and!; [done|done|done|done|done|]. right. exists p, e. auto.
Qed.

End DeletionCases.

Lemma remove_all_app deny d (a b : list string) :
  DeletionWorker.remove_all deny d (a ++ b) =
    d1 ← DeletionWorker.remove_all deny d a; DeletionWorker.remove_all deny d1 b.
Proof.
  revert d; induction a as [|p a IH]; intros d; [done|].
  simpl. destruct (DeletionWorker.unlink deny d p); [done | apply IH].
Qed.

Lemma remove_all_prefix deny d files d' k :
  DeletionWorker.remove_all deny d files = Some d' ->
  exists d1, DeletionWorker.remove_all deny d (take k files) = Some d1 /\
    DeletionWorker.remove_all deny d1 (drop k files) = Some d'.
Proof.
  rewrite <- (take_drop k files) at 1. rewrite remove_all_app.
  destruct (DeletionWorker.remove_all deny d (take k files)) as [d1|]; [|done].
  simpl. intros H. by exists d1.
Qed.

(** X7.  When every removal succeeds and the run is not cancelled, the run
    emits one progress signal for each file and then [finished]; none of
    the listed paths is left on disk, and no other file is touched. *)
Theorem delete_run_removes_every_file (files : list string) (cancel : option nat)
    (d d' : gmap string (list Byte.byte)) (deny : string -> option string)
    (clk : nat -> Q) :
  DeletionWorker.remove_all deny d files = Some d' ->
  uncancelled_for (length files) cancel ->
  let r := DeletionWorker.run (DeletionWorker.mk files)
             (DeletionWorker.start cancel d deny clk) in
  fst r = Ok tt /\
  signals (snd r) =
    DeletionWorker.progress_run (length files) (clk 0) clk 1 0 (length files)
    ++ [DeletionWorker.finished] /\
  DeletionWorker.disk (env (snd r)) = d' /\
  (forall p, p ∈ files -> d' !! p = None) /\
  (forall q, q ∉ files -> d' !! q = d !! q).
Proof.
  intros Hrm Hun r. subst r.
  destruct (delete_run_cases files cancel d deny clk)
    as (k & d1 & t & w' & Hr & Hk & Hrm1 & Hd & Hs & Hcase).
  rewrite Hr. simpl.
  destruct (remove_all_lookup deny d files d' Hrm) as [Hin Hout].
  destruct (remove_all_prefix deny d files d' k Hrm) as (d2 & Hrm2 & Hrest).
  assert (d2 = d1) as -> by congruence.
  destruct Hcase as [(-> & Hend)|(p & e & Hp & Hfail & _)].
  - assert (k = length files) as ->.
    { destruct Hend as [->| ->]; [done|]. simpl in Hun. lia. }
    rewrite take_ge in Hrm1 by done.
    assert (d1 = d') as -> by congruence. by rewrite Hs.
  - rewrite (drop_S _ _ _ Hp) in Hrest. simpl in Hrest. by rewrite Hfail in Hrest.
Qed.

Lemma delete_run_removes_every_file_witness :
  let r := DeletionWorker.run (DeletionWorker.mk ["f1"; "f3"])
             (DeletionWorker.start None Examples.three_files Examples.f2_locked
                Examples.seconds) in
  DeletionWorker.disk (env (snd r)) =
    delete "f3" (delete "f1" Examples.three_files) /\
  delete "f3" (delete "f1" Examples.three_files) !! "f1" = None.
Proof.
  destruct (delete_run_removes_every_file ["f1"; "f3"] None Examples.three_files
              (delete "f3" (delete "f1" Examples.three_files)) Examples.f2_locked
              Examples.seconds) as (_ & _ & Hd & Hgone & _).
  - reflexivity.
  - exact I.
  - split; [exact Hd | apply Hgone; left].
Defined.

(** X8.  In a run that nobody cancels, [finished] is emitted only when
    every removal has succeeded: then none of the listed paths is left on
    disk. *)
Theorem delete_finished_means_all_removed (files : list string)
    (d : gmap string (list Byte.byte)) (deny : string -> option string)
    (clk : nat -> Q) :
  let r := DeletionWorker.run (DeletionWorker.mk files)
             (DeletionWorker.start None d deny clk) in
  last (signals (snd r)) = Some DeletionWorker.finished ->
  DeletionWorker.remove_all deny d files = Some (DeletionWorker.disk (env (snd r))) /\
  forall p, p ∈ files -> DeletionWorker.disk (env (snd r)) !! p = None.
Proof.
  intros r. subst r.
  destruct (delete_run_cases files None d deny clk)
    as (k & d1 & t & w' & Hr & Hk & Hrm1 & Hd & Hs & Hcase).
  rewrite Hr. simpl. rewrite Hs, last_snoc. intros [= ->].
  destruct Hcase as [(_ & [->|Hend])|(p & e & _ & _ & Ht & _)]; try done.
  rewrite take_ge in Hrm1 by done. rewrite Hd. split; [done|].
  by destruct (remove_all_lookup deny d files d1 Hrm1).
Qed.

Lemma delete_finished_means_all_removed_witness :
  let r := DeletionWorker.run (DeletionWorker.mk ["f1"; "f3"])
             (DeletionWorker.start None Examples.three_files Examples.f2_locked
                Examples.seconds) in
  DeletionWorker.remove_all Examples.f2_locked Examples.three_files ["f1"; "f3"] =
    Some (DeletionWorker.disk (env (snd r))) /\
  forall p, p ∈ ["f1"; "f3"] -> DeletionWorker.disk (env (snd r)) !! p = None.
Proof.
  apply (delete_finished_means_all_removed ["f1"; "f3"] Examples.three_files
           Examples.f2_locked Examples.seconds).
  reflexivity.
Defined.

(** ** Archiving: what the runs leave at the destination *)

Section CompressionMore.
Import CompressionWorker.
Variable zip_bytes : list entry -> list Byte.byte.
Implicit Types w : World event os.
Implicit Types self : CompressionWorker.t.

Lemma futures_all_values self o :
  (forall f, f ∈ files_to_compress self -> ~ read_fails zip_bytes o f) ->
  (forall i, i < length (files_to_compress self) -> read_cancelled o i = false) ->
  Forall has_value (futures zip_bytes self o).
Proof.
  intros Hread Hrc. apply Forall_lookup. intros i fut Hi.
  unfold futures in Hi. rewrite list_lookup_imap in Hi.
  destruct (files_to_compress self !! i) as [f|] eqn:Hf; [|done].
  injection Hi as <-. unfold read_file.
  rewrite Hrc by (by eapply lookup_lt_Some).
  destruct (open_rb zip_bytes o (fst f)) as [e|data] eqn:Ho; [|by eexists].
  destruct (Hread f); [by eapply list_elem_of_lookup_2 | by exists e].
Qed.

Lemma no_raise_among_values (l : list (result entry)) e :
  Forall has_value l -> Raise e ∈ l -> False.
Proof.
  intros Hall Hin. rewrite Forall_forall in Hall.
  by destruct (Hall _ Hin) as [a Ha].
Qed.

(** The run of a worker whose reads all give a value and whose first
    [n + 1] checks find the flag unset gets to the opening of the
    archive. *)
Lemma compress_run_after_reads self cancel d rdeny wdeny flt rc choice :
  let w0 := start cancel d rdeny wdeny flt rc choice in
  let n := length (files_to_compress self) in
  let results := values (as_completed choice (futures zip_bytes self (env w0))) in
  Forall has_value (futures zip_bytes self (env w0)) ->
  uncancelled_for (n + 1) cancel ->
  exists w' t,
    run zip_bytes self w0 = (Ok tt, w') /\
    signals w' = progress_ticks n 0 n ++ [t] /\
    ((env w' = env w0 /\
      exists msg, wdeny (zip_path self) = Some msg /\ t = error msg) \/
     (wdeny (zip_path self) = None /\
      exists j body_t body_fd fd,
        env w' = mkOs (<[zip_path self := fd]> d) rdeny wdeny flt rc choice
                   [zip_path self] /\
        writes_go_through flt j /\
        ((j = n /\ uncancelled_for (n + 1 + n) cancel /\
          body_t = finished (zip_path self) /\
          body_fd = Archive (stored <$> results)) \/
         (j < n /\ cancel = Some (n + 1 + j) /\
          body_t = error cancel_message /\
          body_fd = Archive (stored <$> take j results)) \/
         (exists msg, j < n /\
            uncancelled_for (n + 1 + S j) cancel /\
            write_fault flt j = Some msg /\
            body_t = error msg /\ body_fd = left_after_fault flt)) /\
        match close_fault flt with
        | None => t = body_t /\ fd = body_fd
        | Some msg => t = error msg /\ fd = left_after_fault flt
        end)).
Proof.
  intros w0 n results Hall Hun.
  destruct (compress_run_cases zip_bytes self w0 eq_refl)
    as (w' & k & t & Hr & Hs & Hk & Hcase).
  exists w', t. split; [exact Hr|].
  destruct Hcase as [(_ & e & _ & Hcause)|[(_ & _ & -> & He & msg & Hdeny & ->)|
    (_ & _ & -> & Hdeny & Hrest)]].
  - exfalso. destruct Hcause as [(_ & j & Hj & Hc)|Hin].
    + simpl in Hc. subst cancel. simpl in Hun. fold n in Hj. lia.
    + by eapply no_raise_among_values.
  - split; [exact Hs|]. left. split; [done|]. by exists msg.
  - split; [exact Hs|]. right. split; [done|]. exact Hrest.
Qed.

(** *** The order in which the futures are yielded *)

Lemma complete_fmap {A B} (g : A -> B) n choice (l : list A) :
  complete n choice (g <$> l) = g <$> complete n choice l.
Proof.
  revert choice l; induction n as [|n IH]; intros choice l; [done|].
  cbn [complete]. rewrite length_fmap, list_lookup_fmap.
  destruct (l !! _) as [x|]; [|done]. simpl.
  by rewrite <- list_fmap_delete, IH.
Qed.

Lemma as_completed_fmap {A B} (g : A -> B) choice (l : list A) :
  as_completed choice (g <$> l) = g <$> as_completed choice l.
Proof. unfold as_completed. by rewrite length_fmap, complete_fmap. Qed.

Lemma futures_indexed self o :
  futures zip_bytes self o =
    (fun p => read_file zip_bytes o (fst p) (fst (snd p)) (snd (snd p)))
    <$> imap pair (files_to_compress self).
Proof. unfold futures. rewrite fmap_imap. by apply imap_ext. Qed.

Lemma snd_indexed {A} (l : list A) : snd <$> imap pair l = l.
Proof.
  rewrite fmap_imap. rewrite <- (list_fmap_id l) at 2.
  rewrite <- imap_const. by apply imap_ext.
Qed.

(** The values of reads, stored, are the entries that the pairs ask for,
    one after the other. *)
Lemma read_values_in_order o (l : list (nat * (string * string))) :
  let g := fun p => read_file zip_bytes o (fst p) (fst (snd p)) (snd (snd p)) in
  Forall has_value (g <$> l) ->
  Forall2 (entry_of zip_bytes (disk o)) (snd <$> l) (stored <$> values (g <$> l)).
Proof.
  intros g. induction l as [|[i f] l IH]; intros Hall; [constructor|].
  rewrite fmap_cons in Hall. apply Forall_cons in Hall as [[a Ha] Hall].
  unfold values. simpl. unfold g at 1. simpl. unfold g in Ha. simpl in Ha.
  rewrite Ha. simpl. constructor; [|by apply IH].
  unfold read_file in Ha. destruct (read_cancelled o i); [done|].
  destruct (open_rb zip_bytes o (fst f)) as [e|data] eqn:Ho; [done|].
  injection Ha as <-. split; [done|]. simpl. by apply open_rb_inr.
Qed.

End CompressionMore.

(** X10.  An archive run, however it ends, changes no path of the disk
    other than the destination. *)
Theorem archive_run_touches_only_destination
    (zip_bytes : list CompressionWorker.entry -> list Byte.byte)
    (self : CompressionWorker.t) (cancel : option nat)
    (d : gmap string CompressionWorker.fdata)
    (rdeny wdeny : string -> option string) (flt : CompressionWorker.faults)
    (rc : nat -> bool) (choice : list nat) (p : string) :
  p <> CompressionWorker.zip_path self ->
  CompressionWorker.disk
    (env (snd (CompressionWorker.run zip_bytes self
                 (CompressionWorker.start cancel d rdeny wdeny flt rc choice)))) !! p =
  d !! p.
Proof.
  intros Hp.
  destruct (compress_run_cases zip_bytes self
              (CompressionWorker.start cancel d rdeny wdeny flt rc choice) eq_refl)
    as (w' & k & t & Hr & _ & _ & Hcase).
  rewrite Hr. simpl.
  destruct Hcase as [(He & _)|[(_ & _ & _ & He & _)|
    (_ & _ & _ & _ & j & body_t & body_fd & fd & He & _)]];
    rewrite He; simpl; try done; by apply lookup_insert_ne.
Qed.

Lemma archive_run_touches_only_destination_witness :
  CompressionWorker.disk
    (env (snd (CompressionWorker.run Examples.no_zip_bytes
                 (CompressionWorker.mk Examples.two_pairs "C:\out.zip")
                 (CompressionWorker.start None Examples.two_sources Examples.allowed
                    Examples.allowed Examples.second_write_fails Examples.never
                    [1])))) !! "C:\recv\a.txt" =
  Examples.two_sources !! "C:\recv\a.txt".
Proof.
  apply (archive_run_touches_only_destination Examples.no_zip_bytes
           (CompressionWorker.mk Examples.two_pairs "C:\out.zip") None
           Examples.two_sources Examples.allowed Examples.allowed
           Examples.second_write_fails Examples.never [1] "C:\recv\a.txt").
  simpl. discriminate.
Defined.

(** X11.  When no read fails, no pool thread finds the flag set, the
    archive can be created, none of the [2 n + 1] checks of the worker
    finds the flag set, and neither a write nor the closing of the archive
    raises, the run succeeds: it emits [n] progress signals and
    [finished], and it leaves at the destination an archive whose entries
    are, up to order, the entries that the input asks for. *)
Theorem archive_run_succeeds
    (zip_bytes : list CompressionWorker.entry -> list Byte.byte)
    (self : CompressionWorker.t) (cancel : option nat)
    (d : gmap string CompressionWorker.fdata)
    (rdeny wdeny : string -> option string) (flt : CompressionWorker.faults)
    (rc : nat -> bool) (choice : list nat) :
  let w0 := CompressionWorker.start cancel d rdeny wdeny flt rc choice in
  let files := CompressionWorker.files_to_compress self in
  let n := length files in
  let r := CompressionWorker.run zip_bytes self w0 in
  (forall f, f ∈ files -> ~ CompressionWorker.read_fails zip_bytes (env w0) f) ->
  (forall i, i < n -> rc i = false) ->
  wdeny (CompressionWorker.zip_path self) = None ->
  uncancelled_for (2 * n + 1) cancel ->
  CompressionWorker.writes_go_through flt n ->
  CompressionWorker.close_fault flt = None ->
  fst r = Ok tt /\
  signals (snd r) =
    CompressionWorker.progress_ticks n 0 n
    ++ [CompressionWorker.finished (CompressionWorker.zip_path self)] /\
  exists es expected,
    CompressionWorker.disk (env (snd r)) =
      <[CompressionWorker.zip_path self := CompressionWorker.Archive es]> d /\
    Forall2 (CompressionWorker.entry_of zip_bytes d) files expected /\
    es ≡ₚ expected.
Proof.
  intros w0 files n r Hread Hrc Hw Hun Hwrites Hclose. subst r n files w0.
  set (w0 := CompressionWorker.start cancel d rdeny wdeny flt rc choice) in *.
  set (n := length (CompressionWorker.files_to_compress self)) in *.
  pose proof (futures_all_values zip_bytes self (env w0) Hread Hrc) as Hall.
  assert (Hun1 : uncancelled_for (n + 1) cancel)
    by (eapply uncancelled_for_le; [|exact Hun]; lia).
  destruct (compress_run_after_reads zip_bytes self cancel d rdeny wdeny flt rc
              choice Hall Hun1) as (w' & t & Hr & Hs & Hcase).
  fold w0 n in Hr, Hs, Hcase. rewrite Hr. simpl fst. simpl snd.
  destruct Hcase as [(_ & msg & Hdeny & _)|
    (_ & j & body_t & body_fd & fd & He & _ & Hbody & Hc)]; [congruence|].
  rewrite Hclose in Hc. destruct Hc as [-> ->].
  destruct Hbody as [(_ & _ & -> & ->)|[(Hj & -> & _)|(msg & Hj & _ & Hf & _)]].
  - split; [done|]. split; [exact Hs|].
    eexists _, _. rewrite He. simpl. split; [reflexivity|]. split.
    + by apply (futures_values zip_bytes self (env w0)).
    + apply fmap_Permutation. unfold CompressionWorker.values.
      by rewrite as_completed_Permutation.
  - simpl in Hun. lia.
  - rewrite Hwrites in Hf by done. done.
Qed.

Lemma archive_run_succeeds_witness :
  let r := CompressionWorker.run Examples.no_zip_bytes
             (CompressionWorker.mk Examples.two_pairs "C:\out.zip")
             (CompressionWorker.start (Some 5) Examples.two_sources Examples.allowed
                Examples.allowed Examples.no_faults Examples.never [1]) in
  fst r = Ok tt /\
  signals (snd r) =
    CompressionWorker.progress_ticks 2 0 2 ++ [CompressionWorker.finished "C:\out.zip"].
Proof.
  destruct (archive_run_succeeds Examples.no_zip_bytes
              (CompressionWorker.mk Examples.two_pairs "C:\out.zip") (Some 5)
              Examples.two_sources Examples.allowed Examples.allowed
              Examples.no_faults Examples.never [1]) as (Hok & Hs & _).
  - intros f Hf [e He]. simpl in Hf.
    apply elem_of_cons in Hf as [->|Hf].
    { vm_compute in He. discriminate He. }
    apply elem_of_cons in Hf as [->|Hf].
    { vm_compute in He. discriminate He. }
    by apply elem_of_nil in Hf.
  - reflexivity.
  - reflexivity.
  - simpl. lia.
  - intros k Hk. reflexivity.
  - reflexivity.
  - split; [exact Hok | exact Hs].
Defined.

(** X12.  The archive of a run that succeeds lists its entries in the
    order in which [as_completed] yielded the futures: entry [i] is the
    one that the [i]-th pair of that order asks for. *)
Theorem archive_entries_in_yield_order
    (zip_bytes : list CompressionWorker.entry -> list Byte.byte)
    (self : CompressionWorker.t) (cancel : option nat)
    (d : gmap string CompressionWorker.fdata)
    (rdeny wdeny : string -> option string) (flt : CompressionWorker.faults)
    (rc : nat -> bool) (choice : list nat) :
  let w0 := CompressionWorker.start cancel d rdeny wdeny flt rc choice in
  let files := CompressionWorker.files_to_compress self in
  let r := CompressionWorker.run zip_bytes self w0 in
  last (signals (snd r)) =
    Some (CompressionWorker.finished (CompressionWorker.zip_path self)) ->
  exists es,
    CompressionWorker.disk (env (snd r)) !! CompressionWorker.zip_path self =
      Some (CompressionWorker.Archive es) /\
    Forall2 (CompressionWorker.entry_of zip_bytes d)
      (CompressionWorker.as_completed choice files) es.
Proof.
  intros w0 files r. subst r files.
  destruct (compress_run_cases zip_bytes self w0 eq_refl)
    as (w' & k & t & Hr & Hs & Hk & Hcase).
  rewrite Hr. simpl snd. rewrite Hs, last_snoc. intros [= ->].
  destruct Hcase as [(_ & e & Ht & _)|[(_ & _ & _ & _ & msg & _ & Ht)|
    (Hall & _ & _ & _ & j & body_t & body_fd & fd & He & _ & Hbody & Hclose)]];
    [discriminate Ht..|].
  destruct (CompressionWorker.close_fault _); [by destruct Hclose|].
  destruct Hclose as [<- ->].
  destruct Hbody as [(_ & _ & _ & ->)|[(_ & _ & Ht & _)|(msg & _ & _ & _ & Ht & _)]];
    [|discriminate Ht..].
  eexists. rewrite He. simpl. split; [apply lookup_insert_eq|].
  rewrite <- (as_completed_Permutation choice) in Hall.
  rewrite futures_indexed, as_completed_fmap in Hall |- *.
  rewrite <- (snd_indexed (CompressionWorker.files_to_compress self)) at 1.
  rewrite as_completed_fmap.
  by apply (read_values_in_order zip_bytes (env w0)).
Qed.

Lemma archive_entries_in_yield_order_witness :
  let r := CompressionWorker.run Examples.no_zip_bytes
             (CompressionWorker.mk Examples.nested_pairs "C:\out.zip")
             (CompressionWorker.start None Examples.nested_sources Examples.allowed
                Examples.allowed Examples.no_faults Examples.never [1]) in
  exists es,
    CompressionWorker.disk (env (snd r)) !! "C:\out.zip" =
      Some (CompressionWorker.Archive es) /\
    Forall2 (CompressionWorker.entry_of Examples.no_zip_bytes Examples.nested_sources)
      [("C:\recv\b.jpg", "b.jpg"); ("C:\recv\sub\a.txt", "sub\a.txt")] es.
Proof.
  apply (archive_entries_in_yield_order Examples.no_zip_bytes
           (CompressionWorker.mk Examples.nested_pairs "C:\out.zip") None
           Examples.nested_sources Examples.allowed Examples.allowed
           Examples.no_faults Examples.never [1]).
  reflexivity.
Defined.

(** X13.  When the reads succeed and the archive is created, the writes of
    the first [j] entries go through, the flag is found set by the check
    that precedes the writing of entry [j], and the archive can be closed,
    the run ends with the cancellation error after [n] progress signals,
    and the destination holds an archive with exactly the [j] entries
    written so far, each of them an entry that the input asks for. *)
Theorem archive_cancelled_while_writing
    (zip_bytes : list CompressionWorker.entry -> list Byte.byte)
    (self : CompressionWorker.t) (j : nat)
    (d : gmap string CompressionWorker.fdata)
    (rdeny wdeny : string -> option string) (flt : CompressionWorker.faults)
    (rc : nat -> bool) (choice : list nat) :
  let files := CompressionWorker.files_to_compress self in
  let n := length files in
  let w0 := CompressionWorker.start (Some (n + 1 + j)) d rdeny wdeny flt rc choice in
  let r := CompressionWorker.run zip_bytes self w0 in
  (forall f, f ∈ files -> ~ CompressionWorker.read_fails zip_bytes (env w0) f) ->
  (forall i, i < n -> rc i = false) ->
  wdeny (CompressionWorker.zip_path self) = None ->
  j < n ->
  CompressionWorker.writes_go_through flt j ->
  CompressionWorker.close_fault flt = None ->
  fst r = Ok tt /\
  signals (snd r) =
    CompressionWorker.progress_ticks n 0 n
    ++ [CompressionWorker.error CompressionWorker.cancel_message] /\
  exists es,
    CompressionWorker.disk (env (snd r)) =
      <[CompressionWorker.zip_path self := CompressionWorker.Archive es]> d /\
    length es = j /\
    forall en, en ∈ es ->
      exists f, f ∈ files /\ CompressionWorker.entry_of zip_bytes d f en.
Proof.
  intros files n w0 r Hread Hrc Hw Hj Hwrites Hclose. subst r w0 n files.
  set (n := length (CompressionWorker.files_to_compress self)) in *.
  set (w0 := CompressionWorker.start (Some (n + 1 + j)) d rdeny wdeny flt rc choice) in *.
  pose proof (futures_all_values zip_bytes self (env w0) Hread Hrc) as Hall.
  assert (Hun1 : uncancelled_for (n + 1) (Some (n + 1 + j))) by (simpl; lia).
  destruct (compress_run_after_reads zip_bytes self (Some (n + 1 + j)) d rdeny
              wdeny flt rc choice Hall Hun1) as (w' & t & Hr & Hs & Hcase).
  fold w0 n in Hr, Hs, Hcase. rewrite Hr. simpl fst. simpl snd.
  destruct Hcase as [(_ & msg & Hdeny & _)|
    (_ & i & body_t & body_fd & fd & He & _ & Hbody & Hc)]; [congruence|].
  rewrite Hclose in Hc. destruct Hc as [-> ->].
  set (results := CompressionWorker.values
                    (CompressionWorker.as_completed choice
                       (CompressionWorker.futures zip_bytes self (env w0)))) in *.
  assert (Hperm : results ≡ₚ
            CompressionWorker.values (CompressionWorker.futures zip_bytes self (env w0))).
  { unfold results, CompressionWorker.values. by rewrite as_completed_Permutation. }
  assert (Hlen : length results = n).
  { rewrite Hperm, length_values by done.
    unfold CompressionWorker.futures. apply length_imap. }
  destruct Hbody as [(_ & Hu & _)|[(Hi & [= Hij] & -> & ->)|(msg & Hi & Hu & Hf & _)]].
  - simpl in Hu. lia.
  - assert (i = j) as -> by lia.
    split; [done|]. split; [exact Hs|].
    eexists. rewrite He. simpl. split; [reflexivity|].
    split; [rewrite length_fmap, length_take; lia|].
    intros en (v & -> & Hv)%list_elem_of_fmap.
    apply elem_of_take in Hv as (i & Hi' & _).
    apply list_elem_of_lookup_2 in Hi'. rewrite Hperm in Hi'.
    pose proof (futures_values zip_bytes self (env w0) Hall) as Hf2.
    apply (list_elem_of_fmap_2 CompressionWorker.stored) in Hi'.
    apply list_elem_of_lookup in Hi' as (i' & Hi').
    destruct (Forall2_lookup_r _ _ _ _ _ Hf2 Hi') as (f & Hf & Hent).
    exists f. split; [by eapply list_elem_of_lookup_2 | done].
  - simpl in Hu. rewrite Hwrites in Hf by lia. done.
Qed.

Lemma archive_cancelled_while_writing_witness :
  let r := CompressionWorker.run Examples.no_zip_bytes
             (CompressionWorker.mk Examples.two_pairs "C:\out.zip")
             (CompressionWorker.start (Some (2 + 1 + 1)) Examples.two_sources
                Examples.allowed Examples.allowed Examples.second_write_fails
                Examples.never []) in
  signals (snd r) =
    CompressionWorker.progress_ticks 2 0 2
    ++ [CompressionWorker.error CompressionWorker.cancel_message] /\
  exists es,
    CompressionWorker.disk (env (snd r)) =
      <["C:\out.zip" := CompressionWorker.Archive es]> Examples.two_sources /\
    length es = 1.
Proof.
  destruct (archive_cancelled_while_writing Examples.no_zip_bytes
              (CompressionWorker.mk Examples.two_pairs "C:\out.zip") 1
              Examples.two_sources Examples.allowed Examples.allowed
              Examples.second_write_fails Examples.never [])
    as (_ & Hs & es & Hd & Hl & _).
  - intros f Hf [e He]. simpl in Hf.
    apply elem_of_cons in Hf as [->|Hf].
    { vm_compute in He. discriminate He. }
    apply elem_of_cons in Hf as [->|Hf].
    { vm_compute in He. discriminate He. }
    by apply elem_of_nil in Hf.
  - reflexivity.
  - reflexivity.
  - simpl. lia.
  - intros k Hk. assert (k = 0) as -> by lia. reflexivity.
  - reflexivity.
  - split; [exact Hs | exists es; split; [exact Hd | exact Hl]].
Defined.

(** X22.  When the reads succeed and the archive is created, the writes of
    the first [j] entries go through and no check up to the one that
    precedes entry [j] finds the flag set, and the write of entry [j]
    raises, the run ends, after [n] progress signals, with an [error] that
    carries the message of that write (when the archive can still be
    closed) or the message of the failed close; [finished] is not
    emitted. *)
Theorem archive_write_failure
    (zip_bytes : list CompressionWorker.entry -> list Byte.byte)
    (self : CompressionWorker.t) (cancel : option nat) (j : nat)
    (d : gmap string CompressionWorker.fdata)
    (rdeny wdeny : string -> option string) (flt : CompressionWorker.faults)
    (rc : nat -> bool) (choice : list nat) (msg : string) :
  let files := CompressionWorker.files_to_compress self in
  let n := length files in
  let w0 := CompressionWorker.start cancel d rdeny wdeny flt rc choice in
  let r := CompressionWorker.run zip_bytes self w0 in
  (forall f, f ∈ files -> ~ CompressionWorker.read_fails zip_bytes (env w0) f) ->
  (forall i, i < n -> rc i = false) ->
  wdeny (CompressionWorker.zip_path self) = None ->
  j < n ->
  uncancelled_for (n + 1 + S j) cancel ->
  CompressionWorker.writes_go_through flt j ->
  CompressionWorker.write_fault flt j = Some msg ->
  fst r = Ok tt /\
  signals (snd r) =
    CompressionWorker.progress_ticks n 0 n
    ++ [CompressionWorker.error
          (default msg (CompressionWorker.close_fault flt))] /\
  CompressionWorker.disk (env (snd r)) =
    <[CompressionWorker.zip_path self := CompressionWorker.left_after_fault flt]> d.
Proof.
  intros files n w0 r Hread Hrc Hw Hj Hun Hwrites Hfault. subst r w0 n files.
  set (n := length (CompressionWorker.files_to_compress self)) in *.
  set (w0 := CompressionWorker.start cancel d rdeny wdeny flt rc choice) in *.
  pose proof (futures_all_values zip_bytes self (env w0) Hread Hrc) as Hall.
  assert (Hun1 : uncancelled_for (n + 1) cancel)
    by (eapply uncancelled_for_le; [|exact Hun]; lia).
  destruct (compress_run_after_reads zip_bytes self cancel d rdeny wdeny flt rc
              choice Hall Hun1) as (w' & t & Hr & Hs & Hcase).
  fold w0 n in Hr, Hs, Hcase. rewrite Hr. simpl fst. simpl snd.
  destruct Hcase as [(_ & msg' & Hdeny & _)|
    (_ & i & body_t & body_fd & fd & He & Hwi & Hbody & Hc)]; [congruence|].
  assert (Hbt : body_t = CompressionWorker.error msg /\
                body_fd = CompressionWorker.left_after_fault flt).
  { destruct Hbody as [(-> & _)|[(Hi & -> & _)|(msg' & Hi & Hu & Hf & -> & ->)]].
    - rewrite Hwi in Hfault by lia. done.
    - simpl in Hun. rewrite Hwi in Hfault by lia. done.
    - destruct (decide (i = j)) as [->|Hne]; [split; congruence|].
      destruct (decide (i < j)) as [Hlt|Hge].
      + rewrite Hwrites in Hf by done. done.
      + rewrite Hwi in Hfault by lia. done. }
  destruct Hbt as [-> ->].
  split; [done|]. rewrite He, Hs. simpl.
  destruct (CompressionWorker.close_fault flt) as [cmsg|];
    destruct Hc as [-> ->]; done.
Qed.

Lemma archive_write_failure_witness :
  let r := CompressionWorker.run Examples.no_zip_bytes
             (CompressionWorker.mk Examples.two_pairs "C:\out.zip")
             (CompressionWorker.start None Examples.two_sources Examples.allowed
                Examples.allowed Examples.second_write_fails Examples.never []) in
  signals (snd r) =
    CompressionWorker.progress_ticks 2 0 2
    ++ [CompressionWorker.error "[Errno 28] No space left on device"].
Proof.
  destruct (archive_write_failure Examples.no_zip_bytes
              (CompressionWorker.mk Examples.two_pairs "C:\out.zip") None 1
              Examples.two_sources Examples.allowed Examples.allowed
              Examples.second_write_fails Examples.never []
              "[Errno 28] No space left on device")
    as (_ & Hs & _).
  - intros f Hf [e He]. simpl in Hf.
    apply elem_of_cons in Hf as [->|Hf].
    { vm_compute in He. discriminate He. }
    apply elem_of_cons in Hf as [->|Hf].
    { vm_compute in He. discriminate He. }
    by apply elem_of_nil in Hf.
  - reflexivity.
  - reflexivity.
  - simpl. lia.
  - exact I.
  - intros k Hk. assert (k = 0) as -> by lia. reflexivity.
  - reflexivity.
  - exact Hs.
Defined.

(** X14.  When the reads succeed and the flag is not found set before the
    archive is opened, and the system refuses to create the archive, the
    run ends, after [n] progress signals, with an [error] that carries the
    message of the system, and nothing on disk has changed. *)
Theorem archive_creation_refused
    (zip_bytes : list CompressionWorker.entry -> list Byte.byte)
    (self : CompressionWorker.t) (cancel : option nat)
    (d : gmap string CompressionWorker.fdata)
    (rdeny wdeny : string -> option string) (flt : CompressionWorker.faults)
    (rc : nat -> bool) (choice : list nat) (msg : string) :
  let w0 := CompressionWorker.start cancel d rdeny wdeny flt rc choice in
  let files := CompressionWorker.files_to_compress self in
  let n := length files in
  let r := CompressionWorker.run zip_bytes self w0 in
  (forall f, f ∈ files -> ~ CompressionWorker.read_fails zip_bytes (env w0) f) ->
  (forall i, i < n -> rc i = false) ->
  uncancelled_for (n + 1) cancel ->
  wdeny (CompressionWorker.zip_path self) = Some msg ->
  fst r = Ok tt /\
  signals (snd r) =
    CompressionWorker.progress_ticks n 0 n ++ [CompressionWorker.error msg] /\
  env (snd r) = env w0.
Proof.
  intros w0 files n r Hread Hrc Hun Hw. subst r n files w0.
  pose proof (futures_all_values zip_bytes self _ Hread Hrc) as Hall.
  destruct (compress_run_after_reads zip_bytes self cancel d rdeny wdeny flt rc
              choice Hall Hun) as (w' & t & Hr & Hs & Hcase).
  rewrite Hr. simpl fst. simpl snd.
  destruct Hcase as [(He & msg' & Hdeny & ->)|(Hdeny & _)]; [|congruence].
  assert (msg' = msg) as -> by congruence. done.
Qed.

Lemma archive_creation_refused_witness :
  let r := CompressionWorker.run Examples.no_zip_bytes
             (CompressionWorker.mk Examples.two_pairs "f2")
             (CompressionWorker.start None Examples.two_sources Examples.allowed
                Examples.f2_locked Examples.no_faults Examples.never []) in
  signals (snd r) =
    CompressionWorker.progress_ticks 2 0 2
    ++ [CompressionWorker.error "[WinError 5] Access is denied: 'f2'"] /\
  CompressionWorker.disk (env (snd r)) = Examples.two_sources.
Proof.
  destruct (archive_creation_refused Examples.no_zip_bytes
              (CompressionWorker.mk Examples.two_pairs "f2") None
              Examples.two_sources Examples.allowed Examples.f2_locked
              Examples.no_faults Examples.never []
              "[WinError 5] Access is denied: 'f2'")
    as (_ & Hs & He).
  - intros f Hf [e He]. simpl in Hf.
    apply elem_of_cons in Hf as [->|Hf].
    { vm_compute in He. discriminate He. }
    apply elem_of_cons in Hf as [->|Hf].
    { vm_compute in He. discriminate He. }
    by apply elem_of_nil in Hf.
  - reflexivity.
  - exact I.
  - reflexivity.
  - split; [exact Hs | by rewrite He].
Defined.

(** ** The window: what holds in every reachable state *)

Section WindowInvariants.
Import MainWindow Tasks.

Lemma count_kind_app k l1 l2 :
  count_kind k (l1 ++ l2) = count_kind k l1 + count_kind k l2.
Proof. unfold count_kind. by rewrite List.filter_app, length_app. Qed.

Lemma is_running_count k g :
  is_running k g = true <-> 1 <= count_kind k (running g).
Proof.
  unfold is_running, count_kind. induction (running g) as [|wk l IH]; simpl.
  - split; [done | lia].
  - destruct (kind_eqb (kind_of wk) k); simpl; [split; [lia | done] | exact IH].
Qed.

Lemma retire_count_same k l :
  1 <= count_kind k l -> count_kind k (retire k l) = count_kind k l - 1.
Proof.
  unfold count_kind. induction l as [|wk l IH]; simpl; [lia|].
  destruct (kind_eqb (kind_of wk) k) eqn:Hk; simpl.
  - lia.
  - rewrite Hk. exact IH.
Qed.

Lemma retire_count_other k k' l :
  kind_eqb k' k = false -> count_kind k' (retire k l) = count_kind k' l.
Proof.
  intros Hne. unfold count_kind. induction l as [|wk l IH]; simpl; [done|].
  destruct (kind_eqb (kind_of wk) k) eqn:Hk; simpl.
  - destruct (kind_eqb (kind_of wk) k') eqn:Hk'; [|done].
    destruct (kind_of wk), k, k'; discriminate.
  - destruct (kind_eqb (kind_of wk) k'); simpl; by rewrite IH.
Qed.

Lemma retire_subset k l wk : wk ∈ retire k l -> wk ∈ l.
Proof.
  induction l as [|x l IH]; simpl; [done|].
  destruct (kind_eqb (kind_of x) k); [by right|].
  intros [->|H]%elem_of_cons; [left | right; by apply IH].
Qed.

Lemma nonempty_ne {A} (l : list A) : PyStr.nonempty l = true -> l <> [].
Proof. by destruct l. Qed.

(** What the slots that start a task do: nothing, or start one worker that
    has input. *)
Lemma start_search_cases g text :
  start_search g text = reset_search g \/
  exists term, term <> "" /\
    start_search g text =
      start_worker g (SearchW (SearchWorker.files_for_search (file_items g)) term)
        false (btn_compress_enabled g) (btn_clear_all_enabled g)
        (btn_clear_selected_enabled g).
Proof.
  unfold start_search.
  destruct (String.eqb_spec (PyStr.ascii_strip text) ""); [by left|].
  right. by eexists.
Qed.

Lemma compress_files_cases g reply_yes chosen :
  compress_files g reply_yes chosen = g \/
  exists files, files <> [] /\ chosen <> "" /\
    compress_files g reply_yes chosen =
      start_worker g (CompressionW files chosen)
        (search_button_enabled g) false (btn_clear_all_enabled g)
        (btn_clear_selected_enabled g).
Proof.
  unfold compress_files.
  match goal with |- context [match ?o with Some _ => _ | None => _ end] =>
    destruct o as [files|]
  end; [|by left].
  destruct (PyStr.nonempty files) eqn:Hne; simpl; [|by left].
  destruct (String.eqb_spec chosen ""); [by left|].
  right. exists files. split_and!; [by apply nonempty_ne|done|done].
Qed.

Lemma start_delete_all_cases g reply_yes :
  start_delete_all g reply_yes = g \/
  exists files, files <> [] /\ start_delete_all g reply_yes = start_deletion g files.
Proof.
  unfold start_delete_all.
  match goal with |- context [PyStr.nonempty ?l] =>
    destruct (PyStr.nonempty l) eqn:Hne
  end; simpl; [|by left].
  destruct reply_yes; simpl; [|by left].
  right. eexists. split; [by apply nonempty_ne | done].
Qed.

Lemma start_delete_selected_cases g reply_yes :
  start_delete_selected g reply_yes = g \/
  exists files, files <> [] /\
    start_delete_selected g reply_yes = start_deletion g files.
Proof.
  unfold start_delete_selected.
  match goal with |- context [PyStr.nonempty ?l] =>
    destruct (PyStr.nonempty l) eqn:Hne
  end; simpl; [|by left].
  destruct reply_yes; simpl; [|by left].
  right. eexists. split; [by apply nonempty_ne | done].
Qed.

Lemma step_preserves_buttons g a :
  buttons_track_workers g -> buttons_track_workers (step g a).
Proof.
  intros (Hc & Hd & Hs). unfold buttons_track_workers.
  destruct a; cbn [step].
  - destruct (search_button_enabled g); [|done].
    destruct (start_search_cases g text) as [->|(term & _ & ->)]; [done|].
    simpl. rewrite !count_kind_app. simpl. rewrite !Nat.add_0_r. done.
  - destruct (start_search_cases g text) as [->|(term & _ & ->)]; [done|].
    simpl. rewrite !count_kind_app. simpl. rewrite !Nat.add_0_r. done.
  - destruct (btn_compress_enabled g) eqn:He; [|by rewrite He].
    destruct (compress_files_cases g reply_yes chosen_zip_path)
      as [->|(files & _ & _ & ->)]; [by rewrite He|].
    simpl. rewrite !count_kind_app. simpl. rewrite Hc, Hd, ?Nat.add_0_r. by repeat split.
  - destruct (btn_clear_all_enabled g) eqn:He; [|by rewrite He].
    destruct (start_delete_all_cases g reply_yes) as [->|(files & _ & ->)];
      [by rewrite He|].
    simpl. rewrite !count_kind_app. simpl. rewrite Hc, Hd, ?Nat.add_0_r. by repeat split.
  - destruct (btn_clear_selected_enabled g) eqn:He; [|split_and!; congruence].
    symmetry in Hs.
    destruct (start_delete_selected_cases g reply_yes) as [->|(files & _ & ->)];
      [split_and!; congruence|].
    rewrite Hs in Hd.
    simpl. rewrite !count_kind_app. simpl. rewrite Hc, Hd, ?Nat.add_0_r. by repeat split.
  - destruct (cancel_button_visible g); [|done].
    unfold cancel_operation. by destruct (active_worker g).
  - destruct (is_running Search g) eqn:Hr; [|done]. simpl.
    by rewrite !retire_count_other.
  - destruct (is_running Compression g) eqn:Hr; [|done]. simpl.
    apply is_running_count in Hr.
    rewrite retire_count_same, retire_count_other by done.
    destruct (btn_compress_enabled g); [lia|]. rewrite Hc. done.
  - destruct (is_running Compression g) eqn:Hr; [|done]. simpl.
    apply is_running_count in Hr.
    rewrite retire_count_same, retire_count_other by done.
    destruct (btn_compress_enabled g); [lia|]. rewrite Hc. done.
  - destruct (is_running Deletion g) eqn:Hr; [|done]. simpl.
    apply is_running_count in Hr.
    rewrite retire_count_same, retire_count_other by done.
    destruct (btn_clear_all_enabled g); [lia|]. rewrite Hd. done.
  - destruct (is_running Deletion g) eqn:Hr; [|done]. simpl.
    apply is_running_count in Hr.
    rewrite retire_count_same, retire_count_other by done.
    destruct (btn_clear_all_enabled g); [lia|]. rewrite Hd. done.
Qed.

Lemma step_preserves_search_button g a :
  is_return a = false ->
  search_button_tracks_worker g -> search_button_tracks_worker (step g a).
Proof.
  intros Ha Hs. unfold search_button_tracks_worker in *.
  destruct a; cbn [step]; try discriminate Ha.
  - destruct (search_button_enabled g) eqn:He; [|by rewrite He].
    destruct (start_search_cases g text) as [->|(term & _ & ->)];
      [simpl; by rewrite He|].
    simpl. rewrite count_kind_app, Hs. reflexivity.
  - destruct (btn_compress_enabled g); [|done].
    destruct (compress_files_cases g reply_yes chosen_zip_path)
      as [->|(files & _ & _ & ->)]; [done|].
    simpl. rewrite count_kind_app, Hs. simpl. by rewrite Nat.add_0_r.
  - destruct (btn_clear_all_enabled g); [|done].
    destruct (start_delete_all_cases g reply_yes) as [->|(files & _ & ->)]; [done|].
    simpl. rewrite count_kind_app, Hs. simpl. by rewrite Nat.add_0_r.
  - destruct (btn_clear_selected_enabled g); [|done].
    destruct (start_delete_selected_cases g reply_yes) as [->|(files & _ & ->)];
      [done|].
    simpl. rewrite count_kind_app, Hs. simpl. by rewrite Nat.add_0_r.
  - destruct (cancel_button_visible g); [|done].
    unfold cancel_operation. by destruct (active_worker g).
  - destruct (is_running Search g) eqn:Hr; [|done]. simpl.
    apply is_running_count in Hr. rewrite retire_count_same by done.
    destruct (search_button_enabled g); [lia|]. by rewrite Hs.
  - destruct (is_running Compression g); [|done]. simpl.
    by rewrite retire_count_other.
  - destruct (is_running Compression g); [|done]. simpl.
    by rewrite retire_count_other.
  - destruct (is_running Deletion g); [|done]. simpl.
    by rewrite retire_count_other.
  - destruct (is_running Deletion g); [|done]. simpl.
    by rewrite retire_count_other.
Qed.

Lemma start_worker_has_input g wk a b c e :
  workers_have_input g -> has_input wk ->
  workers_have_input (start_worker g wk a b c e).
Proof.
  intros Hg Hwk x. simpl. intros [Hx|Hx]%elem_of_app; [by apply Hg|].
  by apply list_elem_of_singleton in Hx as ->.
Qed.

Lemma step_preserves_input g a :
  workers_have_input g -> workers_have_input (step g a).
Proof.
  intros Hg. destruct a; cbn [step].
  - destruct (search_button_enabled g); [|done].
    destruct (start_search_cases g text) as [->|(term & Ht & ->)]; [done|].
    by apply start_worker_has_input.
  - destruct (start_search_cases g text) as [->|(term & Ht & ->)]; [done|].
    by apply start_worker_has_input.
  - destruct (btn_compress_enabled g); [|done].
    destruct (compress_files_cases g reply_yes chosen_zip_path)
      as [->|(files & Hf & Hz & ->)]; [done|].
    by apply start_worker_has_input.
  - destruct (btn_clear_all_enabled g); [|done].
    destruct (start_delete_all_cases g reply_yes) as [->|(files & Hf & ->)]; [done|].
    by apply start_worker_has_input.
  - destruct (btn_clear_selected_enabled g); [|done].
    destruct (start_delete_selected_cases g reply_yes) as [->|(files & Hf & ->)];
      [done|].
    by apply start_worker_has_input.
  - destruct (cancel_button_visible g); [|done].
    unfold cancel_operation. by destruct (active_worker g).
  - destruct (is_running Search g); [|done].
    intros wk Hwk. simpl in Hwk. by apply Hg, (retire_subset Search).
  - destruct (is_running Compression g); [|done].
    intros wk Hwk. simpl in Hwk. by apply Hg, (retire_subset Compression).
  - destruct (is_running Compression g); [|done].
    intros wk Hwk. simpl in Hwk. by apply Hg, (retire_subset Compression).
  - destruct (is_running Deletion g); [|done].
    intros wk Hwk. simpl in Hwk. by apply Hg, (retire_subset Deletion).
  - destruct (is_running Deletion g); [|done].
    intros wk Hwk. simpl in Hwk. by apply Hg, (retire_subset Deletion).
Qed.

Lemma step_preserves_active g a :
  active_is_last_started g -> active_is_last_started (step g a).
Proof.
  intros Hg. unfold active_is_last_started.
  assert (Hstart : forall wk x b c e wk',
            active_worker (start_worker g wk x b c e) = Some wk' ->
            last (running (start_worker g wk x b c e)) = Some wk').
  { intros wk x b c e wk'. simpl. intros [= <-]. apply last_snoc. }
  destruct a; cbn [step].
  - destruct (search_button_enabled g); [|done].
    destruct (start_search_cases g text) as [->|(term & Ht & ->)]; [done|].
    apply Hstart.
  - destruct (start_search_cases g text) as [->|(term & Ht & ->)]; [done|].
    apply Hstart.
  - destruct (btn_compress_enabled g); [|done].
    destruct (compress_files_cases g reply_yes chosen_zip_path)
      as [->|(files & Hf & Hz & ->)]; [done|].
    apply Hstart.
  - destruct (btn_clear_all_enabled g); [|done].
    destruct (start_delete_all_cases g reply_yes) as [->|(files & Hf & ->)]; [done|].
    apply Hstart.
  - destruct (btn_clear_selected_enabled g); [|done].
    destruct (start_delete_selected_cases g reply_yes) as [->|(files & Hf & ->)];
      [done|].
    apply Hstart.
  - destruct (cancel_button_visible g); [|done].
    unfold cancel_operation. destruct (active_worker g) eqn:Ha; [|done].
    simpl. intros wk' [= <-]. by apply Hg.
  - by destruct (is_running Search g).
  - by destruct (is_running Compression g).
  - by destruct (is_running Compression g).
  - by destruct (is_running Deletion g).
  - by destruct (is_running Deletion g).
Qed.

Lemma steps_preserve (P : gui -> Prop) g l :
  (forall g a, P g -> P (step g a)) -> P g -> P (steps g l).
Proof.
  intros Hstep. unfold steps. revert g; induction l as [|a l IH]; intros g Hg;
    [done|]. simpl. by apply IH, Hstep.
Qed.

End WindowInvariants.

(** X15.  Whatever the user and the workers do, the window never runs two
    archive workers at once, nor two delete workers: the compress button
    and the two delete buttons are disabled exactly while a worker of their
    kind runs. *)
Theorem window_runs_one_archive_and_one_delete_worker
    (items : list Enumerator.file_item) (actions : list MainWindow.action) :
  let g := MainWindow.steps (MainWindow.init items) actions in
  Tasks.count_kind MainWindow.Compression (MainWindow.running g) <= 1 /\
  Tasks.count_kind MainWindow.Deletion (MainWindow.running g) <= 1 /\
  Tasks.buttons_track_workers g.
Proof.
  intros g.
  assert (H : Tasks.buttons_track_workers g).
  { apply steps_preserve; [apply step_preserves_buttons|by repeat split]. }
  split_and!; [| |done]; destruct H as (Hc & Hd & _).
  - rewrite Hc. by destruct (MainWindow.btn_compress_enabled g); lia.
  - rewrite Hd. by destruct (MainWindow.btn_clear_all_enabled g); lia.
Qed.

(** X16.  As long as the Return key is not pressed in the search input,
    the window never runs two search workers at once: the search button is
    disabled exactly while a search worker runs. *)
Theorem window_runs_one_search_worker_without_return
    (items : list Enumerator.file_item) (actions : list MainWindow.action) :
  Forall (fun a => Tasks.is_return a = false) actions ->
  let g := MainWindow.steps (MainWindow.init items) actions in
  Tasks.count_kind MainWindow.Search (MainWindow.running g) <= 1 /\
  Tasks.search_button_tracks_worker g.
Proof.
  intros Hret g.
  assert (H : Tasks.search_button_tracks_worker g).
  { subst g. generalize (MainWindow.init items) (eq_refl :
      Tasks.search_button_tracks_worker (MainWindow.init items)).
    induction Hret as [|a l Ha _ IH]; intros g0 Hg0; [done|].
    apply IH. by apply step_preserves_search_button. }
  split; [|done]. unfold Tasks.search_button_tracks_worker in H. rewrite H.
  by destruct (MainWindow.search_button_enabled g); lia.
Qed.

Lemma window_runs_one_search_worker_without_return_witness :
  Tasks.count_kind MainWindow.Search
    (MainWindow.running
       (MainWindow.steps (MainWindow.init Examples.flat_items)
          [MainWindow.search_button_clicked "hello";
           MainWindow.search_button_clicked "world"])) <= 1.
Proof.
  apply (window_runs_one_search_worker_without_return Examples.flat_items
           [MainWindow.search_button_clicked "hello";
            MainWindow.search_button_clicked "world"]).
  repeat constructor.
Defined.

(** X17.  The window never starts a worker without input: every running
    search worker has a non-empty term, every archive worker a non-empty
    list of files and a destination, every delete worker a non-empty list
    of paths. *)
Theorem window_starts_workers_with_input
    (items : list Enumerator.file_item) (actions : list MainWindow.action)
    (wk : MainWindow.worker) :
  wk ∈ MainWindow.running (MainWindow.steps (MainWindow.init items) actions) ->
  Tasks.has_input wk.
Proof.
  revert wk. change (Tasks.workers_have_input
                       (MainWindow.steps (MainWindow.init items) actions)).
  apply steps_preserve; [apply step_preserves_input|].
  intros wk Hwk. by apply elem_of_nil in Hwk.
Qed.

Lemma window_starts_workers_with_input_witness :
  Tasks.has_input (MainWindow.DeletionW ["C:\recv\a.txt"; "C:\recv\b.jpg"]).
Proof.
  apply (window_starts_workers_with_input Examples.flat_items
           [MainWindow.btn_clear_all_clicked true]).
  left.
Defined.

(** X18.  The cancel button reaches only the worker that was started
    last: a click on it requests the cancellation of that worker, or of
    none. *)
Theorem cancel_reaches_last_started_worker
    (items : list Enumerator.file_item) (actions : list MainWindow.action) :
  let g := MainWindow.steps (MainWindow.init items) actions in
  let g' := MainWindow.step g MainWindow.cancel_button_clicked in
  MainWindow.running g' = MainWindow.running g /\
  (MainWindow.cancel_requested g' = MainWindow.cancel_requested g \/
   exists wk, last (MainWindow.running g) = Some wk /\
     MainWindow.cancel_requested g' = MainWindow.cancel_requested g ++ [wk]).
Proof.
  intros g g'.
  assert (H : Tasks.active_is_last_started g).
  { apply steps_preserve; [apply step_preserves_active|]. by intros wk. }
  subst g'. cbn [MainWindow.step].
  destruct (MainWindow.cancel_button_visible g); [|by split; [|left]].
  unfold MainWindow.cancel_operation.
  destruct (MainWindow.active_worker g) as [wk|] eqn:Ha; [|by split; [|left]].
  simpl. split; [done|]. right. exists wk. split; [by apply H | done].
Qed.

(** ** Sizes *)

Lemma kibi_S k : (Format.kibi (S k) == 1024 * Format.kibi k)%Q.
Proof.
  unfold Format.kibi. rewrite Nat2Z.inj_succ, Z.pow_succ_r by lia.
  by rewrite inject_Z_mult.
Qed.

Lemma kibi_pos k : (0 < Format.kibi k)%Q.
Proof.
  unfold Format.kibi. change 0%Q with (inject_Z 0). rewrite <- Zlt_Qlt.
  apply Z.pow_pos_nonneg; lia.
Qed.

Lemma Qdiv_one (x : Q) : (x / 1 == x)%Q.
Proof. field. Qed.

Lemma kibi_nonzero k : ~ (Format.kibi k == 0)%Q.
Proof.
  intros Hz. pose proof (kibi_pos k) as Hp. rewrite Hz in Hp.
  by apply Qlt_irrefl in Hp.
Qed.

Lemma format_size_from_spec fmt2 units size :
  exists k v,
    k <= length units /\
    Format.format_size_from fmt2 units size =
      fmt2 v +:+ " " +:+ nth k units "PB" /\
    (v == size / Format.kibi k)%Q /\
    (k < length units -> (v < 1024)%Q) /\
    (0 < k -> (1 <= v)%Q).
Proof.
  revert size; induction units as [|unit rest IH]; intros size.
  - exists 0, size. simpl. split_and!; [done|done| |lia|lia].
    symmetry. apply Qdiv_one.
  - cbn [Format.format_size_from].
    destruct (Qlt_le_dec size 1024) as [Hlt|Hge].
    + pose proof (proj1 (Qlt_alt size 1024) Hlt) as Hc. rewrite Hc.
      exists 0, size. simpl. split_and!; [lia|done| |done|lia].
      symmetry. apply Qdiv_one.
    + pose proof (proj1 (Qge_alt size 1024) Hge) as Hcmp.
      destruct (IH (size / 1024)%Q) as (k & v & Hk & Heq & Hv & Hlt & Hpos).
      assert (Hgoal : exists k v,
                k <= length (unit :: rest) /\
                Format.format_size_from fmt2 rest (size / 1024) =
                  fmt2 v +:+ " " +:+ nth k (unit :: rest) "PB" /\
                (v == size / Format.kibi k)%Q /\
                (k < length (unit :: rest) -> (v < 1024)%Q) /\
                (0 < k -> (1 <= v)%Q)).
      { exists (S k), v. simpl. split_and!; [lia|done| |intros; apply Hlt; lia|].
        - rewrite Hv, kibi_S. field. apply kibi_nonzero.
        - intros _. destruct k as [|k]; [|apply Hpos; lia].
          rewrite Hv. unfold Format.kibi. simpl.
          apply Qle_shift_div_l; [reflexivity|]. rewrite Qmult_1_l.
          apply Qle_shift_div_l; [reflexivity|]. by rewrite Qmult_1_l. }
      destruct (size ?= 1024)%Q; [exact Hgoal | done | exact Hgoal].
Qed.

(** X19.  [format_size] renders the size divided by [1024 ^ k] with the
    [k]-th unit of B, KB, MB, GB, TB, PB, where [k] is the number of
    divisions made: the rendered number is below 1024 unless the unit is
    PB, and at least 1 unless the unit is B. *)
Theorem format_size_scales (fmt2 : Q -> string) (size : Q) :
  exists k v,
    k <= 5 /\
    Format.format_size fmt2 size = fmt2 v +:+ " " +:+ Format.unit_name k /\
    (v == size / Format.kibi k)%Q /\
    (k < 5 -> (v < 1024)%Q) /\
    (0 < k -> (1 <= v)%Q).
Proof.
  destruct (format_size_from_spec fmt2 ["B"; "KB"; "MB"; "GB"; "TB"] size)
    as (k & v & Hk & Heq & Hv & Hlt & Hpos).
  exists k, v. split_and!; done.
Qed.

Lemma format_size_scales_witness :
  exists k v,
    k <= 5 /\
    Format.format_size (fun _ => "2.00") (inject_Z 2048) =
      "2.00" +:+ " " +:+ Format.unit_name k /\
    (v == inject_Z 2048 / Format.kibi k)%Q /\
    (k < 5 -> (v < 1024)%Q) /\
    (0 < k -> (1 <= v)%Q).
Proof.
  destruct (format_size_scales (fun _ => "2.00") (inject_Z 2048))
    as (k & v & H). by exists k, v.
Defined.

(** ** The filtered list *)

(** X20.  When the file list of the window is still the one that the
    search worker was started with (no refresh and no end of a delete run
    has rebuilt it in between), then, after the window has consumed the
    results of the run, cancelled or not, every item that is still shown
    holds the term, case-insensitively, in its base name or in a line of
    its file. *)
Theorem filtered_list_shows_only_matches (lower rstrip : string -> string)
    (g : MainWindow.gui) (files : list (string * string)) (term : string)
    (cancel : option nat) (fs : string -> SearchWorker.text_read)
    (i : nat) (it : Enumerator.file_item) :
  files = SearchWorker.files_for_search (MainWindow.file_items g) ->
  let rs := SearchSpec.results_of lower rstrip files term cancel fs in
  MainWindow.file_items (MainWindow.search_finished g rs) !! i = Some it ->
  Enumerator.item_hidden it = false ->
  SearchWorker.term_in lower term (Enumerator.base_name it) \/
  SearchWorker.term_in_lines lower term
    (SearchWorker.file_lines fs (Enumerator.full_path it)).
Proof.
  intros -> rs Hi Hshown. simpl in Hi. rewrite list_lookup_imap in Hi.
  destruct (MainWindow.file_items g !! i) as [it0|] eqn:Hit0; [|done].
  injection Hi as <-. simpl in *. apply negb_false_iff in Hshown.
  destruct (reported_flag_sound lower rstrip
              (SearchWorker.files_for_search (MainWindow.file_items g)) term cancel
              fs i (Enumerator.full_path it0, Enumerator.base_name it0))
    as [Hname | (line & Hl & Hc)]; [|exact Hshown| |].
  - unfold SearchWorker.files_for_search. by rewrite list_lookup_fmap, Hit0.
  - left. by apply PyStr_contains_spec.
  - right. exists line. split; [done|]. by apply PyStr_contains_spec.
Qed.

Lemma filtered_list_shows_only_matches_witness :
  SearchWorker.term_in PyStr.ascii_lower "HELLO" "a.txt" \/
  SearchWorker.term_in_lines PyStr.ascii_lower "HELLO"
    (SearchWorker.file_lines Examples.hello_files "C:\recv\a.txt").
Proof.
  apply (filtered_list_shows_only_matches PyStr.ascii_lower PyStr.ascii_rstrip
           (MainWindow.init Examples.flat_items)
           (SearchWorker.files_for_search Examples.flat_items)
           "HELLO" None Examples.hello_files 0
           (Enumerator.mkItem "a.txt" false false "C:\recv\a.txt" "a.txt"));
    reflexivity.
Defined.


